(** * DxcArgsFileSystem: the API-argument file system of dxcompiler

    A shallow embedding of [tools/clang/tools/dxcompiler/dxcfilesystem.cpp]
    and the properties of its handle codec, path normaliser, included-file
    registry, directory emulation and facade.

    Conventions of the embedding.
    - A null-terminated wide string ([LPCWSTR], [std::wstring] built from
      one) is the list of its code units before the terminator; a code unit
      of such a string is never 0, so it is a [positive].  [Path[i]] reads
      the terminator 0 at [i = wcslen Path]; a read outside the buffer is
      undefined and is modelled as [None].
    - A [HANDLE] is a pointer-sized word (64 bits); [DxcArgsHandle] is the
      union of that word with [HandleBits], whose bit-fields the compiler
      this file is written for allocates from the least significant bit:
      [Offset] in bits 0..7, [Length] in bits 8..15, [Kind] in bits 16..19.
      A constructor that takes the fields initialises the four bytes of
      [Bits], whose unnamed bits are zero, and nothing else: the upper four
      bytes of the word keep what the storage of the object held.  For the
      four sentinels, objects of static storage duration, that is zero; for
      the temporaries [TryFindDirHandle] and [IncludedFileIndexToHandle]
      build it is indeterminate, and enters the embedding as the argument
      [upper] of the calls that build one, over which every statement
      quantifies.
    - [DXASSERT] is a checked contract: an operation whose assertion fails
      stops the program.  So does an exception that reaches the boundary of
      a [throw()] function, a null dereference and the use of an output
      argument that was not set. *)

From Stdlib Require Import ZArith String Ascii Strings.Byte DecimalString Decimal.
From stdpp Require Import base tactics option list numbers.

Local Open Scope Z_scope.

(** ** Wide strings *)

Abbreviation wchar := positive (only parsing).
Abbreviation wstring := (list positive) (only parsing).

(** The wide literal [L"..."] of a narrow one; it ends at the first NUL. *)
Fixpoint L (s : string) : wstring :=
  match s with
  | EmptyString => []
  | String a s' =>
      match N_of_ascii a with
      | N0 => []
      | Npos p => p :: L s'
      end
  end.

(** [Path[i]]: the code unit at offset [i], the terminator at the end. *)
Definition wchar_at (Path : wstring) (i : Z) : option Z :=
  if decide (0 <= i < Z.of_nat (length Path)) then
    Z.pos <$> Path !! Z.to_nat i
  else if decide (i = Z.of_nat (length Path)) then Some 0
  else None.

Definition wcslen (s : wstring) : nat := length s.

(** [wcscmp]: the sign of the first difference, the terminator being 0. *)
Fixpoint wcscmp (s1 s2 : wstring) : Z :=
  match s1, s2 with
  | [], [] => 0
  | [], _ :: _ => -1
  | _ :: _, [] => 1
  | c1 :: r1, c2 :: r2 =>
      if decide (c1 = c2) then wcscmp r1 r2
      else if decide (Z.pos c1 < Z.pos c2) then -1 else 1
  end.

(** [wcsncmp]: the same over at most [n] code units. *)
Fixpoint wcsncmp (s1 s2 : wstring) (n : nat) : Z :=
  match n with
  | O => 0
  | S n' =>
      match s1, s2 with
      | [], [] => 0
      | [], _ :: _ => -1
      | _ :: _, [] => 1
      | c1 :: r1, c2 :: r2 =>
          if decide (c1 = c2) then wcsncmp r1 r2 n'
          else if decide (Z.pos c1 < Z.pos c2) then -1 else 1
      end
  end.

Definition chr_dot : Z := 46.        (* L'.'  *)
Definition chr_slash : Z := 47.      (* L'/'  *)
Definition chr_backslash : Z := 92.  (* L'\\' *)
Definition chr_colon : Z := 58.      (* L':'  *)

Definition is_separator (c : Z) : bool :=
  bool_decide (c = chr_backslash) || bool_decide (c = chr_slash).

(** ** Handle codec *)

Inductive HandleKind := Special | File | FileDir | SearchDir.

Definition HandleKind_val (k : HandleKind) : Z :=
  match k with Special => 0 | File => 1 | FileDir => 2 | SearchDir => 3 end.

Inductive SpecialValue := Unknown | StdOut | StdErr | Source | Output.

Definition SpecialValue_val (v : SpecialValue) : Z :=
  match v with
  | Unknown => 0 | StdOut => 1 | StdErr => 2 | Source => 3 | Output => 4
  end.

Definition HANDLE := Z.
Definition ptr_bits : Z := 64.
Definition INVALID_HANDLE_VALUE : HANDLE := 2 ^ ptr_bits - 1.

(** [struct HandleBits { unsigned Offset : 8; Length : 8; Kind : 4; }] *)
Record HandleBits := mkBits { Offset : Z; Length_ : Z; Kind : Z }.

(** Storing an [unsigned] into a bit-field of width [w] keeps it modulo
    [2^w]; a [size_t] passed for an [unsigned] is first taken modulo 2^32. *)
Definition to_unsigned (x : Z) : Z := x mod 2 ^ 32.

Definition init_Bits (offset length kind : Z) : HandleBits :=
  {| Offset := to_unsigned offset mod 2 ^ 8;
     Length_ := to_unsigned length mod 2 ^ 8;
     Kind := to_unsigned kind mod 2 ^ 4 |}.

(** The union: the word seen through [Bits], and [Bits] seen as the word.
    [Bits] is the lower half of the word; [upper] is what the upper half of
    the storage holds. *)
Definition Bits_of (Handle : HANDLE) : HandleBits :=
  {| Offset := Handle mod 2 ^ 8;
     Length_ := (Handle / 2 ^ 8) mod 2 ^ 8;
     Kind := (Handle / 2 ^ 16) mod 2 ^ 4 |}.

Definition Handle_of (upper : Z) (b : HandleBits) : HANDLE :=
  Offset b + Length_ b * 2 ^ 8 + Kind b * 2 ^ 16 + upper mod 2 ^ 32 * 2 ^ 32.

Definition DxcArgsHandle := HANDLE.

(** The four constructors.  The one that takes a [SpecialValue] is used for
    the four sentinels only, which are zero before it runs. *)
Definition DxcArgsHandle_HANDLE (h : HANDLE) : DxcArgsHandle := h.
Definition DxcArgsHandle_index (upper : Z) (fileIndex : Z) : DxcArgsHandle :=
  Handle_of upper (init_Bits fileIndex 0 (HandleKind_val File)).
Definition DxcArgsHandle_kind (upper : Z) (HK : HandleKind)
  (fileIndex dirLength : Z) : DxcArgsHandle :=
  Handle_of upper (init_Bits fileIndex dirLength (HandleKind_val HK)).
Definition DxcArgsHandle_special (V : SpecialValue) : DxcArgsHandle :=
  Handle_of 0 (init_Bits (SpecialValue_val V) 0 (HandleKind_val Special)).

Definition GetKind (h : DxcArgsHandle) : Z := Kind (Bits_of h).
Definition IsFileKind (h : DxcArgsHandle) : bool :=
  bool_decide (GetKind h = HandleKind_val File).
Definition IsSpecialUnknown (h : DxcArgsHandle) : bool := bool_decide (h = 0).
Definition IsDirHandle (h : DxcArgsHandle) : bool :=
  bool_decide (GetKind h = HandleKind_val FileDir)
  || bool_decide (GetKind h = HandleKind_val SearchDir).
(** [GetFileIndex] and [GetSpecialValue] assert the kind of the handle. *)
Definition GetFileIndex (h : DxcArgsHandle) : option Z :=
  if IsFileKind h then Some (Offset (Bits_of h)) else None.
Definition GetSpecialValue (h : DxcArgsHandle) : option Z :=
  if bool_decide (GetKind h = HandleKind_val Special)
  then Some (Offset (Bits_of h)) else None.
Definition IsStdHandle (h : DxcArgsHandle) : bool :=
  bool_decide (GetKind h = HandleKind_val Special)
  && (bool_decide (GetSpecialValue h = Some (SpecialValue_val StdErr))
      || bool_decide (GetSpecialValue h = Some (SpecialValue_val StdOut))).
Definition Length (h : DxcArgsHandle) : Z := Length_ (Bits_of h).

Definition UnknownHandle : DxcArgsHandle := DxcArgsHandle_special Unknown.
Definition StdOutHandle : DxcArgsHandle := DxcArgsHandle_special StdOut.
Definition StdErrHandle : DxcArgsHandle := DxcArgsHandle_special StdErr.
Definition OutputHandle : DxcArgsHandle := DxcArgsHandle_special Output.

Definition MaxIncludedFiles : nat := 1000.

(** What a caller reads back from a handle: kind, index and length. *)
Definition decode (h : DxcArgsHandle) : Z * Z * Z :=
  (GetKind h, Offset (Bits_of h), Length h).

(** ** Path normaliser *)

Definition IsAbsoluteOrCurDirRelativeW (Path : wstring) : bool :=
  match Path with
  | [] => false
  | c0 :: _ =>
      if decide (Z.pos c0 = chr_dot) then
        match wchar_at Path 1 with
        | Some c1 => bool_decide (c1 = 0) || bool_decide (c1 = chr_slash)
                     || bool_decide (c1 = chr_backslash)
        | None => false
        end
      else if bool_decide (wchar_at Path 1 = Some chr_colon)
              && bool_decide (wchar_at Path 2 = Some chr_backslash) then true
      else if decide (Z.pos c0 = chr_backslash) then
        bool_decide (wchar_at Path 1 = Some chr_backslash)
      else false
  end.

(** [MakeAbsoluteOrCurDirRelativeW]: the path [Path] points to afterwards. *)
Definition MakeAbsoluteOrCurDirRelativeW (Path : wstring) : wstring :=
  if IsAbsoluteOrCurDirRelativeW Path then Path
  else L "./" ++ Path.

(** ** Values of the platform headers *)

Definition ERROR_SUCCESS : Z := 0.
Definition ERROR_INVALID_HANDLE : Z := 6.
Definition ERROR_OUT_OF_STRUCTURES : Z := 84.
Definition ERROR_UNHANDLED_EXCEPTION : Z := 574.
Definition ERROR_NOT_CAPABLE : Z := 775.
Definition ERROR_IO_DEVICE : Z := 1117.
Definition ERROR_NOT_FOUND : Z := 1168.
Definition FILE_ATTRIBUTE_DIRECTORY : Z := 16.
Definition FILE_ATTRIBUTE_NORMAL : Z := 128.
Definition INVALID_FILE_ATTRIBUTES : Z := 2 ^ 32 - 1.
Definition FILE_TYPE_UNKNOWN : Z := 0.
Definition FILE_TYPE_DISK : Z := 1.
Definition FILE_TYPE_CHAR : Z := 2.
Definition TRUE : Z := 1.
Definition FALSE : Z := 0.
Definition S_OK : Z := 0.
Definition E_OUTOFMEMORY : Z := -2147024882.
Definition STDOUT_FILENO : Z := 1.
Definition STDERR_FILENO : Z := 2.
Definition EIO : Z := 5.
Definition EBADF : Z := 9.
Definition EINVAL : Z := 22.

Definition FAILED (hr : Z) : bool := bool_decide (hr < 0).

(** Integer conversions: to [DWORD], to [int]/[long], to [uintptr_t] and to
    [intptr_t]. *)
Definition to_DWORD (x : Z) : Z := x mod 2 ^ 32.
Definition to_int (x : Z) : Z := (x + 2 ^ 31) mod 2 ^ 32 - 2 ^ 31.
Definition to_uintptr (x : Z) : Z := x mod 2 ^ ptr_bits.
Definition to_intptr (x : Z) : Z :=
  (x + 2 ^ (ptr_bits - 1)) mod 2 ^ ptr_bits - 2 ^ (ptr_bits - 1).

(** ** External collaborators *)

(** An [IDxcBlob] is its buffer. *)
Definition blob := list byte.
Definition GetBufferSize (b : blob) : Z := Z.of_nat (length b).

(** What one call of [IDxcIncludeHandler::LoadSource] hands back. *)
Record LoadResult := mkLoad { load_hr : Z; load_blob : option blob }.

(** The include handler is the caller's object: its answer may depend on the
    calls it has already received. *)
Definition IDxcIncludeHandler := list wstring → wstring → LoadResult.

(** The stream objects and helpers of the support library.  A stream is
    held by reference; [Store] is the state of all stream objects.  An
    operation that yields [None] reported a failed [HRESULT] (or, for the
    string conversions, raised). *)
Record Externals := {
  Store : Type;
  IStream : Type;
  CreateReadOnlyBlobStream : blob → Store → option IStream * Store;
  CreateMemoryStream : Store → option IStream * Store;
  Stream_Read : IStream → Z → Store → option (list byte) * Store;
  Stream_Write : IStream → list byte → Store → option Z * Store;
  Stream_Seek : IStream → Z → Z → Store → option Z * Store;
  Stream_Stat : IStream → Store → option Z;
  DxcGetBlobAsUtf8 : blob → option blob;
  UTF16ToUTF8StringOrThrow : wstring → option (list byte);
  UTF8ToUTF16StringOrThrow : string → option wstring;
  IsAbsoluteOrCurDirRelative : string → bool
}.

Section Adapter.
Context (X : Externals).

(** ** The adapter and the state around it *)

Record IncludedFile := mkIncludedFile {
  Blob : blob;
  BlobStream : IStream X;
  Name : wstring
}.

Record DxcArgsFileSystemImpl := mkFS {
  m_pSource : blob;
  m_pSourceName : wstring;
  m_pSourceStream : IStream X;
  m_pOutputStream : option (IStream X);
  m_pStdOutStream : option (IStream X);
  m_pStdErrStream : option (IStream X);
  m_pOutputStreamName : option wstring;
  m_includeLoader : option IDxcIncludeHandler;
  m_searchEntries : list wstring;
  m_bDisplayIncludeProcess : bool;
  m_includedFiles : list IncludedFile
}.

(** The adapter, the stream objects, the thread's last error and [errno],
    and the calls the include handler has received so far. *)
Record World := mkWorld {
  fs : DxcArgsFileSystemImpl;
  streams : Store X;
  LastError : Z;
  errno : Z;
  LoadSource_calls : list wstring
}.

Definition set_fs (f : DxcArgsFileSystemImpl) (w : World) : World :=
  mkWorld f (streams w) (LastError w) (errno w) (LoadSource_calls w).
Definition set_streams (s : Store X) (w : World) : World :=
  mkWorld (fs w) s (LastError w) (errno w) (LoadSource_calls w).
Definition set_LastError (e : Z) (w : World) : World :=
  mkWorld (fs w) (streams w) e (errno w) (LoadSource_calls w).
Definition set_errno (e : Z) (w : World) : World :=
  mkWorld (fs w) (streams w) (LastError w) e (LoadSource_calls w).
Definition log_LoadSource (p : wstring) (w : World) : World :=
  mkWorld (fs w) (streams w) (LastError w) (errno w) (LoadSource_calls w ++ [p]).

Definition push_includedFile (e : IncludedFile) (f : DxcArgsFileSystemImpl)
  : DxcArgsFileSystemImpl :=
  mkFS (m_pSource f) (m_pSourceName f) (m_pSourceStream f) (m_pOutputStream f)
       (m_pStdOutStream f) (m_pStdErrStream f) (m_pOutputStreamName f)
       (m_includeLoader f) (m_searchEntries f) (m_bDisplayIncludeProcess f)
       (m_includedFiles f ++ [e]).
Definition push_searchEntry (e : wstring) (f : DxcArgsFileSystemImpl)
  : DxcArgsFileSystemImpl :=
  mkFS (m_pSource f) (m_pSourceName f) (m_pSourceStream f) (m_pOutputStream f)
       (m_pStdOutStream f) (m_pStdErrStream f) (m_pOutputStreamName f)
       (m_includeLoader f) (m_searchEntries f ++ [e])
       (m_bDisplayIncludeProcess f) (m_includedFiles f).
Definition set_DisplayIncludeProcess (b : bool) (f : DxcArgsFileSystemImpl)
  : DxcArgsFileSystemImpl :=
  mkFS (m_pSource f) (m_pSourceName f) (m_pSourceStream f) (m_pOutputStream f)
       (m_pStdOutStream f) (m_pStdErrStream f) (m_pOutputStreamName f)
       (m_includeLoader f) (m_searchEntries f) b (m_includedFiles f).
Definition set_StdStreams (o e : option (IStream X))
  (f : DxcArgsFileSystemImpl) : DxcArgsFileSystemImpl :=
  mkFS (m_pSource f) (m_pSourceName f) (m_pSourceStream f) (m_pOutputStream f)
       o e (m_pOutputStreamName f)
       (m_includeLoader f) (m_searchEntries f) (m_bDisplayIncludeProcess f)
       (m_includedFiles f).
Definition set_Output (s : option (IStream X)) (n : wstring)
  (f : DxcArgsFileSystemImpl) : DxcArgsFileSystemImpl :=
  mkFS (m_pSource f) (m_pSourceName f) (m_pSourceStream f) s
       (m_pStdOutStream f) (m_pStdErrStream f) (Some n)
       (m_includeLoader f) (m_searchEntries f) (m_bDisplayIncludeProcess f)
       (m_includedFiles f).

(** How a call ends: it returns, an exception leaves it (the state is as
    the call left it), or the program stops. *)
Inductive outcome (A : Type) : Type :=
  | Returned (a : A) (w : World)
  | Thrown (w : World)
  | Crashed.
Arguments Returned {A} a w.
Arguments Thrown {A} w.
Arguments Crashed {A}.

Definition M (A : Type) : Type := World → outcome A.

Definition ret {A} (a : A) : M A := λ w, Returned a w.
Definition bind {A B} (m : M A) (k : A → M B) : M B :=
  λ w, match m w with
       | Returned a w' => k a w'
       | Thrown w' => Thrown w'
       | Crashed => Crashed
       end.
Definition throw {A} : M A := λ w, Thrown w.
Definition crash {A} : M A := λ _, Crashed.
Definition get : M World := λ w, Returned w w.
Definition modify (g : World → World) : M unit := λ w, Returned () (g w).
(** An undefined read ([None]) stops the program. *)
Definition defined {A} (o : option A) : M A :=
  match o with Some a => ret a | None => crash end.
(** The boundary of a function declared [throw()]. *)
Definition nothrow {A} (m : M A) : M A :=
  λ w, match m w with Thrown _ => Crashed | o => o end.

(** The value a call returns, when it returns. *)
Definition returned {A} (o : outcome A) : option A :=
  match o with Returned a _ => Some a | _ => None end.

Local Notation "x ←' m ; k" := (bind m (λ x, k))
  (at level 20, m at level 100, k at level 200, right associativity,
   format "x  ←'  m ;  '/' k").
Local Notation "m ;;' k" := (bind m (λ _, k))
  (at level 100, k at level 200, right associativity).

Definition SetLastError (e : Z) : M unit := modify (set_LastError e).
Definition set_errno_ (e : Z) : M unit := modify (set_errno e).

(** ** Directory emulation *)

Definition IsDirOf (lpDir : wstring) (dirLen : nat) (fileName : wstring)
  : option bool :=
  if decide (length fileName ≤ dirLen)%nat then Some false
  else if decide (0 ≠ wcsncmp lpDir fileName dirLen) then Some false
  else
    match wchar_at lpDir (Z.of_nat dirLen - 1) with
    | None => None
    | Some last =>
        if is_separator last then Some true
        else is_separator <$> wchar_at fileName (Z.of_nat dirLen)
    end.

Definition IsDirPrefixOrSame (lpDir : wstring) (dirLen : nat) (path : wstring)
  : option bool :=
  if decide (0 = wcscmp lpDir path) then Some true
  else IsDirOf lpDir dirLen path.

(** [for (i = from; i < size; ++i) if (test(names[i])) return i;] with a
    test that may read outside a buffer. *)
Fixpoint first_match (test : wstring → option bool) (names : list wstring)
  (i : nat) : option (option nat) :=
  match names with
  | [] => Some None
  | n :: rest =>
      match test n with
      | None => None
      | Some true => Some (Some i)
      | Some false => first_match test rest (S i)
      end
  end.

(** [TryFindDirHandle] builds the handle it returns in a temporary;
    [upper] is what the upper half of that storage holds. *)
Definition TryFindDirHandle (upper : Z) (f : DxcArgsFileSystemImpl)
  (lpDir : wstring) : option HANDLE :=
  let dirLen := wcslen lpDir in
  match first_match (IsDirOf lpDir dirLen) (Name <$> m_includedFiles f) 0 with
  | None => None
  | Some (Some i) =>
      Some (DxcArgsHandle_kind upper FileDir (Z.of_nat i) (Z.of_nat dirLen))
  | Some None =>
      match first_match (IsDirPrefixOrSame lpDir dirLen) (m_searchEntries f) 0 with
      | None => None
      | Some (Some i) =>
          Some (DxcArgsHandle_kind upper SearchDir (Z.of_nat i)
                  (Z.of_nat dirLen))
      | Some None => Some INVALID_HANDLE_VALUE
      end
  end.

(** ** Included-file registry *)

(** The scan at the head of [TryFindOrOpen]. *)
Fixpoint find_included (lpFileName : wstring) (files : list IncludedFile)
  (i : nat) : option nat :=
  match files with
  | [] => None
  | e :: rest =>
      if decide (0 = wcscmp lpFileName (Name e)) then Some i
      else find_included lpFileName rest (S i)
  end.

(** The line written when [m_bDisplayIncludeProcess] is set; [index - 1]
    is computed in [size_t]. *)
Definition open_file_trace (fileName : list byte) (index : nat) : list byte :=
  list_byte_of_string "Opening file [" ++ fileName
  ++ list_byte_of_string "], stack top ["
  ++ list_byte_of_string
       (NilEmpty.string_of_uint
          (N.to_uint (Z.to_N ((Z.of_nat index - 1) mod 2 ^ ptr_bits))))
  ++ list_byte_of_string ("]" ++ String "010" EmptyString).

(** [TryFindOrOpen] returns the error code and what it stored through
    [index], if anything. *)
Definition TryFindOrOpen (lpFileName : wstring) : M (Z * option nat) :=
  w ←' get;
  let f := fs w in
  match find_included lpFileName (m_includedFiles f) 0 with
  | Some i => ret (ERROR_SUCCESS, Some i)
  | None =>
    match m_includeLoader f with
    | None => ret (ERROR_NOT_FOUND, None)
    | Some loader =>
      if decide (length (m_includedFiles f) = MaxIncludedFiles)
      then ret (ERROR_OUT_OF_STRUCTURES, None)
      else
        let r := loader (LoadSource_calls w) lpFileName in
        modify (log_LoadSource lpFileName) ;;'
        if FAILED (load_hr r) then ret (ERROR_UNHANDLED_EXCEPTION, None)
        else
          match load_blob r with
          | None => ret (ERROR_NOT_FOUND, None)
          | Some fileBlob =>
            match DxcGetBlobAsUtf8 X fileBlob with
            | None => ret (ERROR_UNHANDLED_EXCEPTION, None)
            | Some fileBlobEncoded =>
              let '(created, st) :=
                CreateReadOnlyBlobStream X fileBlobEncoded (streams w) in
              modify (set_streams st) ;;'
              match created with
              | None => ret (ERROR_UNHANDLED_EXCEPTION, None)
              | Some fileStream =>
                let e := mkIncludedFile fileBlobEncoded fileStream lpFileName in
                modify (λ w, set_fs (push_includedFile e (fs w)) w) ;;'
                let index := (length (m_includedFiles f) + 1 - 1)%nat in
                (if m_bDisplayIncludeProcess f then
                   match UTF16ToUTF8StringOrThrow X lpFileName with
                   | None => throw
                   | Some fileName =>
                     match m_pStdErrStream f with
                     | None => crash
                     | Some err =>
                       let '(written, st') :=
                         Stream_Write X err (open_file_trace fileName index) st in
                       modify (set_streams st') ;;'
                       match written with
                       | None => throw
                       | Some _ => ret ()
                       end
                     end
                   end
                 else ret ()) ;;'
                ret (ERROR_SUCCESS, Some index)
              end
            end
          end
    end
  end.

(** Likewise a temporary, over [upper]. *)
Definition IncludedFileIndexToHandle (upper : Z) (index : nat) : HANDLE :=
  DxcArgsHandle_index upper (Z.of_nat index).

Definition IsKnownHandle (h : HANDLE) : bool := negb (IsSpecialUnknown h).

(** [HandleToIncludedFile] asserts a file handle with a live index. *)
Definition HandleToIncludedFile (f : DxcArgsFileSystemImpl) (handle : HANDLE)
  : option IncludedFile :=
  match GetFileIndex handle with
  | None => None
  | Some i =>
      if decide (i < Z.of_nat (length (m_includedFiles f)))
      then m_includedFiles f !! Z.to_nat i
      else None
  end.

(** ** Construction and set-up *)

(** The constructor; it raises when the stream of the source cannot be
    created, and then there is no adapter. *)
Definition new_DxcArgsFileSystemImpl (pSource : blob) (pSourceName : wstring)
  (pHandler : option IDxcIncludeHandler) (st : Store X) : option World :=
  let name := MakeAbsoluteOrCurDirRelativeW pSourceName in
  match CreateReadOnlyBlobStream X pSource st with
  | (None, _) => None
  | (Some srcStream, st') =>
      Some (mkWorld
              (mkFS pSource name srcStream None None None None pHandler [] false
                    [mkIncludedFile pSource srcStream name])
              st' 0 0 [])
  end.

Definition EnableDisplayIncludeProcess : M unit :=
  modify (λ w, set_fs (set_DisplayIncludeProcess true (fs w)) w).

Definition CreateStdStreams : M Z :=
  w ←' get;
  if decide (m_pStdOutStream (fs w) = None) then
    let '(o, st1) := CreateMemoryStream X (streams w) in
    let '(e, st2) := CreateMemoryStream X st1 in
    modify (λ w, set_streams st2 (set_fs (set_StdStreams o e (fs w)) w)) ;;'
    match o, e with
    | Some _, Some _ => ret S_OK
    | _, _ => ret E_OUTOFMEMORY
    end
  else crash.

(** The body of the loop of [SetupForCompilerInstance]. *)
Fixpoint add_searchEntries (entries : list string) : M unit :=
  match entries with
  | [] => ret ()
  | E :: rest =>
      match UTF8ToUTF16StringOrThrow X E with
      | None => throw
      | Some ws =>
          modify (λ w, set_fs
            (push_searchEntry
               (if IsAbsoluteOrCurDirRelative X E then ws else L "./" ++ ws)
               (fs w)) w) ;;'
          add_searchEntries rest
      end
  end.

(** [entries] stands for [compiler.getHeaderSearchOpts().UserEntries]. *)
Definition SetupForCompilerInstance (entries : list string) : M unit :=
  w ←' get;
  if decide (length (m_searchEntries (fs w)) = 0%nat) then
    if decide (MaxIncludedFiles < length entries)%nat then throw
    else add_searchEntries entries
  else crash.

Definition RegisterOutputStream (pName : wstring) (pStream : option (IStream X))
  : M Z :=
  w ←' get;
  if decide (m_pOutputStream (fs w) = None) then
    modify (λ w, set_fs
      (set_Output pStream (MakeAbsoluteOrCurDirRelativeW pName) (fs w)) w) ;;'
    ret S_OK
  else crash.

(** ** Descriptors and streams *)

Definition HandleFromFD (fd : Z) : HANDLE :=
  if decide (fd = STDOUT_FILENO) then StdOutHandle
  else if decide (fd = STDERR_FILENO) then StdErrHandle
  else to_uintptr fd.

Definition open_osfhandle (osfhandle : Z) (flags : Z) : Z :=
  let H := DxcArgsHandle_HANDLE (to_uintptr osfhandle) in
  if decide (H = StdOutHandle) then STDOUT_FILENO
  else if decide (H = StdErrHandle) then STDERR_FILENO
  else to_int (to_intptr H).

Definition get_osfhandle (fd : Z) : Z := to_intptr (HandleFromFD fd).

(** The stream behind a handle, null ([None]) when there is none. *)
Definition GetStreamForHandle (handle : HANDLE) : M (option (IStream X)) :=
  w ←' get;
  let f := fs w in
  if decide (handle = OutputHandle) then ret (m_pOutputStream f)
  else if decide (handle = StdOutHandle) then ret (m_pStdOutStream f)
  else if decide (handle = StdErrHandle) then ret (m_pStdErrStream f)
  else if decide (GetKind handle = HandleKind_val File) then
    e ←' defined (HandleToIncludedFile f handle);
    ret (Some (BlobStream e))
  else ret None.

Definition GetStreamForFD (fd : Z) : M (option (IStream X)) :=
  GetStreamForHandle (HandleFromFD fd).

Definition close (fd : Z) : M Z := ret 0.
Definition setmode (fd mode : Z) : M Z := ret 0.
Definition resize_file (path : wstring) (size : Z) : M Z := ret 0.

Definition lseek (fd offset origin : Z) : M Z :=
  nothrow (
    stream ←' GetStreamForFD fd;
    match stream with
    | None => set_errno_ EBADF ;;' ret (-1)
    | Some s =>
        w ←' get;
        let '(newOffset, st) := Stream_Seek X s (to_DWORD offset) origin (streams w) in
        modify (set_streams st) ;;'
        match newOffset with
        | None => set_errno_ EINVAL ;;' ret (-1)
        | Some n => ret (to_int (to_DWORD n))
        end
    end).

(** [Read] returns the count and the bytes stored into [buffer]. *)
Definition Read (fd count : Z) : M (Z * list byte) :=
  nothrow (
    stream ←' GetStreamForFD fd;
    match stream with
    | None => set_errno_ EBADF ;;' ret (-1, [])
    | Some s =>
        w ←' get;
        let '(data, st) := Stream_Read X s count (streams w) in
        modify (set_streams st) ;;'
        match data with
        | None => set_errno_ EIO ;;' ret (-1, [])
        | Some bytes => ret (to_int (Z.of_nat (length bytes)), bytes)
        end
    end).

Definition Write (fd : Z) (buffer : list byte) : M Z :=
  nothrow (
    stream ←' GetStreamForFD fd;
    match stream with
    | None => set_errno_ EBADF ;;' ret (-1)
    | Some s =>
        w ←' get;
        let '(written, st) := Stream_Write X s buffer (streams w) in
        modify (set_streams st) ;;'
        match written with
        | None => set_errno_ EIO ;;' ret (-1)
        | Some n => ret (to_int n)
        end
    end).

(** ** Facade: open and query *)

(** A call builds at most one handle, a directory handle or else a file
    handle; [upper] is what the upper half of its storage holds. *)
Definition CreateFileW (upper : Z) (lpFileName : wstring)
  (dwDesiredAccess dwShareMode dwCreationDisposition dwFlagsAndAttributes : Z)
  : M HANDLE :=
  nothrow (
    let lpFileName := MakeAbsoluteOrCurDirRelativeW lpFileName in
    w ←' get;
    if match m_pOutputStreamName (fs w) with
       | Some out => bool_decide (0 = wcscmp lpFileName out)
       | None => false
       end
    then ret OutputHandle
    else
      dirHandle ←' defined (TryFindDirHandle upper (fs w) lpFileName);
      if decide (dirHandle ≠ INVALID_HANDLE_VALUE) then ret dirHandle
      else
        r ←' TryFindOrOpen lpFileName;
        let '(findError, includedIndex) := r in
        if decide (findError = ERROR_SUCCESS) then
          i ←' defined includedIndex;
          ret (IncludedFileIndexToHandle upper i)
        else
          SetLastError findError ;;' ret INVALID_HANDLE_VALUE).

(** The fields of [BY_HANDLE_FILE_INFORMATION] the adapter writes; the
    others are zeroed. *)
Record BY_HANDLE_FILE_INFORMATION := mkInfo {
  dwFileAttributes : Z;
  nFileSizeLow : Z;
  nFileIndexHigh : Z;
  nFileIndexLow : Z
}.

Definition GetFileInformationByHandle (hFile : HANDLE)
  : M (Z * BY_HANDLE_FILE_INFORMATION) :=
  nothrow (
    w ←' get;
    let low := to_DWORD (to_uintptr hFile) in
    if IsFileKind hFile then
      file ←' defined (HandleToIncludedFile (fs w) hFile);
      ret (TRUE, mkInfo FILE_ATTRIBUTE_NORMAL
                        (to_DWORD (GetBufferSize (Blob file))) 0 low)
    else if decide (hFile = OutputHandle) then
      out ←' defined (m_pOutputStream (fs w));
      match Stream_Stat X out (streams w) with
      | None =>
          SetLastError ERROR_IO_DEVICE ;;'
          ret (FALSE, mkInfo FILE_ATTRIBUTE_NORMAL 0 0 low)
      | Some cbSize =>
          ret (TRUE, mkInfo FILE_ATTRIBUTE_NORMAL (to_DWORD cbSize) 0 low)
      end
    else if IsDirHandle hFile then
      ret (TRUE, mkInfo FILE_ATTRIBUTE_DIRECTORY 0 1 low)
    else
      SetLastError ERROR_INVALID_HANDLE ;;' ret (FALSE, mkInfo 0 0 0 low)).

Definition GetFileType (hFile : HANDLE) : M Z :=
  if IsStdHandle hFile then ret FILE_TYPE_CHAR
  else if negb (IsSpecialUnknown hFile) then ret FILE_TYPE_DISK
  else SetLastError ERROR_NOT_FOUND ;;' ret FILE_TYPE_UNKNOWN.

(** [upper] is for the directory handle the call looks for. *)
Definition GetFileAttributesW (upper : Z) (lpFileName : wstring) : M Z :=
  nothrow (
    let lpFileName := MakeAbsoluteOrCurDirRelativeW lpFileName in
    w ←' get;
    let sourceNameLen := wcslen (m_pSourceName (fs w)) in
    let fileNameLen := wcslen lpFileName in
    if bool_decide (fileNameLen = sourceNameLen)
       && bool_decide (0 = wcsncmp (m_pSourceName (fs w)) lpFileName fileNameLen)
    then ret FILE_ATTRIBUTE_NORMAL
    else if match m_pOutputStreamName (fs w) with
            | Some out => bool_decide (0 = wcscmp out lpFileName)
            | None => false
            end
    then ret FILE_ATTRIBUTE_NORMAL
    else
      dirHandle ←' defined (TryFindDirHandle upper (fs w) lpFileName);
      if decide (dirHandle ≠ INVALID_HANDLE_VALUE)
      then ret FILE_ATTRIBUTE_DIRECTORY
      else
        r ←' TryFindOrOpen lpFileName;
        if decide (r.1 = ERROR_SUCCESS) then ret FILE_ATTRIBUTE_NORMAL
        else SetLastError r.1 ;;' ret INVALID_FILE_ATTRIBUTES).

Definition CloseHandle (hObject : HANDLE) : M Z :=
  if IsKnownHandle hObject then ret TRUE
  else SetLastError ERROR_INVALID_HANDLE ;;' ret FALSE.

(** ** Facade: the operations that are not supported *)

Definition FindNextFileW (hFindFile : HANDLE) : M Z :=
  SetLastError ERROR_NOT_CAPABLE ;;' ret FALSE.
Definition FindFirstFileW (lpFileName : wstring) : M HANDLE :=
  SetLastError ERROR_NOT_CAPABLE ;;' ret FALSE.
Definition SetFileTime (hFile : HANDLE)
  (lpCreationTime lpLastAccessTime lpLastWriteTime : option Z) : M Z :=
  SetLastError ERROR_NOT_CAPABLE ;;' ret FALSE.
Definition CreateHardLinkW (lpFileName lpExistingFileName : wstring) : M Z :=
  SetLastError ERROR_NOT_CAPABLE ;;' ret FALSE.
Definition MoveFileExW (lpExistingFileName : wstring)
  (lpNewFileName : option wstring) (dwFlags : Z) : M Z :=
  SetLastError ERROR_NOT_CAPABLE ;;' ret FALSE.
Definition DeleteFileW (lpFileName : wstring) : M Z :=
  SetLastError ERROR_NOT_CAPABLE ;;' ret FALSE.
Definition RemoveDirectoryW (lpFileName : wstring) : M Z :=
  SetLastError ERROR_NOT_CAPABLE ;;' ret FALSE.
Definition CreateDirectoryW (lpPathName : wstring) : M Z :=
  SetLastError ERROR_NOT_CAPABLE ;;' ret FALSE.
Definition GetCurrentDirectoryW (nBufferLength : Z) : M Z :=
  SetLastError ERROR_NOT_CAPABLE ;;' ret FALSE.
Definition GetMainModuleFileNameW (nSize : Z) : M Z :=
  SetLastError ERROR_NOT_CAPABLE ;;' ret FALSE.
Definition GetTempPathW (nBufferLength : Z) : M Z :=
  SetLastError ERROR_NOT_CAPABLE ;;' ret FALSE.
Definition CreateSymbolicLinkW (lpSymlinkFileName lpTargetFileName : wstring)
  (dwFlags : Z) : M Z :=
  SetLastError ERROR_NOT_CAPABLE ;;' ret FALSE.
Definition ReadFile (hFile : HANDLE) (nNumberOfBytesToRead : Z) : M Z :=
  SetLastError ERROR_NOT_CAPABLE ;;' ret FALSE.
Definition CreateFileMappingW (hFile : HANDLE)
  (flProtect dwMaximumSizeHigh dwMaximumSizeLow : Z) : M HANDLE :=
  SetLastError ERROR_NOT_CAPABLE ;;' ret INVALID_HANDLE_VALUE.
Definition MapViewOfFile (hFileMappingObject : HANDLE)
  (dwDesiredAccess dwFileOffsetHigh dwFileOffsetLow dwNumberOfBytesToMap : Z)
  : M Z :=
  SetLastError ERROR_NOT_CAPABLE ;;' ret 0.
Definition UnmapViewOfFile (lpBaseAddress : Z) : M Z :=
  SetLastError ERROR_NOT_CAPABLE ;;' ret FALSE.

(** ** The life of an adapter *)

(** The calls a host can make on a constructed adapter, the two that build
    a handle each with the [upper] of its call.  [op_host] stands for what
    the host does on its own between two calls: it may change the stream
    objects, the last error and [errno]. *)
Inductive Op :=
  | op_EnableDisplayIncludeProcess
  | op_CreateStdStreams
  | op_SetupForCompilerInstance (entries : list string)
  | op_RegisterOutputStream (pName : wstring) (pStream : option (IStream X))
  | op_CreateFileW (upper : Z) (lpFileName : wstring)
      (access share disposition flags : Z)
  | op_GetFileAttributesW (upper : Z) (lpFileName : wstring)
  | op_GetFileInformationByHandle (hFile : HANDLE)
  | op_GetFileType (hFile : HANDLE)
  | op_CloseHandle (hObject : HANDLE)
  | op_FindNextFileW (hFindFile : HANDLE)
  | op_FindFirstFileW (lpFileName : wstring)
  | op_SetFileTime (hFile : HANDLE) (creation access write : option Z)
  | op_CreateHardLinkW (lpFileName lpExistingFileName : wstring)
  | op_MoveFileExW (lpExisting : wstring) (lpNew : option wstring) (dwFlags : Z)
  | op_DeleteFileW (lpFileName : wstring)
  | op_RemoveDirectoryW (lpFileName : wstring)
  | op_CreateDirectoryW (lpPathName : wstring)
  | op_GetCurrentDirectoryW (nBufferLength : Z)
  | op_GetMainModuleFileNameW (nSize : Z)
  | op_GetTempPathW (nBufferLength : Z)
  | op_CreateSymbolicLinkW (lpSymlink lpTarget : wstring) (dwFlags : Z)
  | op_ReadFile (hFile : HANDLE) (nNumberOfBytesToRead : Z)
  | op_CreateFileMappingW (hFile : HANDLE) (protect sizeHigh sizeLow : Z)
  | op_MapViewOfFile (hMapping : HANDLE) (access offHigh offLow bytes : Z)
  | op_UnmapViewOfFile (lpBaseAddress : Z)
  | op_close (fd : Z)
  | op_lseek (fd offset origin : Z)
  | op_setmode (fd mode : Z)
  | op_resize_file (path : wstring) (size : Z)
  | op_Read (fd count : Z)
  | op_Write (fd : Z) (buffer : list byte)
  | op_host (st : Store X) (lastError errno_ : Z).

Definition void {A} (m : M A) : M unit := bind m (λ _, ret ()).

Definition run (o : Op) : M unit :=
  match o with
  | op_EnableDisplayIncludeProcess => EnableDisplayIncludeProcess
  | op_CreateStdStreams => void CreateStdStreams
  | op_SetupForCompilerInstance entries => SetupForCompilerInstance entries
  | op_RegisterOutputStream n s => void (RegisterOutputStream n s)
  | op_CreateFileW upper n a b c d => void (CreateFileW upper n a b c d)
  | op_GetFileAttributesW upper n => void (GetFileAttributesW upper n)
  | op_GetFileInformationByHandle h => void (GetFileInformationByHandle h)
  | op_GetFileType h => void (GetFileType h)
  | op_CloseHandle h => void (CloseHandle h)
  | op_FindNextFileW h => void (FindNextFileW h)
  | op_FindFirstFileW n => void (FindFirstFileW n)
  | op_SetFileTime h a b c => void (SetFileTime h a b c)
  | op_CreateHardLinkW a b => void (CreateHardLinkW a b)
  | op_MoveFileExW a b c => void (MoveFileExW a b c)
  | op_DeleteFileW n => void (DeleteFileW n)
  | op_RemoveDirectoryW n => void (RemoveDirectoryW n)
  | op_CreateDirectoryW n => void (CreateDirectoryW n)
  | op_GetCurrentDirectoryW n => void (GetCurrentDirectoryW n)
  | op_GetMainModuleFileNameW n => void (GetMainModuleFileNameW n)
  | op_GetTempPathW n => void (GetTempPathW n)
  | op_CreateSymbolicLinkW a b c => void (CreateSymbolicLinkW a b c)
  | op_ReadFile h n => void (ReadFile h n)
  | op_CreateFileMappingW h a b c => void (CreateFileMappingW h a b c)
  | op_MapViewOfFile h a b c d => void (MapViewOfFile h a b c d)
  | op_UnmapViewOfFile a => void (UnmapViewOfFile a)
  | op_close fd => void (close fd)
  | op_lseek fd a b => void (lseek fd a b)
  | op_setmode fd m => void (setmode fd m)
  | op_resize_file p s => void (resize_file p s)
  | op_Read fd n => void (Read fd n)
  | op_Write fd b => void (Write fd b)
  | op_host st le en =>
      modify (λ w, mkWorld (fs w) st le en (LoadSource_calls w))
  end.

(** The state a call leaves behind, when the program goes on after it. *)
Definition after (o : Op) (w : World) : option World :=
  match run o w with
  | Returned _ w' => Some w'
  | Thrown w' => Some w'
  | Crashed => None
  end.

(** The states of an adapter after [w]: those a sequence of calls leads to. *)
Inductive steps : World → World → Prop :=
  | steps_refl w : steps w w
  | steps_step w w' w'' o : steps w w' → after o w' = Some w'' → steps w w''.

(** Resolving a list of paths one after the other: the results, and the
    state afterwards (as long as the program goes on). *)
Fixpoint resolve_all (paths : list wstring) (w : World)
  : list (Z * option nat) * option World :=
  match paths with
  | [] => ([], Some w)
  | p :: rest =>
      match TryFindOrOpen p w with
      | Returned r w' =>
          let '(rs, w'') := resolve_all rest w' in (r :: rs, w'')
      | Thrown _ | Crashed => ([], None)
      end
  end.

(** A sequence of calls, as long as the program goes on. *)
Fixpoint run_all (ops : list Op) (w : World) : option World :=
  match ops with
  | [] => Some w
  | o :: rest =>
      match after o w with
      | Some w' => run_all rest w'
      | None => None
      end
  end.
End Adapter.

Arguments Returned {X A} a w.
Arguments Thrown {X A} w.
Arguments Crashed {X A}.
Arguments returned {X A} o.
Arguments Blob {X} i.
Arguments BlobStream {X} i.
Arguments Name {X} i.
Arguments m_pSource {X} d.
Arguments m_pSourceName {X} d.
Arguments m_pOutputStream {X} d.
Arguments m_pStdOutStream {X} d.
Arguments m_pStdErrStream {X} d.
Arguments m_pOutputStreamName {X} d.
Arguments m_includeLoader {X} d.
Arguments m_searchEntries {X} d.
Arguments m_bDisplayIncludeProcess {X} d.
Arguments m_includedFiles {X} d.
Arguments fs {X} w.
Arguments streams {X} w.
Arguments LastError {X} w.
Arguments errno {X} w.
Arguments LoadSource_calls {X} w.
Arguments set_LastError {X} e w.
Arguments find_included {X} lpFileName files i.
Arguments steps {X} w w'.

(** ** A small instance of the collaborators, for the examples

    Streams are numbered as they are created and hold nothing; a wide
    string is converted to as many question marks, a narrow one to the wide
    string of the same code units, and a narrow path counts as rooted when
    it starts with [./]. *)
Definition plain_externals : Externals := {|
  Store := nat;
  IStream := nat;
  CreateReadOnlyBlobStream := λ _ n, (Some n, S n);
  CreateMemoryStream := λ n, (Some n, S n);
  Stream_Read := λ _ _ n, (Some [], n);
  Stream_Write := λ _ b n, (Some (Z.of_nat (length b)), n);
  Stream_Seek := λ _ off _ n, (Some off, n);
  Stream_Stat := λ _ _, Some 0;
  DxcGetBlobAsUtf8 := λ b, Some b;
  UTF16ToUTF8StringOrThrow := λ s, Some ((λ _, x3f) <$> s);
  UTF8ToUTF16StringOrThrow := λ s, Some (L s);
  IsAbsoluteOrCurDirRelative :=
    λ s, match s with String "." (String "/" _) => true | _ => false end
|}.

(** A handler that has every file, and one that has none. *)
Definition handler_any (content : blob) : IDxcIncludeHandler :=
  λ _ _, mkLoad S_OK (Some content).
Definition handler_none : IDxcIncludeHandler := λ _ _, mkLoad S_OK None.

(** The adapter of the end-to-end scenarios. *)
Definition main_world (pHandler : option IDxcIncludeHandler)
  : option (World plain_externals) :=
  new_DxcArgsFileSystemImpl plain_externals [x41] (L "./main.hlsl") pHandler 0%nat.

(** ** Notions the statements use *)

(** The three rooted forms in words: [.] alone or before a separator, a
    disk designator before a separator, and a double separator. *)
Definition starts_with_current_dir (P : wstring) : Prop :=
  ∃ rest, P = 46%positive :: rest
          ∧ (rest = [] ∨ ∃ c r, rest = c :: r ∧ is_separator (Z.pos c) = true).
Definition starts_with_disk_designator (P : wstring) : Prop :=
  ∃ d c r, P = d :: 58%positive :: c :: r ∧ is_separator (Z.pos c) = true.
Definition starts_with_double_separator (P : wstring) : Prop :=
  ∃ c1 c2 r, P = c1 :: c2 :: r
             ∧ is_separator (Z.pos c1) = true ∧ is_separator (Z.pos c2) = true.
Definition rooted_in_words (P : wstring) : Prop :=
  starts_with_current_dir P ∨ starts_with_disk_designator P
  ∨ starts_with_double_separator P.

(** [D] is a strict prefix of [F] that ends at a separator: the last code
    unit of [D] is one, or the code unit of [F] after the prefix is. *)
Definition separator_at (s : wstring) (i : Z) : Prop :=
  ∃ c, wchar_at s i = Some c ∧ is_separator c = true.
Definition aligned_strict_prefix (D F : wstring) : Prop :=
  D `prefix_of` F ∧ (length D < length F)%nat
  ∧ (separator_at D (Z.of_nat (length D) - 1)
     ∨ separator_at F (Z.of_nat (length D))).

(** A state with nothing in it, to stand where no adapter was constructed. *)
Definition blank_world : World plain_externals :=
  mkWorld plain_externals
    (mkFS plain_externals [] [] 0%nat None None None None None [] false [])
    0%nat 0 0 [].

(** The adapter of the scenario after [./inc/foo.h] has been opened. *)
Definition inc_world : option (World plain_externals) :=
  match main_world (Some (handler_any [x42])) with
  | Some w =>
      match CreateFileW plain_externals 0 (L "./inc/foo.h") 0 0 0 0 w with
      | Returned _ w' => Some w'
      | _ => None
      end
  | None => None
  end.

(** The include handler and the helpers behind it succeed on every path. *)
Definition always_loads (X : Externals) (h : IDxcIncludeHandler) : Prop :=
  ∀ calls p,
    FAILED (load_hr (h calls p)) = false
    ∧ ∃ fileBlob encoded,
        load_blob (h calls p) = Some fileBlob
        ∧ DxcGetBlobAsUtf8 X fileBlob = Some encoded
        ∧ ∀ st, is_Some (CreateReadOnlyBlobStream X encoded st).1.

(** Distinct paths for the scenarios: [./f], the binary digits of [k + 1]
    from the lowest, then [.h]. *)
Fixpoint pos_digits (p : positive) : wstring :=
  match p with
  | xH => L "1"
  | xO q => L "0" ++ pos_digits q
  | xI q => L "1" ++ pos_digits q
  end.
Definition numbered_path (k : nat) : wstring :=
  L "./f" ++ pos_digits (Pos.of_succ_nat k) ++ L ".h".
Definition numbered_paths (n : nat) : list wstring :=
  numbered_path <$> seq 1 n.

(** [w'] comes after [w]: both lists have only been appended to and stay
    within the bound if they were, the handler, the source and its name are
    the same, and the handler has since been called only for paths that
    were not registered in [w]. *)
Definition grows {X : Externals} (w w' : World X) : Prop :=
  m_includedFiles (fs w) `prefix_of` m_includedFiles (fs w')
  ∧ m_searchEntries (fs w) `prefix_of` m_searchEntries (fs w')
  ∧ m_includeLoader (fs w') = m_includeLoader (fs w)
  ∧ m_pSourceName (fs w') = m_pSourceName (fs w)
  ∧ m_pSource (fs w') = m_pSource (fs w)
  ∧ (∃ extra, LoadSource_calls w' = LoadSource_calls w ++ extra
              ∧ ∀ p, p ∈ extra → p ∉ Name <$> m_includedFiles (fs w))
  ∧ ((length (m_includedFiles (fs w)) ≤ MaxIncludedFiles)%nat →
     (length (m_includedFiles (fs w')) ≤ MaxIncludedFiles)%nat)
  ∧ ((length (m_searchEntries (fs w)) ≤ MaxIncludedFiles)%nat →
     (length (m_searchEntries (fs w')) ≤ MaxIncludedFiles)%nat).

(** A call that, when the program goes on after it, leaves a later state. *)
Definition preserves {X : Externals} {A : Type} (m : M X A) : Prop :=
  ∀ w, match m w with
       | Returned _ w' | Thrown w' => grows w w'
       | Crashed => True
       end.

(** The index a dynamic handle carries names an entry of its list. *)
Definition handle_live {X : Externals} (h : HANDLE) (w : World X) : Prop :=
  (GetKind h = HandleKind_val File ∨ GetKind h = HandleKind_val FileDir →
   0 ≤ Offset (Bits_of h) < Z.of_nat (length (m_includedFiles (fs w))))
  ∧ (GetKind h = HandleKind_val SearchDir →
     0 ≤ Offset (Bits_of h) < Z.of_nat (length (m_searchEntries (fs w)))).

(** The values [CreateFileW] can return in state [w]. *)
Definition issued {X : Externals} (h : HANDLE) (w : World X) : Prop :=
  h = INVALID_HANDLE_VALUE ∨ h = OutputHandle
  ∨ (∃ upper (i : nat) l, h = DxcArgsHandle_kind upper FileDir (Z.of_nat i) l
                          ∧ (i < length (m_includedFiles (fs w)))%nat)
  ∨ (∃ upper (i : nat) l, h = DxcArgsHandle_kind upper SearchDir (Z.of_nat i) l
                          ∧ (i < length (m_searchEntries (fs w)))%nat)
  ∨ (∃ upper (i : nat), h = IncludedFileIndexToHandle upper i
                        ∧ (i < length (m_includedFiles (fs w)))%nat).

(** The adapter of the scenario after 256 distinct files were resolved. *)
Definition world_with_257_files : option (World plain_externals) :=
  match main_world (Some (handler_any [x42])) with
  | Some w => (resolve_all plain_externals (numbered_paths 256) w).2
  | None => None
  end.

(** ** Notions the further statements use *)

(** The other two rooted forms exactly as the code tests them: a code unit
    other than [.] before [:\], and two backslashes. *)
Definition starts_with_drive (P : wstring) : Prop :=
  ∃ d r, d ≠ 46%positive ∧ P = d :: 58%positive :: 92%positive :: r.
Definition starts_with_unc (P : wstring) : Prop :=
  ∃ r, P = 92%positive :: 92%positive :: r.

(** [GetStdOutpuHandleStream] *)
Definition GetStdOutpuHandleStream (X : Externals) : M X (option (IStream X)) :=
  GetStreamForHandle X StdOutHandle.

(** The attributes that go with a handle [CreateFileW] returns. *)
Definition attributes_of_handle (h : HANDLE) : Z :=
  if decide (h = INVALID_HANDLE_VALUE) then INVALID_FILE_ATTRIBUTES
  else if IsDirHandle h then FILE_ATTRIBUTE_DIRECTORY
  else FILE_ATTRIBUTE_NORMAL.

(** The entry a search path is stored as. *)
Definition stored_searchEntry (X : Externals) (E : string) (ws : wstring)
  : wstring :=
  if IsAbsoluteOrCurDirRelative X E then ws else L "./" ++ ws.

(** The names in the registry are rooted and pairwise distinct. *)
Definition names_rooted_and_distinct {X : Externals} (w : World X) : Prop :=
  NoDup (Name <$> m_includedFiles (fs w))
  ∧ ∀ n, n ∈ Name <$> m_includedFiles (fs w) →
         IsAbsoluteOrCurDirRelativeW n = true.

(** A call that keeps the property [I] of states, when the program goes on
    after it. *)
Definition keeps {X : Externals} {A : Type} (I : World X → Prop) (m : M X A)
  : Prop :=
  ∀ w, I w → match m w with
             | Returned _ w' | Thrown w' => I w'
             | Crashed => True
             end.

(** The state after the search entries [l] have been stored, in order. *)
Definition push_searchEntries {X : Externals} (l : list wstring) (w : World X)
  : World X :=
  foldl (λ w e, set_fs X (push_searchEntry X e (fs w)) w) w l.

(** A call that returns or stops, never raises, and leaves the adapter, the
    last error and the handler's calls as they were. *)
Definition only_streams_and_errno {X : Externals} {A : Type} (m : M X A)
  : Prop :=
  ∀ w, match m w with
       | Returned _ w' =>
           fs w' = fs w ∧ LastError w' = LastError w
           ∧ LoadSource_calls w' = LoadSource_calls w
       | Thrown _ => False
       | Crashed => True
       end.

(** Externals whose conversion to wide characters refuses the empty string,
    and the adapter of one source over them. *)
Definition strict_externals : Externals := {|
  Store := nat;
  IStream := nat;
  CreateReadOnlyBlobStream := λ _ n, (Some n, S n);
  CreateMemoryStream := λ n, (Some n, S n);
  Stream_Read := λ _ _ n, (Some [], n);
  Stream_Write := λ _ b n, (Some (Z.of_nat (length b)), n);
  Stream_Seek := λ _ off _ n, (Some off, n);
  Stream_Stat := λ _ _, Some 0;
  DxcGetBlobAsUtf8 := λ b, Some b;
  UTF16ToUTF8StringOrThrow := λ s, Some ((λ _, x3f) <$> s);
  UTF8ToUTF16StringOrThrow :=
    λ s, match s with EmptyString => None | _ => Some (L s) end;
  IsAbsoluteOrCurDirRelative :=
    λ s, match s with String "." (String "/" _) => true | _ => false end
|}.

Definition strict_world : World strict_externals :=
  mkWorld strict_externals
    (mkFS strict_externals [x41] (L "./main.hlsl") 0%nat None None None None
          None [] false
          [mkIncludedFile strict_externals [x41] 0%nat (L "./main.hlsl")])
    1%nat 0 0 [].

(** * Properties *)

(** ** Handle codec *)

Section Codec.

Ltac unfold_codec :=
  unfold DxcArgsHandle_special, DxcArgsHandle_index, DxcArgsHandle_kind,
    decode, GetKind, Length, Handle_of, Bits_of, init_Bits, to_unsigned;
  cbn [Offset Length_ Kind].

Ltac euclid := Z.div_mod_to_equations; lia.

(** A handle is the sum of its three fields, each within its width, and of
    what the upper half of its storage held. *)
Lemma handle_fields (upper : Z) (HK : HandleKind) (i l : Z) :
  DxcArgsHandle_kind upper HK i l
  = i mod 256 + (l mod 256) * 256 + HandleKind_val HK * 65536
    + upper mod 4294967296 * 4294967296.
Proof.
  unfold_codec.
  change (2 ^ 32) with 4294967296; change (2 ^ 8) with 256;
    change (2 ^ 4) with 16; change (2 ^ 16) with 65536.
  assert (HandleKind_val HK mod 4294967296 mod 16 = HandleKind_val HK)
    as -> by (destruct HK; reflexivity).
  assert (i mod 4294967296 mod 256 = i mod 256) as -> by euclid.
  assert (l mod 4294967296 mod 256 = l mod 256) as -> by euclid.
  reflexivity.
Qed.

(** The fields alone take 20 bits. *)
Lemma lower_half_range (HK : HandleKind) (i l : Z) :
  0 ≤ DxcArgsHandle_kind 0 HK i l < 2 ^ 20.
Proof.
  rewrite handle_fields. change (2 ^ 20) with 1048576.
  assert (0 ≤ HandleKind_val HK ≤ 3) by (destruct HK; simpl; lia).
  euclid.
Qed.

Lemma handle_range (upper : Z) (HK : HandleKind) (i l : Z) :
  0 ≤ DxcArgsHandle_kind upper HK i l < 2 ^ 64.
Proof.
  rewrite handle_fields. change (2 ^ 64) with 18446744073709551616.
  assert (0 ≤ HandleKind_val HK ≤ 3) by (destruct HK; simpl; lia).
  assert (0 ≤ upper mod 4294967296 < 4294967296) by (apply Z.mod_pos_bound; lia).
  generalize dependent (upper mod 4294967296). intros U HU. euclid.
Qed.

(** The lower half of a handle is the handle of the same fields built over
    zero; the two are the same word exactly when the upper half is zero. *)
Lemma handle_lower_half (upper : Z) (HK : HandleKind) (i l : Z) :
  DxcArgsHandle_kind upper HK i l mod 2 ^ 32 = DxcArgsHandle_kind 0 HK i l
  ∧ (DxcArgsHandle_kind upper HK i l = DxcArgsHandle_kind 0 HK i l
     ↔ upper mod 2 ^ 32 = 0).
Proof.
  pose proof (lower_half_range HK i l) as Hlow. revert Hlow.
  rewrite !handle_fields. change (2 ^ 20) with 1048576.
  change (2 ^ 32) with 4294967296. change (0 mod 4294967296) with 0.
  assert (0 ≤ upper mod 4294967296 < 4294967296) by (apply Z.mod_pos_bound; lia).
  generalize dependent (upper mod 4294967296). intros U HU.
  generalize (i mod 256 + l mod 256 * 256 + HandleKind_val HK * 65536).
  intros F HF. split; [euclid | lia].
Qed.

(** What is read back is the index and the length modulo 256, whatever the
    upper half holds. *)
Lemma decode_handle (upper : Z) (HK : HandleKind) (i l : Z) :
  decode (DxcArgsHandle_kind upper HK i l)
  = (HandleKind_val HK, i mod 256, l mod 256).
Proof.
  unfold decode, GetKind, Length, Bits_of; cbn [Offset Length_ Kind].
  rewrite handle_fields.
  change (2 ^ 8) with 256; change (2 ^ 4) with 16; change (2 ^ 16) with 65536.
  assert (0 ≤ HandleKind_val HK ≤ 3) by (destruct HK; simpl; lia).
  generalize dependent (upper mod 4294967296). intros U.
  f_equal; [f_equal |]; euclid.
Qed.

(** Within the widths of the fields the codec is exact. *)
Lemma decode_handle_in_width (upper : Z) (HK : HandleKind) (i l : Z) :
  0 ≤ i < 256 → 0 ≤ l < 256 →
  decode (DxcArgsHandle_kind upper HK i l) = (HandleKind_val HK, i, l).
Proof.
  intros Hi Hl. rewrite decode_handle.
  by rewrite (Z.mod_small i), (Z.mod_small l).
Qed.

Lemma HandleKind_val_inj (k1 k2 : HandleKind) :
  HandleKind_val k1 = HandleKind_val k2 → k1 = k2.
Proof. by destruct k1, k2. Qed.

Lemma handle_inj_in_width (u1 u2 : Z) (k1 k2 : HandleKind) (i1 l1 i2 l2 : Z) :
  0 ≤ i1 < 256 → 0 ≤ l1 < 256 → 0 ≤ i2 < 256 → 0 ≤ l2 < 256 →
  DxcArgsHandle_kind u1 k1 i1 l1 = DxcArgsHandle_kind u2 k2 i2 l2 →
  k1 = k2 ∧ i1 = i2 ∧ l1 = l2.
Proof.
  intros Hi1 Hl1 Hi2 Hl2 Heq.
  assert (decode (DxcArgsHandle_kind u1 k1 i1 l1)
          = decode (DxcArgsHandle_kind u2 k2 i2 l2)) as Hd by by rewrite Heq.
  rewrite !decode_handle_in_width in Hd by done.
  injection Hd as Hk -> ->. by apply HandleKind_val_inj in Hk as ->.
Qed.

Lemma handle_kind_of (upper : Z) (HK : HandleKind) (i l : Z) :
  GetKind (DxcArgsHandle_kind upper HK i l) = HandleKind_val HK.
Proof.
  pose proof (decode_handle upper HK i l) as H. unfold decode in H. congruence.
Qed.

Lemma handle_not_invalid (upper : Z) (HK : HandleKind) (i l : Z) :
  DxcArgsHandle_kind upper HK i l ≠ INVALID_HANDLE_VALUE.
Proof.
  intros Heq. pose proof (handle_kind_of upper HK i l) as Hk.
  rewrite Heq in Hk. vm_compute in Hk. by destruct HK.
Qed.

(** C1 -- At index 256, below the registry bound of 1000, the handle of a
    file is the handle of the file at index 0: the 8-bit [Offset] field drops
    the high bits of the index, what is decoded is index 0, and two distinct
    triples share one handle.  The same holds for a directory length of 256. *)
Theorem C1_index_256_aliases_index_0 :
  (256 < Z.of_nat MaxIncludedFiles)
  ∧ (∀ upper,
       DxcArgsHandle_kind upper File 256 0 = DxcArgsHandle_kind upper File 0 0)
  ∧ (∀ upper, DxcArgsHandle_index upper 256 = DxcArgsHandle_index upper 0)
  ∧ (∀ upper, decode (DxcArgsHandle_kind upper File 256 0)
              = (HandleKind_val File, 0, 0))
  ∧ (∀ upper, decode (DxcArgsHandle_kind upper File 256 0)
              ≠ (HandleKind_val File, 256, 0))
  ∧ (∀ upper, DxcArgsHandle_kind upper FileDir 0 256
              = DxcArgsHandle_kind upper FileDir 0 0).
Proof.
  split; [reflexivity |].
  split; [intros; by rewrite !handle_fields |].
  split; [intros; apply (handle_fields _ File 256 0) |].
  split; [intros; by rewrite decode_handle |].
  split; [intros; by rewrite decode_handle |].
  intros; by rewrite !handle_fields.
Qed.

(** ** Descriptors *)



(** A descriptor is an [int]: of a word whose lower half is below 2^20 it
    carries the lower half, and the handle it leads back to is that half. *)
Lemma HandleFromFD_open_osfhandle (h flags : Z) :
  0 ≤ h < 2 ^ 64 → h mod 2 ^ 32 < 2 ^ 20 →
  HandleFromFD (open_osfhandle (to_intptr h) flags) = h mod 2 ^ 32.
Proof.
  intros Hh Hlow.
  unfold open_osfhandle, HandleFromFD, DxcArgsHandle_HANDLE.
  change StdOutHandle with 1; change StdErrHandle with 2;
    change STDOUT_FILENO with 1; change STDERR_FILENO with 2.
  assert (to_uintptr (to_intptr h) = h
          ∧ to_int (to_intptr h) = h mod 2 ^ 32
          ∧ to_uintptr (h mod 2 ^ 32) = h mod 2 ^ 32) as (Hu & Hi & Hh').
  { unfold to_intptr, to_uintptr, to_int, ptr_bits.
    change (2 ^ (64 - 1)) with 9223372036854775808 in *;
      change (2 ^ 64) with 18446744073709551616 in *;
      change (2 ^ 31) with 2147483648 in *;
      change (2 ^ 32) with 4294967296 in *;
      change (2 ^ 20) with 1048576 in *.
    repeat split; euclid. }
  rewrite Hu.
  destruct (decide (h = 1)) as [-> | H1]; [reflexivity |].
  destruct (decide (h = 2)) as [-> | H2]; [reflexivity |].
  rewrite (decide_False (P := h = 1)), (decide_False (P := h = 2)) by done.
  rewrite Hi.
  destruct (decide (h mod 2 ^ 32 = 1)) as [E1 | E1]; [by rewrite E1 |].
  destruct (decide (h mod 2 ^ 32 = 2)) as [E2 | E2]; [by rewrite E2 |].
  exact Hh'.
Qed.




End Codec.

(** ** Path normaliser *)

Section Normaliser.

Lemma wchar_at_0 (c : wchar) (P : wstring) : wchar_at (c :: P) 0 = Some (Z.pos c).
Proof.
  unfold wchar_at. rewrite decide_True; [done |]. simpl length. lia.
Qed.

Lemma wchar_at_1_nil (c : wchar) : wchar_at [c] 1 = Some 0.
Proof. reflexivity. Qed.

Lemma wchar_at_1 (c0 c1 : wchar) (P : wstring) :
  wchar_at (c0 :: c1 :: P) 1 = Some (Z.pos c1).
Proof.
  unfold wchar_at. rewrite decide_True; [done |]. simpl length. lia.
Qed.

Lemma wchar_at_2 (c0 c1 c2 : wchar) (P : wstring) :
  wchar_at (c0 :: c1 :: c2 :: P) 2 = Some (Z.pos c2).
Proof.
  unfold wchar_at. rewrite decide_True; [done |]. simpl length. lia.
Qed.

(** A path the code finds rooted has one of the three forms. *)
Lemma rooted_has_a_form (P : wstring) :
  IsAbsoluteOrCurDirRelativeW P = true → rooted_in_words P.
Proof.
  unfold IsAbsoluteOrCurDirRelativeW, rooted_in_words.
  destruct P as [| c0 [| c1 P]]; [done | |].
  - rewrite wchar_at_1_nil. case_decide as H0.
    + intros _. left. exists []. injection H0 as ->. eauto.
    + simpl. case_decide; done.
  - rewrite wchar_at_1. case_decide as H0.
    + intros H. left. exists (c1 :: P). injection H0 as ->. split; [done |].
      right. exists c1, P. split; [done |]. unfold is_separator.
      apply orb_true_iff in H as [H | H].
      * apply orb_true_iff in H as [H | H]; [by apply bool_decide_eq_true in H |].
        rewrite H. apply orb_true_r.
      * rewrite H. done.
    + destruct (bool_decide (Some (Z.pos c1) = Some chr_colon)) eqn:Hc; simpl.
      * apply bool_decide_eq_true in Hc. injection Hc as ->.
        destruct P as [| c2 P]; [simpl; case_decide; done |].
        rewrite wchar_at_2.
        destruct (bool_decide (Some (Z.pos c2) = Some chr_backslash)) eqn:Hb.
        -- intros _. right; left. exists c0, c2, P. split; [done |].
           apply bool_decide_eq_true in Hb. injection Hb as ->. done.
        -- simpl. by destruct (decide (Z.pos c0 = chr_backslash)).
      * destruct (decide (Z.pos c0 = chr_backslash)) as [Hs | Hs]; [| done].
        intros Hu.
        apply bool_decide_eq_true in Hu. injection Hu as Hu.
        right; right. exists c0, c1, P. split; [done |].
        unfold is_separator. by rewrite Hs, Hu.
Qed.

Lemma prefixed_is_rooted (P : wstring) :
  IsAbsoluteOrCurDirRelativeW (L "./" ++ P) = true.
Proof.
  change (L "./" ++ P) with (46%positive :: 47%positive :: P).
  unfold IsAbsoluteOrCurDirRelativeW. rewrite wchar_at_1. done.
Qed.

Lemma MakeAbsoluteOrCurDirRelativeW_rooted (P : wstring) :
  IsAbsoluteOrCurDirRelativeW (MakeAbsoluteOrCurDirRelativeW P) = true.
Proof.
  unfold MakeAbsoluteOrCurDirRelativeW.
  destruct (IsAbsoluteOrCurDirRelativeW P) eqn:H; [done |].
  apply prefixed_is_rooted.
Qed.

Lemma MakeAbsoluteOrCurDirRelativeW_nonempty (P : wstring) :
  MakeAbsoluteOrCurDirRelativeW P ≠ [].
Proof.
  pose proof (MakeAbsoluteOrCurDirRelativeW_rooted P) as H.
  by destruct (MakeAbsoluteOrCurDirRelativeW P).
Qed.

(** C7 -- A path of none of the three rooted forms is not rooted for the
    code; a path that is not rooted is normalised to [./] followed by the
    path, and that result is rooted; normalising is idempotent on every
    path. *)
Theorem C7_normalize_prefixes_and_is_idempotent (P : wstring) :
  (¬ rooted_in_words P → IsAbsoluteOrCurDirRelativeW P = false)
  ∧ (IsAbsoluteOrCurDirRelativeW P = false →
       MakeAbsoluteOrCurDirRelativeW P = L "./" ++ P
       ∧ IsAbsoluteOrCurDirRelativeW (MakeAbsoluteOrCurDirRelativeW P) = true)
  ∧ MakeAbsoluteOrCurDirRelativeW (MakeAbsoluteOrCurDirRelativeW P)
    = MakeAbsoluteOrCurDirRelativeW P.
Proof.
  split; [| split].
  - intros Hn. destruct (IsAbsoluteOrCurDirRelativeW P) eqn:H; [| done].
    by apply rooted_has_a_form in H.
  - intros H. split; [| apply MakeAbsoluteOrCurDirRelativeW_rooted].
    unfold MakeAbsoluteOrCurDirRelativeW. by rewrite H.
  - unfold MakeAbsoluteOrCurDirRelativeW at 1.
    by rewrite MakeAbsoluteOrCurDirRelativeW_rooted.
Qed.

End Normaliser.

(** The path [main.hlsl] is of none of the rooted forms and is normalised
    to [./main.hlsl]. *)
Lemma C7_witness :
  ¬ rooted_in_words (L "main.hlsl")
  ∧ IsAbsoluteOrCurDirRelativeW (L "main.hlsl") = false
  ∧ MakeAbsoluteOrCurDirRelativeW (L "main.hlsl") = L "./main.hlsl".
Proof.
  pose proof (C7_normalize_prefixes_and_is_idempotent (L "main.hlsl"))
    as (H1 & H2 & _).
  assert (¬ rooted_in_words (L "main.hlsl")) as Hn.
  { intros [(r & Hr & _) | [(d & c & r & Hr & _) | (c1 & c2 & r & Hr & Hs & _)]];
      vm_compute in Hr; try discriminate.
    injection Hr as <- <- <-. vm_compute in Hs. discriminate. }
  split; [exact Hn |]. split; [exact (H1 Hn) |].
  exact (proj1 (H2 (H1 Hn))).
Defined.

(** ** Facade: operations without effect *)

Section Facade.
Context (X : Externals).

(** C4 -- Delete, rename, create-directory, both create-link calls,
    set-time and the three memory-map calls set the last error to
    [ERROR_NOT_CAPABLE], return their failure value and change nothing else:
    the adapter, the streams, [errno] and the handler's calls stay as they
    were.  [resize_file] changes nothing at all and returns 0. *)
Theorem C4_mutators_not_capable (w : World X) :
  let failed := set_LastError ERROR_NOT_CAPABLE w in
  (∀ n, DeleteFileW X n w = Returned FALSE failed)
  ∧ (∀ a b c, MoveFileExW X a b c w = Returned FALSE failed)
  ∧ (∀ n, CreateDirectoryW X n w = Returned FALSE failed)
  ∧ (∀ a b, CreateHardLinkW X a b w = Returned FALSE failed)
  ∧ (∀ a b c, CreateSymbolicLinkW X a b c w = Returned FALSE failed)
  ∧ (∀ h a b c, SetFileTime X h a b c w = Returned FALSE failed)
  ∧ (∀ h a b c,
       CreateFileMappingW X h a b c w = Returned INVALID_HANDLE_VALUE failed)
  ∧ (∀ h a b c d, MapViewOfFile X h a b c d w = Returned 0 failed)
  ∧ (∀ a, UnmapViewOfFile X a w = Returned FALSE failed)
  ∧ fs failed = fs w ∧ streams failed = streams w ∧ errno failed = errno w
  ∧ LoadSource_calls failed = LoadSource_calls w
  ∧ LastError failed = ERROR_NOT_CAPABLE
  ∧ (∀ p size, resize_file X p size w = Returned 0 w).
Proof. repeat split. Qed.

Lemma IsKnownHandle_iff (h : HANDLE) :
  IsKnownHandle h = false ↔ h = UnknownHandle.
Proof.
  unfold IsKnownHandle, IsSpecialUnknown. change UnknownHandle with 0.
  rewrite negb_false_iff, bool_decide_eq_true. done.
Qed.

Lemma CloseHandle_known (h : HANDLE) (w : World X) :
  h ≠ 0 → CloseHandle X h w = Returned TRUE w.
Proof.
  intros Hh. unfold CloseHandle, IsKnownHandle, IsSpecialUnknown.
  by rewrite bool_decide_eq_false_2.
Qed.

Lemma handle_nonzero (upper : Z) (HK : HandleKind) (i l : Z) :
  HK ≠ Special → DxcArgsHandle_kind upper HK i l ≠ 0.
Proof.
  intros HHK Hz. pose proof (handle_kind_of upper HK i l) as Hk.
  rewrite Hz in Hk. by destruct HK.
Qed.

(** C8 -- [CloseHandle] returns [TRUE] and changes nothing for every word
    other than 0: for every file, file-directory and search-directory
    handle, whatever its index and whether or not the adapter has issued it,
    for the standard-output, standard-error and output sentinels, and for
    the value a failed open returns; it fails with [ERROR_INVALID_HANDLE],
    changing only the last error, for the word 0 alone, which is the unknown
    handle, the one handle [IsKnownHandle] rejects. *)
Theorem C8_CloseHandle (w : World X) :
  (∀ upper i l,
     CloseHandle X (DxcArgsHandle_kind upper File i l) w = Returned TRUE w)
  ∧ (∀ upper i,
       CloseHandle X (IncludedFileIndexToHandle upper i) w = Returned TRUE w)
  ∧ (∀ upper i l,
       CloseHandle X (DxcArgsHandle_kind upper FileDir i l) w = Returned TRUE w)
  ∧ (∀ upper i l,
       CloseHandle X (DxcArgsHandle_kind upper SearchDir i l) w
       = Returned TRUE w)
  ∧ CloseHandle X StdOutHandle w = Returned TRUE w
  ∧ CloseHandle X StdErrHandle w = Returned TRUE w
  ∧ CloseHandle X OutputHandle w = Returned TRUE w
  ∧ CloseHandle X INVALID_HANDLE_VALUE w = Returned TRUE w
  ∧ CloseHandle X UnknownHandle w
    = Returned FALSE (set_LastError ERROR_INVALID_HANDLE w)
  ∧ fs (set_LastError ERROR_INVALID_HANDLE w) = fs w
  ∧ (∀ h, IsKnownHandle h = false ↔ h = UnknownHandle)
  ∧ (∀ h, h ≠ UnknownHandle → CloseHandle X h w = Returned TRUE w).
Proof.
  repeat split; intros; try reflexivity;
    try (apply CloseHandle_known, handle_nonzero; discriminate).
  - by apply IsKnownHandle_iff.
  - by apply IsKnownHandle_iff.
  - by apply CloseHandle_known.
Qed.

End Facade.

(** [resize_file] on the adapter of the scenario: it returns 0, which an
    [errno_t] reads as success, and the last error is not
    [ERROR_NOT_CAPABLE]. *)
Lemma C4_resize_file_reports_success :
  ∃ w, main_world None = Some w
       ∧ resize_file plain_externals (L "./main.hlsl") 16 w = Returned 0 w
       ∧ LastError w ≠ ERROR_NOT_CAPABLE.
Proof. eexists. split; [reflexivity |]. split; [reflexivity | discriminate]. Qed.

(** ** Wide-string comparisons *)

Section Strings.

Lemma wcscmp_0 (a b : wstring) : 0 = wcscmp a b ↔ a = b.
Proof.
  revert b. induction a as [| c a IH]; intros [| c' b]; simpl; try done.
  case_decide as Hc.
  - subst c'. rewrite IH. split; [by intros -> | by intros [= ->]].
  - split; [case_decide; done | by intros [= ? ?]].
Qed.

Lemma wcscmp_refl (a : wstring) : wcscmp a a = 0.
Proof. symmetry. by apply wcscmp_0. Qed.

(** Over the length of the first string, [wcsncmp] tests for a prefix. *)
Lemma wcsncmp_0_prefix (a b : wstring) :
  0 = wcsncmp a b (length a) ↔ a `prefix_of` b.
Proof.
  revert b. induction a as [| c a IH]; intros b; simpl.
  - split; [intros _; apply prefix_nil | done].
  - destruct b as [| c' b].
    + split; [done | intros H; by apply prefix_nil_not in H].
    + case_decide as Hc.
      * subst c'. rewrite IH. split; [apply prefix_cons | apply prefix_cons_inv_2].
      * split; [case_decide; done |].
        intros H. by apply prefix_cons_inv_1 in H.
Qed.

Lemma wchar_at_last (D : wstring) :
  D ≠ [] → is_Some (wchar_at D (Z.of_nat (length D) - 1)).
Proof.
  intros HD. unfold wchar_at.
  assert (0 < length D)%nat by (destruct D; [done | simpl; lia]).
  rewrite decide_True by lia.
  destruct (D !! Z.to_nat (Z.of_nat (length D) - 1)) as [c |] eqn:Hc;
    [by eexists |].
  apply lookup_ge_None in Hc. lia.
Qed.

Lemma wchar_at_inside (F : wstring) (n : nat) :
  (n < length F)%nat → is_Some (wchar_at F (Z.of_nat n)).
Proof.
  intros Hn. unfold wchar_at. rewrite decide_True by lia.
  rewrite Nat2Z.id. destruct (F !! n) as [c |] eqn:Hc; [by eexists |].
  apply lookup_ge_None in Hc. lia.
Qed.

(** ** Directory emulation *)

Lemma IsDirOf_true (D F : wstring) :
  IsDirOf D (length D) F = Some true → aligned_strict_prefix D F.
Proof.
  unfold IsDirOf, aligned_strict_prefix.
  case_decide as Hlen; [done |]. case_decide as Hcmp; [done |].
  apply wcsncmp_0_prefix in Hcmp.
  destruct (wchar_at D (Z.of_nat (length D) - 1)) as [last |] eqn:Hlast; [| done].
  destruct (is_separator last) eqn:Hsep.
  - intros _. split; [done |]. split; [lia |]. left. by exists last.
  - destruct (wchar_at F (Z.of_nat (length D))) as [c |] eqn:Hc; [| done].
    simpl. intros [= Hs]. split; [done |]. split; [lia |]. right. by exists c.
Qed.

Lemma IsDirOf_defined (D F : wstring) :
  D ≠ [] → is_Some (IsDirOf D (length D) F).
Proof.
  intros HD. unfold IsDirOf.
  case_decide as Hlen; [by eexists |]. case_decide as Hcmp; [by eexists |].
  destruct (wchar_at_last D HD) as [last ->].
  destruct (is_separator last); [by eexists |].
  destruct (wchar_at_inside F (length D)) as [c ->]; [lia | by eexists].
Qed.

Lemma IsDirOf_aligned (D F : wstring) :
  D ≠ [] → aligned_strict_prefix D F → IsDirOf D (length D) F = Some true.
Proof.
  intros HD (Hpre & Hlen & Hsep). unfold IsDirOf.
  rewrite decide_False by lia.
  rewrite decide_False by (intros Hn; apply Hn; by apply wcsncmp_0_prefix).
  destruct (wchar_at_last D HD) as [last Hlast]. rewrite Hlast.
  destruct (is_separator last) eqn:Hs; [done |].
  destruct Hsep as [(c & Hc & Hcs) | (c & Hc & Hcs)].
  - rewrite Hlast in Hc. injection Hc as ->. congruence.
  - rewrite Hc. simpl. by rewrite Hcs.
Qed.

Lemma IsDirOf_empty (F : wstring) : IsDirOf [] 0 F ≠ Some true.
Proof. unfold IsDirOf. by repeat case_decide. Qed.

Lemma first_match_Some (test : wstring → option bool) (names : list wstring)
  (k i : nat) :
  first_match test names k = Some (Some i) →
  ∃ j n, i = (k + j)%nat ∧ names !! j = Some n ∧ test n = Some true
         ∧ ∀ j' n', (j' < j)%nat → names !! j' = Some n' → test n' = Some false.
Proof.
  revert k. induction names as [| n names IH]; intros k; simpl; [done |].
  destruct (test n) as [[|] |] eqn:Ht; [| | done].
  - intros [= <-]. exists 0%nat, n. repeat split; [lia | done | lia].
  - intros H. destruct (IH _ H) as (j & n' & -> & Hj & Hn' & Hbefore).
    exists (S j), n'. repeat split; [lia | done | done |].
    intros [| j'] n'' Hlt; simpl; [by intros [= <-] |].
    apply Hbefore. lia.
Qed.

Lemma first_match_None (test : wstring → option bool) (names : list wstring)
  (k : nat) :
  first_match test names k = Some None → ∀ n, n ∈ names → test n = Some false.
Proof.
  revert k. induction names as [| n names IH]; intros k; simpl.
  - intros _ n Hn. by apply elem_of_nil in Hn.
  - destruct (test n) as [[|] |] eqn:Ht; [done | | done].
    intros H n' [-> | Hn']%elem_of_cons; [done | by eapply IH].
Qed.

Lemma first_match_defined (test : wstring → option bool) (names : list wstring)
  (k : nat) :
  (∀ n, n ∈ names → is_Some (test n)) → is_Some (first_match test names k).
Proof.
  revert k. induction names as [| n names IH]; intros k Hall; simpl; [by eexists |].
  destruct (Hall n) as [[|] ->]; [apply elem_of_cons; by left | by eexists |].
  apply IH. intros n' Hn'. apply Hall, elem_of_cons. by right.
Qed.

Lemma first_match_found (test : wstring → option bool) (names : list wstring)
  (k : nat) (n : wstring) :
  (∀ n, n ∈ names → is_Some (test n)) → n ∈ names → test n = Some true →
  ∃ i, first_match test names k = Some (Some i) ∧ (k ≤ i < k + length names)%nat.
Proof.
  intros Hall Hn Ht.
  destruct (first_match_defined test names k Hall) as [[i |] Hr].
  - exists i. split; [done |].
    destruct (first_match_Some _ _ _ _ Hr) as (j & n' & -> & Hj & _).
    apply lookup_lt_Some in Hj. lia.
  - pose proof (first_match_None _ _ _ Hr n Hn). congruence.
Qed.

End Strings.

Section Directories.
Context (X : Externals).

(** A handle of kind file-directory comes from the first registered file
    the queried path is an aligned strict prefix of. *)
Lemma TryFindDirHandle_file_dir (upper : Z) (f : DxcArgsFileSystemImpl X) (D : wstring)
  (h : HANDLE) :
  TryFindDirHandle X upper f D = Some h → GetKind h = HandleKind_val FileDir →
  ∃ i e, m_includedFiles f !! i = Some e
         ∧ h = DxcArgsHandle_kind upper FileDir (Z.of_nat i) (Z.of_nat (length D))
         ∧ aligned_strict_prefix D (Name e)
         ∧ ∀ j e', (j < i)%nat → m_includedFiles f !! j = Some e' →
                   ¬ aligned_strict_prefix D (Name e').
Proof.
  unfold TryFindDirHandle, wcslen.
  destruct (first_match (IsDirOf D (length D)) _ 0) as [[i |] |] eqn:Hfiles;
    [| | done].
  - intros [= <-] _.
    destruct (first_match_Some _ _ _ _ Hfiles) as (j & n & -> & Hj & Hn & Hbefore).
    apply list_lookup_fmap_Some in Hj as (e & -> & He).
    exists j, e.
    split; [done |]. split; [done |]. split; [by apply IsDirOf_true |].
    intros j' e' Hlt He' Hal.
    assert (D ≠ []) as HD.
    { intros ->. by apply (IsDirOf_empty (Name e)). }
    assert (IsDirOf D (length D) (Name e') = Some false) as Hf.
    { apply (Hbefore j'); [done |]. by rewrite list_lookup_fmap, He'. }
    by rewrite (IsDirOf_aligned D (Name e') HD Hal) in Hf.
  - destruct (first_match (IsDirPrefixOrSame D (length D)) _ 0)
      as [[i |] |]; [| | done]; intros [= <-] Hk.
    + by rewrite handle_kind_of in Hk.
    + vm_compute in Hk. done.
Qed.

Lemma IsDirPrefixOrSame_defined (D F : wstring) :
  D ≠ [] → is_Some (IsDirPrefixOrSame D (length D) F).
Proof.
  intros HD. unfold IsDirPrefixOrSame. case_decide; [by eexists |].
  by apply IsDirOf_defined.
Qed.

(** No read leaves a buffer when the queried path is not empty. *)
Lemma TryFindDirHandle_defined (upper : Z) (f : DxcArgsFileSystemImpl X) (D : wstring) :
  D ≠ [] → is_Some (TryFindDirHandle X upper f D).
Proof.
  intros HD. unfold TryFindDirHandle, wcslen.
  destruct (first_match_defined (IsDirOf D (length D))
              (Name <$> m_includedFiles f) 0) as [[i |] ->];
    [intros; by apply IsDirOf_defined | by eexists |].
  destruct (first_match_defined (IsDirPrefixOrSame D (length D))
              (m_searchEntries f) 0) as [[i |] ->];
    [intros; by apply IsDirPrefixOrSame_defined | by eexists | by eexists].
Qed.

(** [CreateFileW] and [GetFileAttributesW] query a normalised path, which
    is not empty. *)
Lemma TryFindDirHandle_normalised (upper : Z) (f : DxcArgsFileSystemImpl X) (n : wstring) :
  is_Some (TryFindDirHandle X upper f (MakeAbsoluteOrCurDirRelativeW n)).
Proof. apply TryFindDirHandle_defined, MakeAbsoluteOrCurDirRelativeW_nonempty. Qed.

Lemma TryFindDirHandle_registered (upper : Z) (f : DxcArgsFileSystemImpl X)
  (D : wstring) (e : IncludedFile X) :
  D ≠ [] → e ∈ m_includedFiles f → aligned_strict_prefix D (Name e) →
  ∃ i, TryFindDirHandle X upper f D
       = Some (DxcArgsHandle_kind upper FileDir (Z.of_nat i) (Z.of_nat (length D)))
       ∧ (i < length (m_includedFiles f))%nat.
Proof.
  intros HD He Hal. unfold TryFindDirHandle, wcslen.
  destruct (first_match_found (IsDirOf D (length D))
              (Name <$> m_includedFiles f) 0 (Name e)) as (i & -> & Hi).
  - intros; by apply IsDirOf_defined.
  - by apply list_elem_of_fmap_2.
  - by apply IsDirOf_aligned.
  - exists i. split; [done |]. rewrite length_fmap in Hi. lia.
Qed.

End Directories.

Lemma inc_is_dir_of_foo : aligned_strict_prefix (L "./inc") (L "./inc/foo.h").
Proof.
  split; [by exists (L "/foo.h") |]. split; [simpl; lia |].
  right. by exists chr_slash.
Qed.

(** C5 -- A file-directory handle returned for a path [D] names the first
    registered file [F] such that [D] is a strict prefix of [F] aligned on a
    separator; with [./inc/foo.h] registered, [./inc] is answered with a
    file-directory handle, and in the adapter holding [./main.hlsl] and
    [./inc/foo.h] the path [./in] is answered with no match. *)
Theorem C5_directory_match_is_aligned_prefix :
  (∀ X upper (f : DxcArgsFileSystemImpl X) (D : wstring) (h : HANDLE),
     TryFindDirHandle X upper f D = Some h →
     GetKind h = HandleKind_val FileDir →
     ∃ i e, m_includedFiles f !! i = Some e
            ∧ h = DxcArgsHandle_kind upper FileDir (Z.of_nat i)
                    (Z.of_nat (length D))
            ∧ aligned_strict_prefix D (Name e)
            ∧ ∀ j e', (j < i)%nat → m_includedFiles f !! j = Some e' →
                      ¬ aligned_strict_prefix D (Name e'))
  ∧ (∀ X upper (f : DxcArgsFileSystemImpl X) e,
       e ∈ m_includedFiles f → Name e = L "./inc/foo.h" →
       ∃ i, TryFindDirHandle X upper f (L "./inc")
            = Some (DxcArgsHandle_kind upper FileDir (Z.of_nat i) 5))
  ∧ (∃ w, inc_world = Some w
          ∧ Name <$> m_includedFiles (fs w) = [L "./main.hlsl"; L "./inc/foo.h"]
          ∧ (∀ upper, TryFindDirHandle _ upper (fs w) (L "./inc")
                      = Some (DxcArgsHandle_kind upper FileDir 1 5))
          ∧ (∀ upper, TryFindDirHandle _ upper (fs w) (L "./in")
                      = Some INVALID_HANDLE_VALUE)).
Proof.
  split; [| split].
  - intros X upper. apply TryFindDirHandle_file_dir.
  - intros X upper f e He Hn.
    destruct (TryFindDirHandle_registered X upper f (L "./inc") e)
      as (i & Hi & _);
      [done | done | rewrite Hn; apply inc_is_dir_of_foo |].
    by exists i.
  - eexists. split; [reflexivity |]. repeat split; reflexivity.
Qed.

(** In the adapter holding [./main.hlsl] and [./inc/foo.h], the handle
    answered for [./inc] names entry 1, of which [./inc] is an aligned
    prefix. *)
Lemma C5_witness :
  ∃ w i e, inc_world = Some w
    ∧ TryFindDirHandle _ 0 (fs w) (L "./inc")
      = Some (DxcArgsHandle_kind 0 FileDir 1 5)
    ∧ GetKind (DxcArgsHandle_kind 0 FileDir 1 5) = HandleKind_val FileDir
    ∧ m_includedFiles (fs w) !! i = Some e
    ∧ aligned_strict_prefix (L "./inc") (Name e).
Proof.
  destruct C5_directory_match_is_aligned_prefix as (Hgen & _ & w & Hw & _ & Hinc & _).
  assert (GetKind (DxcArgsHandle_kind 0 FileDir 1 5) = HandleKind_val FileDir)
    as Hk by reflexivity.
  destruct (Hgen _ 0 (fs w) (L "./inc") _ (Hinc 0) Hk)
    as (i & e & He & _ & Hal & _).
  exists w, i, e. split; [exact Hw |]. split; [exact (Hinc 0) |].
  split; [exact Hk |]. split; [exact He | exact Hal].
Defined.

(** ** Opening the primary source *)

Section Primary.
Context (X : Externals).

(** C3 -- In an adapter constructed with the source path [./main.hlsl] and
    one byte of content, [CreateFileW] answers both [main.hlsl] and
    [./main.hlsl] with the handle of registry entry 0, the primary source,
    and leaves the state as it was; that handle is not the failure value,
    and the size queried through it is 1. *)
Theorem C3_open_primary_source (b : byte) (pHandler : option IDxcIncludeHandler)
  (st : Store X) (w0 : World X) :
  new_DxcArgsFileSystemImpl X [b] (L "./main.hlsl") pHandler st = Some w0 →
  (∀ upper access share disposition flags,
     CreateFileW X upper (L "main.hlsl") access share disposition flags w0
     = Returned (IncludedFileIndexToHandle upper 0) w0)
  ∧ (∀ upper access share disposition flags,
     CreateFileW X upper (L "./main.hlsl") access share disposition flags w0
     = Returned (IncludedFileIndexToHandle upper 0) w0)
  ∧ (∀ upper, IncludedFileIndexToHandle upper 0 ≠ INVALID_HANDLE_VALUE)
  ∧ (Blob <$> m_includedFiles (fs w0) !! 0%nat) = Some [b]
  ∧ ∀ upper, ∃ info,
      GetFileInformationByHandle X (IncludedFileIndexToHandle upper 0) w0
      = Returned (TRUE, info) w0
      ∧ nFileSizeLow info = 1
      ∧ dwFileAttributes info = FILE_ATTRIBUTE_NORMAL.
Proof.
  unfold new_DxcArgsFileSystemImpl.
  destruct (CreateReadOnlyBlobStream X [b] st) as [[srcStream |] st'];
    [| done].
  intros [= <-]. split; [| split; [| split; [| split]]].
  - reflexivity.
  - reflexivity.
  - intros upper. apply (handle_not_invalid upper File 0 0).
  - reflexivity.
  - intros upper.
    assert (decode (IncludedFileIndexToHandle upper 0)
            = (HandleKind_val File, 0, 0)) as Hd
      by apply (decode_handle upper File 0 0).
    pose proof (f_equal (λ x, x.1.1) Hd) as Hk.
    pose proof (f_equal (λ x, x.1.2) Hd) as Ho.
    cbv beta in Hk, Ho. unfold decode in Hk, Ho. cbn [fst snd] in Hk, Ho.
    unfold GetFileInformationByHandle, nothrow, bind, get, defined, ret,
      HandleToIncludedFile, GetFileIndex, IsFileKind.
    rewrite Hk, Ho. simpl. eexists. split; [reflexivity |]. done.
Qed.

End Primary.

(** The scenario itself: the open of [main.hlsl] is answered with the
    handle of the primary source, not with a failure. *)
Lemma C3_witness :
  ∃ w, main_world None = Some w
       ∧ CreateFileW plain_externals 0 (L "main.hlsl") 0 0 0 0 w
         = Returned (IncludedFileIndexToHandle 0 0) w
       ∧ CreateFileW plain_externals 0 (L "./main.hlsl") 0 0 0 0 w
         = Returned (IncludedFileIndexToHandle 0 0) w.
Proof.
  eexists. split; [reflexivity |].
  destruct (C3_open_primary_source plain_externals x41 None 0%nat _ eq_refl)
    as (H1 & H2 & _).
  split; [apply H1 | apply H2].
Defined.

(** [CreateFileW] on [main.hlsl] returns a handle that is not
    [INVALID_HANDLE_VALUE] and sets no error. *)
Lemma C3_open_unrooted_name_succeeds :
  ∃ w h, main_world None = Some w
         ∧ CreateFileW plain_externals 0 (L "main.hlsl") 0 0 0 0 w = Returned h w
         ∧ h ≠ INVALID_HANDLE_VALUE
         ∧ IsFileKind h = true ∧ GetFileIndex h = Some 0.
Proof.
  eexists. eexists. split; [reflexivity |]. split; [reflexivity |].
  split; [| split; reflexivity]. vm_compute. discriminate.
Qed.

(** ** Included-file registry *)

Section Registry.
Context (X : Externals).

Implicit Types (w : World X) (p : wstring) (files : list (IncludedFile X)).

Lemma find_included_Some p files (k i : nat) :
  find_included p files k = Some i →
  ∃ j e, i = (k + j)%nat ∧ files !! j = Some e ∧ Name e = p
         ∧ ∀ j' e', (j' < j)%nat → files !! j' = Some e' → Name e' ≠ p.
Proof.
  revert k. induction files as [| e files IH]; intros k; simpl; [done |].
  case_decide as Hc.
  - intros [= <-]. apply wcscmp_0 in Hc. exists 0%nat, e.
    repeat split; [lia | done | lia].
  - intros H. destruct (IH _ H) as (j & e' & -> & Hj & He' & Hbefore).
    exists (S j), e'. repeat split; [lia | done | done |].
    intros [| j'] e'' Hlt; simpl.
    + intros [= <-] Heq. apply Hc. by apply wcscmp_0.
    + apply Hbefore. lia.
Qed.

Lemma find_included_None p files (k : nat) :
  find_included p files k = None ↔ p ∉ Name <$> files.
Proof.
  revert k. induction files as [| e files IH]; intros k; simpl.
  - split; [intros _; apply not_elem_of_nil | done].
  - rewrite not_elem_of_cons. case_decide as Hc.
    + apply wcscmp_0 in Hc. split; [done | intros [Hne _]; done].
    + rewrite IH. split; [| by intros [_ ?]].
      intros Hn. split; [| done]. intros ->. apply Hc. by apply wcscmp_0.
Qed.

(** Appending entries does not move the first entry of a name. *)
Lemma find_included_app p files more (k i : nat) :
  find_included p files k = Some i → find_included p (files ++ more) k = Some i.
Proof.
  revert k. induction files as [| e files IH]; intros k; simpl; [done |].
  case_decide; [done | apply IH].
Qed.

Lemma find_included_prefix_None p files files' (k : nat) :
  files `prefix_of` files' → find_included p files' k = None →
  find_included p files k = None.
Proof.
  intros [more ->]. rewrite !find_included_None, fmap_app, not_elem_of_app.
  by intros [? _].
Qed.

Lemma find_included_registered p files (k : nat) :
  p ∈ Name <$> files →
  ∃ i, find_included p files k = Some i ∧ (k ≤ i < k + length files)%nat.
Proof.
  intros Hp. destruct (find_included p files k) as [i |] eqn:Hf.
  - exists i. split; [done |].
    destruct (find_included_Some _ _ _ _ Hf) as (j & e & -> & Hj & _).
    apply lookup_lt_Some in Hj. lia.
  - by apply find_included_None in Hf.
Qed.

(** A registered path is answered from the registry: nothing changes and
    the handler is not called. *)
Lemma TryFindOrOpen_hit p w (i : nat) :
  find_included p (m_includedFiles (fs w)) 0 = Some i →
  TryFindOrOpen X p w = Returned (ERROR_SUCCESS, Some i) w.
Proof. intros H. unfold TryFindOrOpen, bind, get. simpl. by rewrite H. Qed.

(** At capacity an unseen path is refused before the handler is called. *)
Lemma TryFindOrOpen_full p w (h : IDxcIncludeHandler) :
  find_included p (m_includedFiles (fs w)) 0 = None →
  m_includeLoader (fs w) = Some h →
  length (m_includedFiles (fs w)) = MaxIncludedFiles →
  TryFindOrOpen X p w = Returned (ERROR_OUT_OF_STRUCTURES, None) w.
Proof.
  intros Hf Hl Hn. unfold TryFindOrOpen, bind, get. simpl.
  rewrite Hf, Hl. by rewrite decide_True.
Qed.

(** Below capacity, with tracing off and a handler that has the file, an
    unseen path is appended and answered with its index. *)
Lemma TryFindOrOpen_loads p w (h : IDxcIncludeHandler) :
  find_included p (m_includedFiles (fs w)) 0 = None →
  m_includeLoader (fs w) = Some h →
  length (m_includedFiles (fs w)) ≠ MaxIncludedFiles →
  m_bDisplayIncludeProcess (fs w) = false →
  always_loads X h →
  ∃ w', TryFindOrOpen X p w
        = Returned (ERROR_SUCCESS, Some (length (m_includedFiles (fs w)))) w'
        ∧ (∃ e, m_includedFiles (fs w') = m_includedFiles (fs w) ++ [e]
                ∧ Name e = p)
        ∧ m_includeLoader (fs w') = Some h
        ∧ m_bDisplayIncludeProcess (fs w') = false
        ∧ LoadSource_calls w' = LoadSource_calls w ++ [p].
Proof.
  intros Hf Hl Hn Hd Hok. unfold TryFindOrOpen, bind, get, modify, ret. simpl.
  rewrite Hf, Hl. rewrite decide_False by done.
  destruct (Hok (LoadSource_calls w) p) as (Hhr & b & enc & Hb & Henc & Hs).
  rewrite Hhr, Hb, Henc. destruct (Hs (streams w)) as [s Hcreated].
  destruct (CreateReadOnlyBlobStream X enc (streams w)) as [created st].
  simpl in Hcreated. subst created. simpl. rewrite Hd. simpl.
  eexists. split; [do 3 f_equal; lia |]. simpl.
  split; [by eexists |]. done.
Qed.

(** Resolving distinct unseen paths with a handler that has every file:
    each is appended in turn until the registry holds [MaxIncludedFiles]
    entries, and every later one is refused. *)
Lemma resolve_all_unseen (h : IDxcIncludeHandler) (ps : list wstring) w :
  always_loads X h →
  m_includeLoader (fs w) = Some h →
  m_bDisplayIncludeProcess (fs w) = false →
  (length (m_includedFiles (fs w)) ≤ MaxIncludedFiles)%nat →
  NoDup ps →
  (∀ p, p ∈ ps → p ∉ Name <$> m_includedFiles (fs w)) →
  ∀ (k : nat), (k < length ps)%nat →
    (resolve_all X ps w).1 !! k
    = Some (if decide (length (m_includedFiles (fs w)) + k < MaxIncludedFiles)%nat
            then (ERROR_SUCCESS, Some (length (m_includedFiles (fs w)) + k)%nat)
            else (ERROR_OUT_OF_STRUCTURES, None)).
Proof.
  intros Hok. revert w.
  induction ps as [| p ps IH]; intros w Hl Hd Hn Hnd Hnew k Hk;
    [simpl in Hk; lia |].
  pose proof (NoDup_cons_1_1 _ _ Hnd) as Hp. apply NoDup_cons_1_2 in Hnd.
  assert (find_included p (m_includedFiles (fs w)) 0 = None) as Hf.
  { apply find_included_None, Hnew, elem_of_cons. by left. }
  simpl. destruct (decide (length (m_includedFiles (fs w)) = MaxIncludedFiles))
    as [Hfull | Hroom].
  - rewrite (TryFindOrOpen_full p w h Hf Hl Hfull).
    destruct (resolve_all X ps w) as [rs w''] eqn:Hrest. simpl.
    destruct k as [| k]; simpl.
    + rewrite decide_False by lia. done.
    + pose proof (IH w Hl Hd Hn Hnd) as Hk'. rewrite Hrest in Hk'. simpl in Hk'.
      rewrite Hk'; [| intros; apply Hnew, elem_of_cons; by right
                    | simpl in Hk; lia].
      rewrite !decide_False by lia. done.
  - destruct (TryFindOrOpen_loads p w h Hf Hl Hroom Hd Hok)
      as (w' & -> & (e & Hfiles & He) & Hl' & Hd' & _).
    destruct (resolve_all X ps w') as [rs w''] eqn:Hrest. simpl.
    destruct k as [| k]; simpl.
    + rewrite decide_True by lia. by rewrite Nat.add_0_r.
    + pose proof (IH w' Hl' Hd') as Hk'. rewrite Hrest in Hk'. simpl in Hk'.
      rewrite Hk'.
      * rewrite Hfiles, length_app. simpl.
        replace (length (m_includedFiles (fs w)) + 1 + k)%nat
          with (length (m_includedFiles (fs w)) + S k)%nat by lia.
        done.
      * rewrite Hfiles, length_app. simpl. lia.
      * done.
      * intros p' Hp'. rewrite Hfiles, fmap_app, not_elem_of_app. simpl.
        split; [apply Hnew, elem_of_cons; by right |].
        rewrite He. intros ->%list_elem_of_singleton. done.
      * simpl in Hk. lia.
Qed.

End Registry.

(** C2 -- From a freshly constructed adapter whose handler has every file,
    resolving distinct unseen paths succeeds for the first 999 of them, the
    [k]-th being given index [k] after the primary source at index 0, and
    is refused with [ERROR_OUT_OF_STRUCTURES] from the 1000th on: the
    registry then holds [MaxIncludedFiles] entries, the primary source
    among them. *)
Theorem C2_capacity_reached_at_1000th_unseen_path (X : Externals)
  (pSource : blob) (pSourceName : wstring) (h : IDxcIncludeHandler)
  (st : Store X) (w0 : World X) (ps : list wstring) :
  new_DxcArgsFileSystemImpl X pSource pSourceName (Some h) st = Some w0 →
  always_loads X h →
  NoDup ps →
  MakeAbsoluteOrCurDirRelativeW pSourceName ∉ ps →
  ∀ k : nat, (k < length ps)%nat →
    (resolve_all X ps w0).1 !! k
    = Some (if decide (k < 999)%nat then (ERROR_SUCCESS, Some (S k))
            else (ERROR_OUT_OF_STRUCTURES, None)).
Proof.
  unfold new_DxcArgsFileSystemImpl.
  destruct (CreateReadOnlyBlobStream X pSource st) as [[srcStream |] st'];
    [| done].
  intros [= <-] Hok Hnd Hsrc k Hk.
  rewrite (resolve_all_unseen X h ps _ Hok); try done.
  - simpl. unfold MaxIncludedFiles.
    destruct (decide (k < 999)%nat); [rewrite decide_True by lia
                                     | rewrite decide_False by lia]; done.
  - simpl. unfold MaxIncludedFiles. lia.
  - simpl. intros p Hp ->%list_elem_of_singleton. done.
Qed.

Lemma handler_any_always_loads (content : blob) :
  always_loads plain_externals (handler_any content).
Proof.
  intros calls p. split; [reflexivity |].
  exists content, content. repeat split. intros st. by eexists.
Qed.

Lemma pos_digits_inj (p q : positive) : pos_digits p = pos_digits q → p = q.
Proof.
  revert q. induction p as [p IH | p IH |]; intros [q | q |]; simpl;
    try done; try (intros [= H]; f_equal; by apply IH).
  - intros [= H]. by destruct p.
  - intros [= H]. by destruct q.
Qed.

Lemma numbered_path_inj (j k : nat) : numbered_path j = numbered_path k → j = k.
Proof.
  unfold numbered_path. intros H.
  apply app_inv_head, app_inv_tail, pos_digits_inj in H.
  by apply SuccNat2Pos.inj.
Qed.

Lemma numbered_paths_distinct (n : nat) :
  NoDup (numbered_paths n) ∧ (L "./main.hlsl" ∉ numbered_paths n)
  ∧ length (numbered_paths n) = n.
Proof.
  unfold numbered_paths. split; [| split].
  - apply NoDup_fmap_2; [intros j k; apply numbered_path_inj | apply NoDup_seq].
  - intros (k & Hk & _)%list_elem_of_fmap. discriminate Hk.
  - by rewrite length_fmap, length_seq.
Qed.

(** On the adapter of the scenario with 1000 distinct unseen paths: the
    999th is registered at index 999 and the 1000th is refused. *)
Lemma C2_witness :
  ∃ w, main_world (Some (handler_any [x42])) = Some w
       ∧ (resolve_all plain_externals (numbered_paths 1000) w).1 !! 998%nat
         = Some (ERROR_SUCCESS, Some 999%nat)
       ∧ (resolve_all plain_externals (numbered_paths 1000) w).1 !! 999%nat
         = Some (ERROR_OUT_OF_STRUCTURES, None).
Proof.
  eexists. split; [reflexivity |].
  pose proof (C2_capacity_reached_at_1000th_unseen_path plain_externals
                [x41] (L "./main.hlsl") (handler_any [x42]) 0%nat _
                (numbered_paths 1000) eq_refl
                (handler_any_always_loads [x42])
                (proj1 (numbered_paths_distinct 1000))
                (proj1 (proj2 (numbered_paths_distinct 1000)))) as H.
  split; [apply (H 998%nat) | apply (H 999%nat)];
    rewrite (proj2 (proj2 (numbered_paths_distinct 1000))); lia.
Defined.

(** The 1000th distinct unseen path is already refused. *)
Lemma C2_1000th_unseen_path_is_refused :
  ∃ w, main_world (Some (handler_any [x42])) = Some w
       ∧ NoDup (numbered_paths 1000)
       ∧ (L "./main.hlsl" ∉ numbered_paths 1000)
       ∧ length (numbered_paths 1000) = 1000%nat
       ∧ (resolve_all plain_externals (numbered_paths 1000) w).1 !! 999%nat
         = Some (ERROR_OUT_OF_STRUCTURES, None)
       ∧ (ERROR_OUT_OF_STRUCTURES, @None nat) ≠ (ERROR_SUCCESS, Some 1000%nat).
Proof.
  eexists. split; [reflexivity |].
  destruct (numbered_paths_distinct 1000) as (Hnd & Hmain & Hlen).
  split; [exact Hnd |]. split; [exact Hmain |]. split; [exact Hlen |].
  split; [| done].
  rewrite (resolve_all_unseen plain_externals (handler_any [x42])
             (numbered_paths 1000) _ (handler_any_always_loads [x42]));
    try done.
  - simpl. unfold MaxIncludedFiles. lia.
  - simpl. intros p Hp ->%list_elem_of_singleton. done.
  - rewrite Hlen. lia.
Qed.

(** ** How the state evolves *)

Section Evolution.
Context (X : Externals).

Implicit Types (w : World X) (p : wstring).

Lemma grows_refl w : grows w w.
Proof.
  repeat split; try done. exists []. split; [by rewrite app_nil_r |].
  intros p Hp. by apply elem_of_nil in Hp.
Qed.

Lemma grows_trans w1 w2 w3 : grows w1 w2 → grows w2 w3 → grows w1 w3.
Proof.
  intros (Hf1 & Hs1 & Hl1 & Hn1 & Hb1 & (x1 & Hc1 & Hx1) & Hbf1 & Hbs1)
         (Hf2 & Hs2 & Hl2 & Hn2 & Hb2 & (x2 & Hc2 & Hx2) & Hbf2 & Hbs2).
  split; [by etrans |]. split; [by etrans |].
  split; [congruence |]. split; [congruence |]. split; [congruence |].
  split; [| split; auto].
  exists (x1 ++ x2). split; [by rewrite Hc2, Hc1, app_assoc |].
  intros p [Hp | Hp]%elem_of_app; [by apply Hx1 |].
  destruct Hf1 as [more Hmore]. intros Hin. apply (Hx2 p Hp).
  rewrite Hmore, fmap_app, elem_of_app. by left.
Qed.

(** A state differing in neither list, nor in the handler, the source or
    the calls, comes after. *)
Lemma kept_grows w w' :
  m_includedFiles (fs w') = m_includedFiles (fs w) →
  m_searchEntries (fs w') = m_searchEntries (fs w) →
  m_includeLoader (fs w') = m_includeLoader (fs w) →
  m_pSourceName (fs w') = m_pSourceName (fs w) →
  m_pSource (fs w') = m_pSource (fs w) →
  LoadSource_calls w' = LoadSource_calls w →
  grows w w'.
Proof.
  intros Hf Hs Hl Hn Hb Hc. unfold grows. rewrite Hf, Hs, Hl, Hn, Hb, Hc.
  apply grows_refl.
Qed.

Lemma preserves_ret {A} (a : A) : preserves (ret X a).
Proof. intros w. apply grows_refl. Qed.

Lemma preserves_get : preserves (get X).
Proof. intros w. apply grows_refl. Qed.

Lemma preserves_throw {A} : preserves (@throw X A).
Proof. intros w. apply grows_refl. Qed.

Lemma preserves_crash {A} : preserves (@crash X A).
Proof. by intros w. Qed.

Lemma preserves_defined {A} (o : option A) : preserves (defined X o).
Proof. destruct o; [apply preserves_ret | apply preserves_crash]. Qed.

Lemma preserves_modify (g : World X → World X) :
  (∀ w, grows w (g w)) → preserves (modify X g).
Proof. intros Hg w. apply Hg. Qed.

Lemma preserves_bind {A B} (m : M X A) (k : A → M X B) :
  preserves m → (∀ a, preserves (k a)) → preserves (bind X m k).
Proof.
  intros Hm Hk w. unfold bind. specialize (Hm w).
  destruct (m w) as [a w' | w' |]; [| done | done].
  specialize (Hk a w'). destruct (k a w'); [| | done]; by eapply grows_trans.
Qed.

Lemma preserves_nothrow {A} (m : M X A) : preserves m → preserves (nothrow X m).
Proof. intros Hm w. unfold nothrow. specialize (Hm w). by destruct (m w). Qed.

Lemma preserves_void {A} (m : M X A) : preserves m → preserves (void X m).
Proof. intros Hm. apply preserves_bind; [done | intros; apply preserves_ret]. Qed.

Lemma find_included_snoc p (files : list (IncludedFile X)) e (k : nat) :
  find_included p files k = None → Name e = p →
  find_included p (files ++ [e]) k = Some (k + length files)%nat.
Proof.
  revert k. induction files as [| e' files IH]; intros k; simpl.
  - intros _ <-. rewrite decide_True by by apply wcscmp_0.
    by rewrite Nat.add_0_r.
  - case_decide; [done |]. intros Hf He. rewrite (IH _ Hf He). f_equal. lia.
Qed.

(** What [TryFindOrOpen] does to the state, and what its success means. *)
Lemma TryFindOrOpen_spec p w :
  match TryFindOrOpen X p w with
  | Returned r w' =>
      grows w w'
      ∧ (r.1 = ERROR_SUCCESS →
         ∃ i, r.2 = Some i
              ∧ find_included p (m_includedFiles (fs w')) 0 = Some i)
  | Thrown w' => grows w w'
  | Crashed => True
  end.
Proof.
  assert (∀ w', m_includedFiles (fs w') = m_includedFiles (fs w) →
                m_searchEntries (fs w') = m_searchEntries (fs w) →
                m_includeLoader (fs w') = m_includeLoader (fs w) →
                m_pSourceName (fs w') = m_pSourceName (fs w) →
                m_pSource (fs w') = m_pSource (fs w) →
                LoadSource_calls w' = LoadSource_calls w ++ [p] →
                find_included p (m_includedFiles (fs w)) 0 = None →
                grows w w') as Hcalled.
  { intros w' Hf Hs Hl Hn Hb Hc Hnone. unfold grows.
    rewrite Hf, Hs, Hl, Hn, Hb, Hc. repeat split; try done.
    exists [p]. split; [done |].
    intros p' ->%list_elem_of_singleton. by apply find_included_None in Hnone. }
  assert (∀ w' e, m_includedFiles (fs w') = m_includedFiles (fs w) ++ [e] →
                m_searchEntries (fs w') = m_searchEntries (fs w) →
                m_includeLoader (fs w') = m_includeLoader (fs w) →
                m_pSourceName (fs w') = m_pSourceName (fs w) →
                m_pSource (fs w') = m_pSource (fs w) →
                LoadSource_calls w' = LoadSource_calls w ++ [p] →
                find_included p (m_includedFiles (fs w)) 0 = None →
                length (m_includedFiles (fs w)) ≠ MaxIncludedFiles →
                grows w w') as Hadded.
  { intros w' e Hf Hs Hl Hn Hb Hc Hnone Hroom. unfold grows.
    rewrite Hf, Hs, Hl, Hn, Hb, Hc, length_app. simpl.
    repeat split; try done; [by apply prefix_app_r | | lia].
    exists [p]. split; [done |].
    intros p' ->%list_elem_of_singleton. by apply find_included_None in Hnone. }
  unfold TryFindOrOpen, bind, get, modify, ret, throw, crash. simpl.
  destruct (find_included p (m_includedFiles (fs w)) 0) as [i |] eqn:Hfind.
  { split; [apply grows_refl |]. intros _. by exists i. }
  destruct (m_includeLoader (fs w)) as [loader |] eqn:Hloader.
  2: { split; [apply grows_refl | done]. }
  case_decide as Hroom. { split; [apply grows_refl | done]. }
  destruct (FAILED _). { split; [by apply Hcalled | done]. }
  destruct (load_blob _) as [fileBlob |]. 2: { split; [by apply Hcalled | done]. }
  destruct (DxcGetBlobAsUtf8 X fileBlob) as [enc |].
  2: { split; [by apply Hcalled | done]. }
  destruct (CreateReadOnlyBlobStream X enc (streams w)) as [[s |] st]; simpl.
  2: { split; [by apply Hcalled | done]. }
  assert (find_included p (m_includedFiles (fs w) ++ [mkIncludedFile X enc s p]) 0
          = Some (length (m_includedFiles (fs w)) + 1 - 1)%nat) as Hnow.
  { rewrite (find_included_snoc p _ (mkIncludedFile X enc s p) 0 Hfind eq_refl).
    f_equal. lia. }
  destruct (m_bDisplayIncludeProcess (fs w)); simpl.
  - destruct (UTF16ToUTF8StringOrThrow X p) as [fileName |]; simpl;
      [| by eapply Hadded].
    destruct (m_pStdErrStream (fs w)) as [err |]; simpl; [| done].
    destruct (Stream_Write X err _ st) as [[n |] st']; simpl.
    + split; [by eapply Hadded |]. intros _. by eexists.
    + by eapply Hadded.
  - split; [by eapply Hadded |]. intros _. by eexists.
Qed.

Lemma TryFindOrOpen_preserves p : preserves (TryFindOrOpen X p).
Proof.
  intros w. pose proof (TryFindOrOpen_spec p w) as H.
  destruct (TryFindOrOpen X p w); [by destruct H | done | done].
Qed.

End Evolution.

Section Calls.
Context (X : Externals).

Implicit Types (w : World X) (p : wstring).

Ltac kept := intros ?; apply kept_grows; reflexivity.

Ltac preserves_step :=
  lazymatch goal with
  | |- preserves (bind X _ _) => apply preserves_bind; [| intros ?]
  | |- preserves (ret X _) => apply preserves_ret
  | |- preserves (get X) => apply preserves_get
  | |- preserves (throw X) => apply preserves_throw
  | |- preserves (crash X) => apply preserves_crash
  | |- preserves (defined X _) => apply preserves_defined
  | |- preserves (nothrow X _) => apply preserves_nothrow
  | |- preserves (void X _) => apply preserves_void
  | |- preserves (modify X _) => apply preserves_modify; kept
  | |- preserves (SetLastError X _) => apply preserves_modify; kept
  | |- preserves (set_errno_ X _) => apply preserves_modify; kept
  | |- preserves (TryFindOrOpen X _) => apply TryFindOrOpen_preserves
  | |- preserves (if ?b then _ else _) => destruct b
  | |- preserves (match ?x with _ => _ end) => destruct x
  end.

(** The loop of [SetupForCompilerInstance] appends at most one entry per
    path given and touches nothing else. *)
Lemma add_searchEntries_spec (entries : list string) w :
  match add_searchEntries X entries w with
  | Returned _ w' | Thrown w' =>
      m_includedFiles (fs w') = m_includedFiles (fs w)
      ∧ m_includeLoader (fs w') = m_includeLoader (fs w)
      ∧ m_pSourceName (fs w') = m_pSourceName (fs w)
      ∧ m_pSource (fs w') = m_pSource (fs w)
      ∧ LoadSource_calls w' = LoadSource_calls w
      ∧ ∃ added, m_searchEntries (fs w') = m_searchEntries (fs w) ++ added
                 ∧ (length added ≤ length entries)%nat
  | Crashed => True
  end.
Proof.
  revert w. induction entries as [| E entries IH]; intros w; simpl.
  - repeat split. exists []. split; [by rewrite app_nil_r | done].
  - destruct (UTF8ToUTF16StringOrThrow X E) as [ws |]; simpl.
    + unfold bind, modify at 1.
      match goal with
      | |- context [add_searchEntries X entries ?w1] =>
          specialize (IH w1); destruct (add_searchEntries X entries w1)
      end; [| | done].
      all: destruct IH as (Hf & Hl & Hn & Hb & Hc & added & Hs & Hlen).
      all: simpl in *; repeat split; try done.
      all: eexists (_ :: added); rewrite Hs, <- app_assoc;
        (split; [reflexivity | simpl; lia]).
    + unfold throw. repeat split. exists []. split; [by rewrite app_nil_r |].
      simpl. lia.
Qed.

Lemma SetupForCompilerInstance_preserves (entries : list string) :
  preserves (SetupForCompilerInstance X entries).
Proof.
  intros w. unfold SetupForCompilerInstance, bind, get. simpl.
  case_decide as Hempty; [| done].
  case_decide as Hmany; [apply grows_refl |].
  pose proof (add_searchEntries_spec entries w) as H.
  destruct (add_searchEntries X entries w); [| | done].
  all: destruct H as (Hf & Hl & Hn & Hb & Hc & added & Hs & Hlen).
  all: unfold grows; rewrite Hf, Hl, Hn, Hb, Hc, Hs.
  all: repeat split; try done; [by apply prefix_app_r | |].
  all: try (exists []; split; [by rewrite app_nil_r |];
            intros p Hp; by apply elem_of_nil in Hp).
  all: intros _; rewrite length_app, Hempty; simpl; lia.
Qed.

(** Every call leaves a later state. *)
Lemma run_preserves (o : Op X) : preserves (run X o).
Proof.
  destruct o; simpl;
    try apply SetupForCompilerInstance_preserves;
    unfold EnableDisplayIncludeProcess, CreateStdStreams, RegisterOutputStream,
      CreateFileW, GetFileAttributesW, GetFileInformationByHandle, GetFileType,
      CloseHandle, FindNextFileW, FindFirstFileW, SetFileTime, CreateHardLinkW,
      MoveFileExW, DeleteFileW, RemoveDirectoryW, CreateDirectoryW,
      GetCurrentDirectoryW, GetMainModuleFileNameW, GetTempPathW,
      CreateSymbolicLinkW, ReadFile, CreateFileMappingW, MapViewOfFile,
      UnmapViewOfFile, close, lseek, setmode, resize_file, Read, Write,
      GetStreamForFD, GetStreamForHandle;
    repeat preserves_step.
Qed.

Lemma after_grows (o : Op X) w w' : after X o w = Some w' → grows w w'.
Proof.
  unfold after. pose proof (run_preserves o w) as H.
  destruct (run X o w); intros [= <-]; done.
Qed.

Lemma steps_grows w w' : steps w w' → grows w w'.
Proof.
  induction 1 as [| w w' w'' o _ IH Hafter]; [apply grows_refl |].
  eapply grows_trans; [exact IH | by eapply after_grows].
Qed.

Lemma steps_trans w1 w2 w3 : steps w1 w2 → steps w2 w3 → steps w1 w3.
Proof.
  intros H12 H23. induction H23 as [| w2 w w' o _ IH Hafter]; [done |].
  eapply steps_step; [by apply IH | done].
Qed.

End Calls.

Section Handles.
Context (X : Externals).

Implicit Types (w : World X) (p : wstring).

Lemma TryFindDirHandle_cases (upper : Z) (f : DxcArgsFileSystemImpl X) (D : wstring)
  (h : HANDLE) :
  TryFindDirHandle X upper f D = Some h →
  h = INVALID_HANDLE_VALUE
  ∨ (∃ (i : nat) l, h = DxcArgsHandle_kind upper FileDir (Z.of_nat i) l
                    ∧ (i < length (m_includedFiles f))%nat)
  ∨ (∃ (i : nat) l, h = DxcArgsHandle_kind upper SearchDir (Z.of_nat i) l
                    ∧ (i < length (m_searchEntries f))%nat).
Proof.
  unfold TryFindDirHandle.
  destruct (first_match _ (Name <$> _) 0) as [[i |] |] eqn:Hfiles; [| | done].
  - intros [= <-]. right; left. exists i, (Z.of_nat (wcslen D)). split; [done |].
    destruct (first_match_Some _ _ _ _ Hfiles) as (j & n & -> & Hj & _).
    apply lookup_lt_Some in Hj. rewrite length_fmap in Hj. lia.
  - destruct (first_match _ (m_searchEntries f) 0) as [[i |] |] eqn:Hsearch;
      [| | done]; intros [= <-]; [| by left].
    right; right. exists i, (Z.of_nat (wcslen D)). split; [done |].
    destruct (first_match_Some _ _ _ _ Hsearch) as (j & n & -> & Hj & _).
    apply lookup_lt_Some in Hj. lia.
Qed.

(** What [CreateFileW] returns is the failure value, the output sentinel,
    or a handle built from an index into the list it names. *)
Lemma CreateFileW_returns (upper : Z) (n : wstring) (a b c d : Z) w (h : HANDLE) w1 :
  CreateFileW X upper n a b c d w = Returned h w1 → grows w w1 ∧ issued h w1.
Proof.
  intros Hret. split.
  { pose proof (run_preserves X (op_CreateFileW X upper n a b c d) w) as H.
    simpl in H. unfold void, bind in H. rewrite Hret in H. exact H. }
  revert Hret. unfold CreateFileW, nothrow, bind, get, defined, ret. simpl.
  destruct (match m_pOutputStreamName (fs w) with
            | Some out => _ | None => false end).
  { intros [= <- <-]. right; by left. }
  destruct (TryFindDirHandle X upper (fs w) (MakeAbsoluteOrCurDirRelativeW n))
    as [dirHandle |] eqn:Hdir; [| done]. simpl.
  case_decide as Hvalid.
  { intros [= <- <-].
    destruct (TryFindDirHandle_cases _ _ _ _ Hdir)
      as [? | [(i & l & ? & ?) | (i & l & ? & ?)]];
      [done | right; right; left | right; right; right; left];
      by exists upper, i, l. }
  pose proof (TryFindOrOpen_spec X (MakeAbsoluteOrCurDirRelativeW n) w) as Hspec.
  destruct (TryFindOrOpen X (MakeAbsoluteOrCurDirRelativeW n) w)
    as [[findError includedIndex] w' | |]; [| done | done].
  destruct Hspec as [_ Hok]. simpl in Hok. case_decide as Herr.
  - destruct (Hok Herr) as (i & -> & Hi). simpl. intros [= <- <-].
    do 4 right. exists upper, i. split; [done |].
    destruct (find_included_Some X _ _ _ _ Hi) as (j & e & -> & Hj & _).
    apply lookup_lt_Some in Hj. lia.
  - unfold SetLastError, modify. intros [= <- <-]. by left.
Qed.

Lemma issued_live (h : HANDLE) w : issued h w → handle_live h w.
Proof.
  assert (∀ upper HK (i : nat) l,
            Offset (Bits_of (DxcArgsHandle_kind upper HK (Z.of_nat i) l))
            = Z.of_nat i mod 256) as Hoff.
  { intros upper HK i l. pose proof (decode_handle upper HK (Z.of_nat i) l) as Hd.
    unfold decode in Hd. congruence. }
  assert (∀ i : nat, 0 ≤ Z.of_nat i mod 256 ≤ Z.of_nat i) as Hmod.
  { intros i. Z.div_mod_to_equations. lia. }
  unfold handle_live.
  intros [-> | [-> | [(upper & i & l & -> & Hi)
                      | [(upper & i & l & -> & Hi) | (upper & i & -> & Hi)]]]].
  - split; [intros [Hk | Hk] | intros Hk]; vm_compute in Hk; done.
  - split; [intros [Hk | Hk] | intros Hk]; vm_compute in Hk; done.
  - rewrite handle_kind_of, Hoff. split; [| done].
    intros _. specialize (Hmod i). lia.
  - rewrite handle_kind_of, Hoff. split; [by intros [? | ?] |].
    intros _. specialize (Hmod i). lia.
  - unfold IncludedFileIndexToHandle, DxcArgsHandle_index.
    change (Handle_of upper (init_Bits (Z.of_nat i) 0 (HandleKind_val File)))
      with (DxcArgsHandle_kind upper File (Z.of_nat i) 0).
    rewrite handle_kind_of, Hoff. split; [| done].
    intros _. specialize (Hmod i). lia.
Qed.

Lemma handle_live_grows (h : HANDLE) w w' :
  handle_live h w → grows w w' → handle_live h w'.
Proof.
  intros [Hf Hs] (Hpf & Hps & _).
  apply prefix_length in Hpf. apply prefix_length in Hps.
  split; intros Hk; [specialize (Hf Hk) | specialize (Hs Hk)]; lia.
Qed.

(** C9 -- In every state an adapter reaches after its construction, the
    registry and the search-path list hold at most [MaxIncludedFiles]
    entries; entry 0 of the registry is the primary source the constructor
    installed; in every later state both lists extend the present ones; and
    the index carried by a handle [CreateFileW] returns names an entry of
    its list, then and in every later state. *)
Theorem C9_registry_invariants (pSource : blob) (pSourceName : wstring)
  (pHandler : option IDxcIncludeHandler) (st : Store X) (w0 w : World X) :
  new_DxcArgsFileSystemImpl X pSource pSourceName pHandler st = Some w0 →
  steps w0 w →
  (length (m_includedFiles (fs w)) ≤ MaxIncludedFiles)%nat
  ∧ (length (m_searchEntries (fs w)) ≤ MaxIncludedFiles)%nat
  ∧ (∃ e, m_includedFiles (fs w0) = [e]
          ∧ m_includedFiles (fs w) !! 0%nat = Some e
          ∧ Name e = MakeAbsoluteOrCurDirRelativeW pSourceName
          ∧ Blob e = pSource)
  ∧ (∀ w', steps w w' →
       m_includedFiles (fs w) `prefix_of` m_includedFiles (fs w')
       ∧ m_searchEntries (fs w) `prefix_of` m_searchEntries (fs w'))
  ∧ (∀ upper n a b c d h w1,
       CreateFileW X upper n a b c d w = Returned h w1 →
       ∀ w', steps w1 w' → handle_live h w').
Proof.
  intros Hnew Hsteps. pose proof (steps_grows X _ _ Hsteps) as Hg.
  unfold new_DxcArgsFileSystemImpl in Hnew.
  destruct (CreateReadOnlyBlobStream X pSource st) as [[srcStream |] st'];
    [| done].
  injection Hnew as <-.
  destruct Hg as (Hpf & Hps & _ & _ & _ & _ & Hbf & Hbs). simpl in *.
  split; [apply Hbf; unfold MaxIncludedFiles; lia |].
  split; [apply Hbs; unfold MaxIncludedFiles; lia |].
  split.
  { eexists. split; [reflexivity |]. split; [| done].
    eapply prefix_lookup_Some; [| exact Hpf]. reflexivity. }
  split.
  { intros w' Hw'. by destruct (steps_grows X _ _ Hw') as (? & ? & _). }
  intros upper n a b c d h w1 Hopen w' Hw'.
  destruct (CreateFileW_returns _ _ _ _ _ _ _ _ _ Hopen) as [_ Hissued].
  eapply handle_live_grows; [by apply issued_live | by apply steps_grows].
Qed.

(** C6 -- A path already in the registry is resolved to the index of its
    first entry with the state, and so the handler's calls, unchanged; a
    path once resolved is resolved to the same index in every later state;
    and in no later state has the handler been called again for a path that
    is in the registry. *)
Theorem C6_registered_path_is_cached :
  (∀ w p, p ∈ Name <$> m_includedFiles (fs w) →
     ∃ i e, TryFindOrOpen X p w = Returned (ERROR_SUCCESS, Some i) w
            ∧ m_includedFiles (fs w) !! i = Some e ∧ Name e = p
            ∧ ∀ j e', (j < i)%nat → m_includedFiles (fs w) !! j = Some e' →
                      Name e' ≠ p)
  ∧ (∀ w p i w1 w',
       TryFindOrOpen X p w = Returned (ERROR_SUCCESS, Some i) w1 →
       steps w1 w' →
       TryFindOrOpen X p w' = Returned (ERROR_SUCCESS, Some i) w')
  ∧ (∀ w p w', p ∈ Name <$> m_includedFiles (fs w) → steps w w' →
       ∃ extra, LoadSource_calls w' = LoadSource_calls w ++ extra ∧ p ∉ extra).
Proof.
  split; [| split].
  - intros w p Hp.
    destruct (find_included_registered X p _ 0 Hp) as (i & Hi & _).
    destruct (find_included_Some X _ _ _ _ Hi) as (j & e & -> & Hj & He & Hb).
    exists j, e. split; [by apply TryFindOrOpen_hit |]. done.
  - intros w p i w1 w' Hfirst Hsteps.
    pose proof (TryFindOrOpen_spec X p w) as Hspec. rewrite Hfirst in Hspec.
    destruct Hspec as [_ Hok]. destruct (Hok eq_refl) as (i' & [= <-] & Hi).
    destruct (steps_grows X _ _ Hsteps) as ([more Hmore] & _).
    apply TryFindOrOpen_hit. rewrite Hmore. by apply find_included_app.
  - intros w p w' Hp Hsteps.
    destruct (steps_grows X _ _ Hsteps) as (_ & _ & _ & _ & _ & Hcalls & _).
    destruct Hcalls as (extra & Hc & Hx). exists extra. split; [done |].
    intros Hin. by apply (Hx p Hin).
Qed.

End Handles.

(** ** The scenarios *)

(** Closing the handle of the primary source succeeds. *)
Lemma C8_witness :
  ∃ w, main_world None = Some w
       ∧ IncludedFileIndexToHandle 0 0 ≠ UnknownHandle
       ∧ CloseHandle plain_externals (IncludedFileIndexToHandle 0 0) w
         = Returned TRUE w.
Proof.
  eexists. split; [reflexivity |].
  assert (IncludedFileIndexToHandle 0 0 ≠ UnknownHandle) as Hne
    by (vm_compute; discriminate).
  split; [exact Hne |].
  destruct (C8_CloseHandle plain_externals
              (default blank_world (main_world None)))
    as (_ & _ & _ & _ & _ & _ & _ & _ & _ & _ & _ & Hclose).
  exact (Hclose _ Hne).
Defined.

(** A handle the adapter has not issued is closed with success: on the
    adapter of the scenario, which holds one file and has returned no handle
    yet, the file handle of index 7 is none of the values an open can
    return, its index names no entry, and [CloseHandle] returns [TRUE] for
    it and changes nothing. *)
Lemma C8_handle_never_issued_is_closed :
  ∃ w, main_world None = Some w
    ∧ length (m_includedFiles (fs w)) = 1%nat
    ∧ ¬ issued (IncludedFileIndexToHandle 0 7) w
    ∧ ¬ handle_live (IncludedFileIndexToHandle 0 7) w
    ∧ HandleToIncludedFile plain_externals (fs w) (IncludedFileIndexToHandle 0 7)
      = None
    ∧ CloseHandle plain_externals (IncludedFileIndexToHandle 0 7) w
      = Returned TRUE w.
Proof.
  exists (default blank_world (main_world None)).
  assert (¬ handle_live (IncludedFileIndexToHandle 0 7)
              (default blank_world (main_world None))) as Hdead.
  { intros [Hfile _].
    assert (GetKind (IncludedFileIndexToHandle 0 7) = HandleKind_val File)
      as Hk by reflexivity.
    specialize (Hfile (or_introl Hk)). vm_compute in Hfile.
    destruct Hfile as [_ Hlt]. discriminate Hlt. }
  split; [reflexivity |]. split; [reflexivity |].
  split; [intros Hi; by apply Hdead, issued_live |].
  split; [exact Hdead |]. split; reflexivity.
Qed.


(** After [./inc/foo.h] was opened, resolving it again answers index 1 and
    leaves the handler's single call as it is. *)
Lemma C6_witness :
  ∃ w i, inc_world = Some w
         ∧ (L "./inc/foo.h" ∈ Name <$> m_includedFiles (fs w))
         ∧ TryFindOrOpen plain_externals (L "./inc/foo.h") w
           = Returned (ERROR_SUCCESS, Some i) w
         ∧ LoadSource_calls w = [L "./inc/foo.h"].
Proof.
  eexists. 
  assert (L "./inc/foo.h"
          ∈ Name <$> m_includedFiles
                       (fs (default blank_world inc_world)))
    as Hin by (apply (bool_decide_unpack _); vm_compute; exact I).
  destruct (proj1 (C6_registered_path_is_cached plain_externals) _ _ Hin)
    as (i & e & Hhit & _).
  exists i. split; [reflexivity |]. split; [exact Hin |].
  split; [exact Hhit | reflexivity].
Defined.

(** A handler that does not have [./missing.h] is asked for it on each of
    two resolves, and on each of two opens. *)
Lemma C6_missing_path_is_asked_twice :
  ∃ w, main_world (Some handler_none) = Some w
    ∧ (resolve_all plain_externals [L "./missing.h"; L "./missing.h"] w).1
      = [(ERROR_NOT_FOUND, None); (ERROR_NOT_FOUND, None)]
    ∧ (LoadSource_calls
         <$> (resolve_all plain_externals [L "./missing.h"; L "./missing.h"] w).2)
      = Some [L "./missing.h"; L "./missing.h"]
    ∧ (LoadSource_calls
         <$> run_all plain_externals
               [op_CreateFileW plain_externals 0 (L "./missing.h") 0 0 0 0;
                op_CreateFileW plain_externals 0 (L "./missing.h") 0 0 0 0] w)
      = Some [L "./missing.h"; L "./missing.h"].
Proof.
  eexists. split; [reflexivity |]. repeat split; by vm_compute.
Qed.

(** One open after construction: the registry holds two entries, within
    the bound, and entry 0 is the primary source. *)
Lemma C9_witness :
  ∃ w0 w, main_world (Some (handler_any [x42])) = Some w0
    ∧ steps w0 w
    ∧ length (m_includedFiles (fs w)) = 2%nat
    ∧ (length (m_includedFiles (fs w)) ≤ MaxIncludedFiles)%nat
    ∧ (Name <$> m_includedFiles (fs w) !! 0%nat) = Some (L "./main.hlsl").
Proof.
  eexists. eexists. split; [reflexivity |].
  assert (steps
            (default blank_world (main_world (Some (handler_any [x42]))))
            (default blank_world inc_world))
    as Hsteps.
  { eapply steps_step
      with (o := op_CreateFileW plain_externals 0 (L "./inc/foo.h") 0 0 0 0);
      [apply steps_refl | reflexivity]. }
  split; [exact Hsteps |].
  destruct (C9_registry_invariants plain_externals [x41] (L "./main.hlsl")
              (Some (handler_any [x42])) 0%nat _ _ eq_refl Hsteps)
    as (Hbound & _ & _).
  split; [reflexivity |]. split; [exact Hbound | reflexivity].
Defined.

(** * Further properties *)

(** ** Handle codec and descriptors *)

(** X1 -- Reading a handle back gives its kind, and its index and length
    modulo 256; for an index and a length below 256 it gives them back
    exactly, and two such triples with the same handle are the same. *)
Theorem X1_codec_exact_within_field_widths
  (u1 u2 : Z) (k1 k2 : HandleKind) (i1 l1 i2 l2 : Z) :
  decode (DxcArgsHandle_kind u1 k1 i1 l1)
  = (HandleKind_val k1, i1 mod 256, l1 mod 256)
  ∧ (0 ≤ i1 < 256 → 0 ≤ l1 < 256 →
     decode (DxcArgsHandle_kind u1 k1 i1 l1) = (HandleKind_val k1, i1, l1))
  ∧ (0 ≤ i1 < 256 → 0 ≤ l1 < 256 → 0 ≤ i2 < 256 → 0 ≤ l2 < 256 →
     DxcArgsHandle_kind u1 k1 i1 l1 = DxcArgsHandle_kind u2 k2 i2 l2 →
     k1 = k2 ∧ i1 = i2 ∧ l1 = l2).
Proof.
  split; [apply decode_handle |].
  split; [apply decode_handle_in_width | apply handle_inj_in_width].
Qed.

Lemma X1_witness :
  decode (DxcArgsHandle_kind 9 FileDir 7 5) = (HandleKind_val FileDir, 7, 5)
  ∧ (DxcArgsHandle_kind 9 FileDir 7 5 = DxcArgsHandle_kind 9 FileDir 7 5 →
     FileDir = FileDir ∧ 7 = 7 ∧ 5 = 5).
Proof.
  destruct (X1_codec_exact_within_field_widths 9 9 FileDir FileDir 7 5 7 5)
    as (_ & Hdec & Hinj).
  split; [apply Hdec; lia |]. apply Hinj; lia.
Defined.

(** X2 -- On the handles the constructors build, the predicates tell the
    kinds apart: a file handle is of file kind and is neither a directory
    nor a standard handle; a file-directory or search-directory handle is a
    directory handle only; a sentinel is of neither kind, is a standard
    handle exactly when it is standard-output or standard-error, and is the
    unknown handle exactly when it is [Unknown]; no file or directory handle
    is the unknown handle. *)
Theorem X2_predicates_tell_kinds_apart (upper : Z) (i l : Z) (V : SpecialValue) :
  (IsFileKind (DxcArgsHandle_kind upper File i l) = true
   ∧ IsDirHandle (DxcArgsHandle_kind upper File i l) = false
   ∧ IsStdHandle (DxcArgsHandle_kind upper File i l) = false
   ∧ IsSpecialUnknown (DxcArgsHandle_kind upper File i l) = false)
  ∧ (IsFileKind (DxcArgsHandle_kind upper FileDir i l) = false
     ∧ IsDirHandle (DxcArgsHandle_kind upper FileDir i l) = true
     ∧ IsStdHandle (DxcArgsHandle_kind upper FileDir i l) = false
     ∧ IsSpecialUnknown (DxcArgsHandle_kind upper FileDir i l) = false)
  ∧ (IsFileKind (DxcArgsHandle_kind upper SearchDir i l) = false
     ∧ IsDirHandle (DxcArgsHandle_kind upper SearchDir i l) = true
     ∧ IsStdHandle (DxcArgsHandle_kind upper SearchDir i l) = false
     ∧ IsSpecialUnknown (DxcArgsHandle_kind upper SearchDir i l) = false)
  ∧ (IsFileKind (DxcArgsHandle_special V) = false
     ∧ IsDirHandle (DxcArgsHandle_special V) = false
     ∧ IsStdHandle (DxcArgsHandle_special V)
       = match V with StdOut | StdErr => true | _ => false end
     ∧ IsSpecialUnknown (DxcArgsHandle_special V)
       = match V with Unknown => true | _ => false end).
Proof.
  assert (∀ HK, HK ≠ Special →
            IsSpecialUnknown (DxcArgsHandle_kind upper HK i l) = false) as Hnz.
  { intros HK HHK. apply bool_decide_eq_false_2. by apply handle_nonzero. }
  unfold IsFileKind, IsDirHandle, IsStdHandle.
  rewrite !handle_kind_of.
  split; [| split; [| split]].
  - repeat split; [apply Hnz; discriminate].
  - repeat split; [apply Hnz; discriminate].
  - repeat split; [apply Hnz; discriminate].
  - by destruct V.
Qed.

(** X4 -- For every descriptor in the range of [int], [get_osfhandle]
    followed by [open_osfhandle] gives the descriptor back. *)
Theorem X4_descriptor_round_trip (fd flags : Z) :
  - 2 ^ 31 ≤ fd < 2 ^ 31 →
  open_osfhandle (get_osfhandle fd) flags = fd.
Proof.
  intros Hfd. unfold open_osfhandle, get_osfhandle, HandleFromFD,
    DxcArgsHandle_HANDLE.
  change StdOutHandle with 1; change StdErrHandle with 2;
    change STDOUT_FILENO with 1; change STDERR_FILENO with 2.
  assert (∀ x, - 2 ^ 31 ≤ x < 2 ^ 31 →
               to_uintptr (to_intptr (to_uintptr x)) = to_uintptr x
               ∧ to_int (to_intptr (to_uintptr x)) = x
               ∧ (to_uintptr x = 1 ↔ x = 1) ∧ (to_uintptr x = 2 ↔ x = 2))
    as Hconv.
  { intros x. unfold to_intptr, to_uintptr, to_int, ptr_bits.
    change (2 ^ (64 - 1)) with 9223372036854775808;
      change (2 ^ 64) with 18446744073709551616;
      change (2 ^ 31) with 2147483648; change (2 ^ 32) with 4294967296.
    intros Hx. repeat split; try intros ?; Z.div_mod_to_equations; lia. }
  destruct (decide (fd = 1)) as [-> | H1]; [reflexivity |].
  destruct (decide (fd = 2)) as [-> | H2]; [reflexivity |].
  destruct (Hconv fd Hfd) as (Hu & Hi & Hone & Htwo). rewrite Hu.
  rewrite decide_False by (by rewrite Hone). by rewrite decide_False by (by rewrite Htwo).
Qed.

Lemma X4_witness :
  - 2 ^ 31 ≤ -1 < 2 ^ 31
  ∧ open_osfhandle (get_osfhandle (-1)) 0 = -1
  ∧ to_uintptr (get_osfhandle (-1)) = INVALID_HANDLE_VALUE.
Proof.
  assert (- 2 ^ 31 ≤ -1 < 2 ^ 31) as H by (simpl; lia).
  split; [exact H |]. split; [exact (X4_descriptor_round_trip (-1) 0 H) |].
  reflexivity.
Defined.

(** ** Path normaliser *)

Lemma current_dir_is_rooted (P : wstring) :
  starts_with_current_dir P → IsAbsoluteOrCurDirRelativeW P = true.
Proof.
  intros (rest & -> & [-> | (c & r & -> & Hsep)]); [reflexivity |].
  unfold IsAbsoluteOrCurDirRelativeW. rewrite wchar_at_1.
  rewrite decide_True by done.
  unfold is_separator in Hsep. apply orb_true_iff in Hsep as [H | H].
  - rewrite H. apply orb_true_r.
  - rewrite H. by rewrite orb_true_r.
Qed.

Lemma drive_is_rooted (P : wstring) :
  starts_with_drive P → IsAbsoluteOrCurDirRelativeW P = true.
Proof.
  intros (d & r & Hd & ->).
  unfold IsAbsoluteOrCurDirRelativeW. rewrite wchar_at_1, wchar_at_2.
  rewrite decide_False; [done |]. intros [= ->]. done.
Qed.

Lemma unc_is_rooted (P : wstring) :
  starts_with_unc P → IsAbsoluteOrCurDirRelativeW P = true.
Proof.
  intros (r & ->). unfold IsAbsoluteOrCurDirRelativeW. by rewrite wchar_at_1.
Qed.

Lemma rooted_has_an_exact_form (P : wstring) :
  IsAbsoluteOrCurDirRelativeW P = true →
  starts_with_current_dir P ∨ starts_with_drive P ∨ starts_with_unc P.
Proof.
  destruct P as [| c0 rest]; [done |]. unfold IsAbsoluteOrCurDirRelativeW.
  destruct (decide (Z.pos c0 = chr_dot)) as [H0 | H0].
  - intros H. left. injection H0 as ->. exists rest. split; [done |].
    destruct rest as [| c1 r]; [by left |]. right. exists c1, r.
    split; [done |]. rewrite wchar_at_1 in H. unfold is_separator.
    apply orb_true_iff in H as [H | H]; [| by rewrite H].
    apply orb_true_iff in H as [H | H]; [by apply bool_decide_eq_true in H |].
    rewrite H. apply orb_true_r.
  - assert (c0 ≠ 46%positive) as Hd by (intros ->; by apply H0).
    intros H. right. destruct rest as [| c1 [| c2 r]].
    + rewrite wchar_at_1_nil in H. simpl in H.
      by destruct (decide (Z.pos c0 = chr_backslash)).
    + rewrite wchar_at_1 in H.
      change (wchar_at [c0; c1] 2) with (Some 0) in H.
      rewrite andb_false_r in H.
      destruct (decide (Z.pos c0 = chr_backslash)) as [Hs | Hs]; [| done].
      apply bool_decide_eq_true in H. injection Hs as ->. injection H as ->.
      right. by exists [].
    + rewrite wchar_at_1, wchar_at_2 in H.
      destruct (bool_decide (Some (Z.pos c1) = Some chr_colon)) eqn:Hc;
        [destruct (bool_decide (Some (Z.pos c2) = Some chr_backslash)) eqn:Hb |].
      * apply bool_decide_eq_true in Hc, Hb. injection Hc as ->.
        injection Hb as ->. left. by exists c0, r.
      * simpl in H.
        destruct (decide (Z.pos c0 = chr_backslash)) as [Hs | Hs]; [| done].
        apply bool_decide_eq_true in H. apply bool_decide_eq_true in Hc.
        rewrite Hc in H. discriminate H.
      * simpl in H.
        destruct (decide (Z.pos c0 = chr_backslash)) as [Hs | Hs]; [| done].
        apply bool_decide_eq_true in H. injection Hs as ->. injection H as ->.
        right. by exists (c2 :: r).
Qed.

(** X3 -- A path is rooted exactly when it is [.] alone or [.] before a
    separator, or has a code unit other than [.] before [:\], or starts
    with two backslashes.  So the empty path, a drive before a forward
    slash, two forward slashes and a parent path are not rooted. *)
Theorem X3_rooted_exactly (P : wstring) :
  (IsAbsoluteOrCurDirRelativeW P = true
   ↔ starts_with_current_dir P ∨ starts_with_drive P ∨ starts_with_unc P)
  ∧ IsAbsoluteOrCurDirRelativeW [] = false
  ∧ IsAbsoluteOrCurDirRelativeW (L "c:/" ++ P) = false
  ∧ IsAbsoluteOrCurDirRelativeW (L "//" ++ P) = false
  ∧ IsAbsoluteOrCurDirRelativeW (L ".." ++ P) = false.
Proof.
  split.
  { split; [apply rooted_has_an_exact_form |].
    intros [H | [H | H]];
      [by apply current_dir_is_rooted | by apply drive_is_rooted
       | by apply unc_is_rooted]. }
  assert (∀ Q, ¬ (starts_with_current_dir Q ∨ starts_with_drive Q
                  ∨ starts_with_unc Q) →
               IsAbsoluteOrCurDirRelativeW Q = false) as Hnot.
  { intros Q HQ. destruct (IsAbsoluteOrCurDirRelativeW Q) eqn:H; [| done].
    by apply rooted_has_an_exact_form in H. }
  split; [done |]. repeat split; apply Hnot.
  - intros [(r & [= <-] & [? | (c & r' & [= <- <-] & Hs)]) |
            [(d & r & _ & [= <- ?]) | (r & [= ?])]]; done.
  - intros [(r & [= ?] & _) | [(d & r & _ & [= ? ?]) | (r & [= ?])]].
  - intros [(r & [= <-] & [? | (c & r' & [= <- <-] & Hs)]) |
            [(d & r & Hd & [= <- ?]) | (r & [= ?])]]; done.
Qed.

Lemma X3_witness :
  starts_with_drive (L "c:\x") ∧ IsAbsoluteOrCurDirRelativeW (L "c:\x") = true.
Proof.
  assert (starts_with_drive (L "c:\x")) as H.
  { exists 99%positive, (L "x"). by split. }
  split; [exact H |].
  apply (proj1 (X3_rooted_exactly (L "c:\x"))). right. by left.
Defined.

(** ** Directory emulation over the search paths *)

Section SearchDirectories.
Context (X : Externals).

Lemma IsDirOf_false (D F : wstring) :
  IsDirOf D (length D) F = Some false → ¬ aligned_strict_prefix D F.
Proof.
  intros H Hal. destruct (decide (D = [])) as [-> | HD].
  - destruct Hal as (_ & Hlen & _). unfold IsDirOf in H. simpl in *.
    rewrite decide_False in H by lia. done.
  - by rewrite (IsDirOf_aligned D F HD Hal) in H.
Qed.

Lemma IsDirPrefixOrSame_true (D s : wstring) :
  IsDirPrefixOrSame D (length D) s = Some true →
  s = D ∨ aligned_strict_prefix D s.
Proof.
  unfold IsDirPrefixOrSame. case_decide as Hc.
  - intros _. left. symmetry. by apply wcscmp_0.
  - intros H. right. by apply IsDirOf_true.
Qed.

Lemma IsDirPrefixOrSame_false (D s : wstring) :
  IsDirPrefixOrSame D (length D) s = Some false →
  s ≠ D ∧ ¬ aligned_strict_prefix D s.
Proof.
  unfold IsDirPrefixOrSame. case_decide as Hc; [done |].
  intros H. split; [| by apply IsDirOf_false].
  intros ->. apply Hc. by apply wcscmp_0.
Qed.

Lemma IsDirPrefixOrSame_match (D s : wstring) :
  D ≠ [] → s = D ∨ aligned_strict_prefix D s →
  IsDirPrefixOrSame D (length D) s = Some true.
Proof.
  intros HD Hm. unfold IsDirPrefixOrSame. case_decide as Hc; [done |].
  destruct Hm as [-> | Hal]; [| by apply IsDirOf_aligned].
  exfalso. apply Hc. by apply wcscmp_0.
Qed.

Lemma no_file_match (f : DxcArgsFileSystemImpl X) (D : wstring) :
  first_match (IsDirOf D (length D)) (Name <$> m_includedFiles f) 0 = Some None →
  ∀ e, e ∈ m_includedFiles f → ¬ aligned_strict_prefix D (Name e).
Proof.
  intros Hnone e He. apply IsDirOf_false.
  apply (first_match_None _ _ _ Hnone). by apply list_elem_of_fmap_2.
Qed.

(** What a search-directory handle stands for. *)
Lemma TryFindDirHandle_search_dir (upper : Z) (f : DxcArgsFileSystemImpl X) (D : wstring)
  (h : HANDLE) :
  TryFindDirHandle X upper f D = Some h →
  GetKind h = HandleKind_val SearchDir →
  (∀ e, e ∈ m_includedFiles f → ¬ aligned_strict_prefix D (Name e))
  ∧ ∃ (i : nat) s,
      m_searchEntries f !! i = Some s
      ∧ h = DxcArgsHandle_kind upper SearchDir (Z.of_nat i) (Z.of_nat (length D))
      ∧ (s = D ∨ aligned_strict_prefix D s)
      ∧ ∀ (j : nat) s', (j < i)%nat → m_searchEntries f !! j = Some s' →
                        s' ≠ D ∧ ¬ aligned_strict_prefix D s'.
Proof.
  unfold TryFindDirHandle, wcslen.
  destruct (first_match (IsDirOf D (length D)) _ 0) as [[i |] |] eqn:Hfiles;
    [| | done].
  { intros [= <-] Hk. by rewrite handle_kind_of in Hk. }
  destruct (first_match (IsDirPrefixOrSame D (length D)) _ 0)
    as [[i |] |] eqn:Hsearch; [| | done]; intros [= <-] Hk;
    [| by vm_compute in Hk].
  split; [by apply no_file_match |].
  destruct (first_match_Some _ _ _ _ Hsearch) as (j & s & -> & Hj & Hs & Hb).
  exists j, s. split; [done |]. split; [done |].
  split; [by apply IsDirPrefixOrSame_true |].
  intros j' s' Hlt Hj'. apply IsDirPrefixOrSame_false. by eapply Hb.
Qed.

(** X5 -- A search-directory handle is returned only when the path is an
    aligned prefix of no registered file, and it names the first search
    entry that equals the path or that the path is an aligned strict prefix
    of; the failure value is returned only when no file and no search entry
    matches; and a path that is not empty and matches a file or a search
    entry is answered with a directory handle. *)
Theorem X5_search_dir_match (upper : Z) (f : DxcArgsFileSystemImpl X) (D : wstring) :
  (∀ h, TryFindDirHandle X upper f D = Some h →
        GetKind h = HandleKind_val SearchDir →
        (∀ e, e ∈ m_includedFiles f → ¬ aligned_strict_prefix D (Name e))
        ∧ ∃ (i : nat) s,
            m_searchEntries f !! i = Some s
            ∧ h = DxcArgsHandle_kind upper SearchDir (Z.of_nat i) (Z.of_nat (length D))
            ∧ (s = D ∨ aligned_strict_prefix D s)
            ∧ ∀ (j : nat) s', (j < i)%nat → m_searchEntries f !! j = Some s' →
                              s' ≠ D ∧ ¬ aligned_strict_prefix D s')
  ∧ (TryFindDirHandle X upper f D = Some INVALID_HANDLE_VALUE →
     (∀ e, e ∈ m_includedFiles f → ¬ aligned_strict_prefix D (Name e))
     ∧ ∀ s, s ∈ m_searchEntries f → s ≠ D ∧ ¬ aligned_strict_prefix D s)
  ∧ (D ≠ [] →
     (∃ e, e ∈ m_includedFiles f ∧ aligned_strict_prefix D (Name e))
     ∨ (∃ s, s ∈ m_searchEntries f ∧ (s = D ∨ aligned_strict_prefix D s)) →
     ∃ h, TryFindDirHandle X upper f D = Some h ∧ IsDirHandle h = true).
Proof.
  split; [| split].
  - intros h. apply TryFindDirHandle_search_dir.
  - unfold TryFindDirHandle, wcslen.
    destruct (first_match (IsDirOf D (length D)) _ 0) as [[i |] |] eqn:Hfiles;
      [| | done].
    { intros [= H]. by apply handle_not_invalid in H. }
    destruct (first_match (IsDirPrefixOrSame D (length D)) _ 0)
      as [[i |] |] eqn:Hsearch; [| | done].
    { intros [= H]. by apply handle_not_invalid in H. }
    intros _. split; [by apply no_file_match |].
    intros s Hs. apply IsDirPrefixOrSame_false.
    by apply (first_match_None _ _ _ Hsearch).
  - intros HD Hmatch.
    destruct (TryFindDirHandle_defined X upper f D HD) as [h Hh]. exists h.
    split; [done |]. revert Hh. unfold TryFindDirHandle, wcslen.
    destruct (first_match (IsDirOf D (length D)) _ 0) as [[i |] |] eqn:Hfiles;
      [| | done].
    { intros [= <-]. unfold IsDirHandle. by rewrite handle_kind_of. }
    destruct (first_match (IsDirPrefixOrSame D (length D)) _ 0)
      as [[i |] |] eqn:Hsearch; [| | done]; intros [= <-].
    { unfold IsDirHandle. by rewrite handle_kind_of. }
    exfalso. destruct Hmatch as [(e & He & Hal) | (s & Hs & Hm)].
    + by apply (no_file_match f D Hfiles e He).
    + pose proof (first_match_None _ _ _ Hsearch s Hs) as Hfalse.
      by rewrite (IsDirPrefixOrSame_match D s HD Hm) in Hfalse.
Qed.

Lemma first_match_undefined (test : wstring → option bool)
  (names : list wstring) (k : nat) (n : wstring) :
  n ∈ names → test n = None →
  (∀ n', n' ∈ names → test n' ≠ Some true) →
  first_match test names k = None.
Proof.
  revert k. induction names as [| n' names IH]; intros k Hn Hnone Hnever.
  - by apply elem_of_nil in Hn.
  - simpl. destruct (test n') as [[|] |] eqn:Ht; [| | done].
    + exfalso. apply (Hnever n'); [apply elem_of_cons; by left | done].
    + apply elem_of_cons in Hn as [-> | Hn]; [congruence |].
      apply IH; [done | done |]. intros n'' Hn''. apply Hnever.
      apply elem_of_cons. by right.
Qed.

(** X6 -- The scan for a directory reads no code unit outside a buffer when
    the queried path is not empty, and the path [CreateFileW] and
    [GetFileAttributesW] query, being normalised, never is; on the empty
    path, with a registered file whose name is not empty, it reads the code
    unit before the path. *)
Theorem X6_directory_scan_stays_in_bounds (upper : Z) (f : DxcArgsFileSystemImpl X) :
  (∀ D, D ≠ [] → is_Some (TryFindDirHandle X upper f D))
  ∧ (∀ n, is_Some (TryFindDirHandle X upper f (MakeAbsoluteOrCurDirRelativeW n)))
  ∧ (∀ e, e ∈ m_includedFiles f → Name e ≠ [] →
          TryFindDirHandle X upper f [] = None).
Proof.
  split; [apply TryFindDirHandle_defined |].
  split; [apply TryFindDirHandle_normalised |].
  intros e He Hne. unfold TryFindDirHandle, wcslen.
  rewrite (first_match_undefined _ _ 0 (Name e)); [done | | |].
  - by apply list_elem_of_fmap_2.
  - unfold IsDirOf. simpl. rewrite decide_False; [done |].
    destruct (Name e); [done | simpl; lia].
  - intros n _. apply IsDirOf_empty.
Qed.

End SearchDirectories.

Lemma X5_witness :
  ∃ h, TryFindDirHandle plain_externals 0
         (mkFS plain_externals [] [] 0%nat None None None None None
               [L "./include"] false [])
         (L "./include") = Some h
       ∧ IsDirHandle h = true.
Proof.
  apply X5_search_dir_match; [done |].
  right. exists (L "./include"). split; [apply list_elem_of_singleton | left]; done.
Defined.

Lemma X6_witness :
  ∃ w, main_world None = Some w
       ∧ is_Some (TryFindDirHandle plain_externals 0 (fs w) (L "./inc"))
       ∧ TryFindDirHandle plain_externals 0 (fs w) [] = None.
Proof.
  eexists. split; [reflexivity |].
  destruct (X6_directory_scan_stays_in_bounds plain_externals 0
              (fs (default blank_world (main_world None)))) as (Hin & _ & Hout).
  split; [by apply Hin |].
  eapply Hout; [apply list_elem_of_singleton; reflexivity | done].
Defined.

(** ** Resolving through the include handler *)

Section Resolving.
Context (X : Externals).

Implicit Types (w : World X) (p : wstring).


(** X8 -- A resolve that succeeds either found the path, at the index of
    its first entry and with the state unchanged, or appended one entry at
    the end: the path was not registered, the registry was not full, the
    handler was called once with the path, and the entry holds the path and
    the UTF-8 form of the blob the handler returned. *)
Theorem X8_successful_resolve p w (r : option nat) w' :
  TryFindOrOpen X p w = Returned (ERROR_SUCCESS, r) w' →
  ∃ i, r = Some i
    ∧ find_included p (m_includedFiles (fs w')) 0 = Some i
    ∧ ((find_included p (m_includedFiles (fs w)) 0 = Some i ∧ w' = w)
       ∨ ((p ∉ Name <$> m_includedFiles (fs w))
          ∧ i = length (m_includedFiles (fs w))
          ∧ length (m_includedFiles (fs w)) ≠ MaxIncludedFiles
          ∧ ∃ h fileBlob enc s,
              m_includeLoader (fs w) = Some h
              ∧ load_blob (h (LoadSource_calls w) p) = Some fileBlob
              ∧ DxcGetBlobAsUtf8 X fileBlob = Some enc
              ∧ m_includedFiles (fs w')
                = m_includedFiles (fs w) ++ [mkIncludedFile X enc s p]
              ∧ m_searchEntries (fs w') = m_searchEntries (fs w)
              ∧ LoadSource_calls w' = LoadSource_calls w ++ [p])).
Proof.
  intros Hret. pose proof (TryFindOrOpen_spec X p w) as Hspec.
  rewrite Hret in Hspec. destruct Hspec as [_ Hok].
  destruct (Hok eq_refl) as (i & Hr & Hi). simpl in Hr. subst r.
  exists i. split; [done |]. split; [done |].
  revert Hret. unfold TryFindOrOpen, bind, get, modify, ret, throw, crash.
  simpl.
  destruct (find_included p (m_includedFiles (fs w)) 0) as [j |] eqn:Hfind.
  { intros [= <- <-]. by left. }
  destruct (m_includeLoader (fs w)) as [loader |] eqn:Hloader; [| done].
  case_decide as Hroom; [done |].
  destruct (FAILED _); [done |].
  destruct (load_blob _) as [fileBlob |] eqn:Hblob; [| done].
  destruct (DxcGetBlobAsUtf8 X fileBlob) as [enc |] eqn:Henc; [| done].
  destruct (CreateReadOnlyBlobStream X enc (streams w)) as [[s |] st]; simpl;
    [| done].
  assert (∀ w1, m_includedFiles (fs w1)
                = m_includedFiles (fs w) ++ [mkIncludedFile X enc s p] →
                m_searchEntries (fs w1) = m_searchEntries (fs w) →
                LoadSource_calls w1 = LoadSource_calls w ++ [p] →
                Returned (ERROR_SUCCESS,
                          Some (length (m_includedFiles (fs w)) + 1 - 1)%nat) w1
                = Returned (ERROR_SUCCESS, Some i) w' →
                (None = Some i ∧ w' = w)
                ∨ ((p ∉ Name <$> m_includedFiles (fs w))
                   ∧ i = length (m_includedFiles (fs w))
                   ∧ length (m_includedFiles (fs w)) ≠ MaxIncludedFiles
                   ∧ ∃ h fileBlob0 enc0 s0,
                       Some loader = Some h
                       ∧ load_blob (h (LoadSource_calls w) p) = Some fileBlob0
                       ∧ DxcGetBlobAsUtf8 X fileBlob0 = Some enc0
                       ∧ m_includedFiles (fs w')
                         = m_includedFiles (fs w) ++ [mkIncludedFile X enc0 s0 p]
                       ∧ m_searchEntries (fs w') = m_searchEntries (fs w)
                       ∧ LoadSource_calls w' = LoadSource_calls w ++ [p]))
    as Hadded.
  { intros w1 Hf Hs Hc [= <- <-]. right.
    split; [by apply (find_included_None X p _ 0) |].
    split; [lia |]. split; [done |].
    by exists loader, fileBlob, enc, s. }
  destruct (m_bDisplayIncludeProcess (fs w)); simpl.
  - destruct (UTF16ToUTF8StringOrThrow X p) as [fileName |]; simpl; [| done].
    destruct (m_pStdErrStream (fs w)) as [e |]; simpl; [| done].
    destruct (Stream_Write X e _ st) as [[n |] st']; simpl; [| done].
    by apply Hadded.
  - by apply Hadded.
Qed.

End Resolving.


Lemma X8_witness :
  ∃ w w' i, main_world (Some (handler_any [x42])) = Some w
    ∧ TryFindOrOpen plain_externals (L "./inc/foo.h") w
      = Returned (ERROR_SUCCESS, Some 1%nat) w'
    ∧ find_included (L "./inc/foo.h") (m_includedFiles (fs w')) 0 = Some i.
Proof.
  exists (default blank_world (main_world (Some (handler_any [x42])))),
    (default blank_world inc_world).
  assert (TryFindOrOpen plain_externals (L "./inc/foo.h")
            (default blank_world (main_world (Some (handler_any [x42]))))
          = Returned (ERROR_SUCCESS, Some 1%nat) (default blank_world inc_world))
    as Hrun by reflexivity.
  destruct (X8_successful_resolve plain_externals _ _ _ _ Hrun)
    as (i & _ & Hi & _).
  exists i. split; [reflexivity |]. split; [exact Hrun | exact Hi].
Defined.

Section Tracing.
Context (X : Externals).

(** A path that is not empty and matches no file and no search entry is
    answered with the failure value. *)
Lemma TryFindDirHandle_no_match (upper : Z) (f : DxcArgsFileSystemImpl X) (D : wstring) :
  D ≠ [] →
  (∀ e, e ∈ m_includedFiles f → ¬ aligned_strict_prefix D (Name e)) →
  (∀ s, s ∈ m_searchEntries f → s ≠ D ∧ ¬ aligned_strict_prefix D s) →
  TryFindDirHandle X upper f D = Some INVALID_HANDLE_VALUE.
Proof.
  intros HD Hfiles Hsearch.
  destruct (TryFindDirHandle_defined X upper f D HD) as [h Hh]. rewrite Hh. f_equal.
  destruct (TryFindDirHandle_cases X upper f D h Hh)
    as [-> | [(i & l & -> & _) | (i & l & -> & _)]]; [done | |].
  - destruct (TryFindDirHandle_file_dir X upper f D _ Hh) as (j & e & He & _ & Hal & _);
      [apply handle_kind_of |].
    exfalso. apply (Hfiles e); [by eapply list_elem_of_lookup_2 | done].
  - destruct (TryFindDirHandle_search_dir X upper f D _ Hh)
      as (_ & j & s & Hs & _ & Hm & _); [apply handle_kind_of |].
    exfalso. destruct (Hsearch s) as [Hne Hnal];
      [by eapply list_elem_of_lookup_2 |].
    by destruct Hm.
Qed.

(** With the trace enabled and no standard-error stream, a load that
    succeeds does not return. *)
Lemma TryFindOrOpen_trace_stops (p : wstring) (w : World X)
  (h : IDxcIncludeHandler) :
  find_included p (m_includedFiles (fs w)) 0 = None →
  m_includeLoader (fs w) = Some h →
  length (m_includedFiles (fs w)) ≠ MaxIncludedFiles →
  m_bDisplayIncludeProcess (fs w) = true →
  m_pStdErrStream (fs w) = None →
  always_loads X h →
  TryFindOrOpen X p w = Crashed ∨ ∃ w', TryFindOrOpen X p w = Thrown w'.
Proof.
  intros Hf Hl Hn Hd He Hok.
  unfold TryFindOrOpen, bind, get, modify, ret, throw, crash. simpl.
  rewrite Hf, Hl. rewrite decide_False by done.
  destruct (Hok (LoadSource_calls w) p) as (Hhr & b & enc & Hb & Henc & Hs).
  rewrite Hhr, Hb, Henc. destruct (Hs (streams w)) as [s Hcreated].
  destruct (CreateReadOnlyBlobStream X enc (streams w)) as [created st].
  simpl in Hcreated. subst created. simpl. rewrite Hd. simpl.
  destruct (UTF16ToUTF8StringOrThrow X p); simpl; [| right; by eexists].
  rewrite He. by left.
Qed.

(** X9 -- With the trace of includes enabled on an adapter whose standard
    streams were not created, the open of a file the handler has stops the
    program: the trace line goes to the standard-error stream, which is
    null (or the conversion of the name raises inside a function that may
    not).  Without the trace the same open registers the file as entry 1. *)
Theorem X9_trace_needs_the_standard_streams (upper : Z) (pSource : blob)
  (pSourceName : wstring) (h : IDxcIncludeHandler) (st : Store X)
  (w0 : World X) (n : wstring) (a b c d : Z) :
  new_DxcArgsFileSystemImpl X pSource pSourceName (Some h) st = Some w0 →
  always_loads X h →
  MakeAbsoluteOrCurDirRelativeW n ≠ MakeAbsoluteOrCurDirRelativeW pSourceName →
  ¬ aligned_strict_prefix (MakeAbsoluteOrCurDirRelativeW n)
      (MakeAbsoluteOrCurDirRelativeW pSourceName) →
  (∃ w1, EnableDisplayIncludeProcess X w0 = Returned () w1
         ∧ CreateFileW X upper n a b c d w1 = Crashed)
  ∧ ∃ w2, CreateFileW X upper n a b c d w0
          = Returned (IncludedFileIndexToHandle upper 1) w2.
Proof.
  unfold new_DxcArgsFileSystemImpl.
  destruct (CreateReadOnlyBlobStream X pSource st) as [[srcStream |] st'];
    [| done].
  intros [= <-] Hok Hne Hnal.
  set (src := MakeAbsoluteOrCurDirRelativeW pSourceName) in *.
  set (p := MakeAbsoluteOrCurDirRelativeW n) in *.
  assert (∀ f : DxcArgsFileSystemImpl X,
            m_includedFiles f = [mkIncludedFile X pSource srcStream src] →
            m_searchEntries f = [] →
            TryFindDirHandle X upper f p = Some INVALID_HANDLE_VALUE) as Hdir.
  { intros f Hf Hs. apply TryFindDirHandle_no_match.
    - apply MakeAbsoluteOrCurDirRelativeW_nonempty.
    - rewrite Hf. intros e ->%list_elem_of_singleton. done.
    - rewrite Hs. intros s Hin. by apply elem_of_nil in Hin. }
  assert (find_included p [mkIncludedFile X pSource srcStream src] 0 = None)
    as Hfind.
  { apply find_included_None. simpl. by intros ->%list_elem_of_singleton. }
  split.
  - eexists. split; [reflexivity |].
    unfold CreateFileW, nothrow, bind, get, defined, ret. simpl.
    fold p. rewrite Hdir by done. simpl.
    match goal with
    | |- context [TryFindOrOpen X p ?w1] =>
        destruct (TryFindOrOpen_trace_stops p w1 h) as [-> | [w' ->]]
    end; try done.
  - unfold CreateFileW, nothrow, bind, get, defined, ret. simpl.
    fold p. rewrite Hdir by done. simpl.
    match goal with
    | |- context [TryFindOrOpen X p ?w1] =>
        destruct (TryFindOrOpen_loads X p w1 h) as (w' & -> & _)
    end; try done.
    simpl. by eexists.
Qed.

End Tracing.

Lemma X9_witness :
  ∃ w0 w1, main_world (Some (handler_any [x42])) = Some w0
    ∧ EnableDisplayIncludeProcess plain_externals w0 = Returned () w1
    ∧ CreateFileW plain_externals 0 (L "inc/foo.h") 0 0 0 0 w1 = Crashed.
Proof.
  destruct (X9_trace_needs_the_standard_streams plain_externals 0 [x41]
              (L "./main.hlsl") (handler_any [x42]) 0%nat
              (default blank_world (main_world (Some (handler_any [x42]))))
              (L "inc/foo.h") 0 0 0 0 eq_refl (handler_any_always_loads [x42]))
    as ((w1 & Hen & Hcrash) & _).
  - discriminate.
  - intros ([k Hk] & _). discriminate Hk.
  - exists (default blank_world (main_world (Some (handler_any [x42])))), w1.
    split; [reflexivity |]. split; [exact Hen | exact Hcrash].
Defined.

(** ** Properties of the registry that every call keeps *)

Section Invariants.
Context (X : Externals) (I : World X → Prop).

(** [I] speaks of the registry only, and resolving a rooted path keeps it. *)
Hypothesis I_registry :
  ∀ w w', m_includedFiles (fs w') = m_includedFiles (fs w) → I w → I w'.
Hypothesis I_resolve :
  ∀ p, IsAbsoluteOrCurDirRelativeW p = true → keeps I (TryFindOrOpen X p).

Lemma keeps_ret {A} (a : A) : keeps I (ret X a).
Proof. by intros w Hw. Qed.

Lemma keeps_get : keeps I (get X).
Proof. by intros w Hw. Qed.

Lemma keeps_throw {A} : keeps I (@throw X A).
Proof. by intros w Hw. Qed.

Lemma keeps_crash {A} : keeps I (@crash X A).
Proof. by intros w Hw. Qed.

Lemma keeps_defined {A} (o : option A) : keeps I (defined X o).
Proof. destruct o; [apply keeps_ret | apply keeps_crash]. Qed.

Lemma keeps_modify (g : World X → World X) :
  (∀ w, m_includedFiles (fs (g w)) = m_includedFiles (fs w)) →
  keeps I (modify X g).
Proof. intros Hg w Hw. simpl. by apply (I_registry w). Qed.

Lemma keeps_bind {A B} (m : M X A) (k : A → M X B) :
  keeps I m → (∀ a, keeps I (k a)) → keeps I (bind X m k).
Proof.
  intros Hm Hk w Hw. unfold bind. specialize (Hm w Hw).
  destruct (m w) as [a w' | w' |]; [| done | done]. by apply Hk.
Qed.

Lemma keeps_nothrow {A} (m : M X A) : keeps I m → keeps I (nothrow X m).
Proof.
  intros Hm w Hw. unfold nothrow. specialize (Hm w Hw). by destruct (m w).
Qed.

Lemma keeps_void {A} (m : M X A) : keeps I m → keeps I (void X m).
Proof. intros Hm. apply keeps_bind; [done | intros; apply keeps_ret]. Qed.

Lemma keeps_SetupForCompilerInstance (entries : list string) :
  keeps I (SetupForCompilerInstance X entries).
Proof.
  intros w Hw. unfold SetupForCompilerInstance, bind, get. simpl.
  case_decide as Hempty; [| done]. case_decide as Hmany; [done |].
  pose proof (add_searchEntries_spec X entries w) as Hspec.
  destruct (add_searchEntries X entries w); [| | done];
    destruct Hspec as (Hf & _); by apply (I_registry w).
Qed.

Ltac keeps_step :=
  lazymatch goal with
  | |- keeps I (bind X _ _) => apply keeps_bind; [| intros ?]
  | |- keeps I (ret X _) => apply keeps_ret
  | |- keeps I (get X) => apply keeps_get
  | |- keeps I (throw X) => apply keeps_throw
  | |- keeps I (crash X) => apply keeps_crash
  | |- keeps I (defined X _) => apply keeps_defined
  | |- keeps I (nothrow X _) => apply keeps_nothrow
  | |- keeps I (void X _) => apply keeps_void
  | |- keeps I (modify X _) => apply keeps_modify; intros ?; reflexivity
  | |- keeps I (SetLastError X _) => apply keeps_modify; intros ?; reflexivity
  | |- keeps I (set_errno_ X _) => apply keeps_modify; intros ?; reflexivity
  | |- keeps I (TryFindOrOpen X _) =>
      apply I_resolve, MakeAbsoluteOrCurDirRelativeW_rooted
  | |- keeps I (if ?b then _ else _) => destruct b
  | |- keeps I (match ?x with _ => _ end) => destruct x
  end.

(** Every call of the host keeps such a property. *)
Lemma run_keeps (o : Op X) : keeps I (run X o).
Proof.
  destruct o; simpl;
    try apply keeps_SetupForCompilerInstance;
    unfold EnableDisplayIncludeProcess, CreateStdStreams, RegisterOutputStream,
      CreateFileW, GetFileAttributesW, GetFileInformationByHandle, GetFileType,
      CloseHandle, FindNextFileW, FindFirstFileW, SetFileTime, CreateHardLinkW,
      MoveFileExW, DeleteFileW, RemoveDirectoryW, CreateDirectoryW,
      GetCurrentDirectoryW, GetMainModuleFileNameW, GetTempPathW,
      CreateSymbolicLinkW, ReadFile, CreateFileMappingW, MapViewOfFile,
      UnmapViewOfFile, close, lseek, setmode, resize_file, Read, Write,
      GetStreamForFD, GetStreamForHandle;
    repeat keeps_step.
Qed.

Lemma steps_keep (w w' : World X) : steps w w' → I w → I w'.
Proof.
  induction 1 as [| w w' w'' o _ IH Hafter]; [done |].
  intros Hw. specialize (IH Hw). unfold after in Hafter.
  pose proof (run_keeps o w' IH) as Hrun.
  destruct (run X o w'); by simplify_eq.
Qed.

End Invariants.

Section RegistryNames.
Context (X : Externals).

Implicit Types (w : World X) (p : wstring).

(** Whatever way a resolve ends, the registry is as before or has one more
    entry, which carries the resolved path, a path not registered before. *)
Lemma TryFindOrOpen_registry p w :
  match TryFindOrOpen X p w with
  | Returned _ w' | Thrown w' =>
      m_includedFiles (fs w') = m_includedFiles (fs w)
      ∨ ((p ∉ Name <$> m_includedFiles (fs w))
         ∧ ∃ e, m_includedFiles (fs w') = m_includedFiles (fs w) ++ [e]
                ∧ Name e = p)
  | Crashed => True
  end.
Proof.
  unfold TryFindOrOpen, bind, get, modify, ret, throw, crash. simpl.
  destruct (find_included p (m_includedFiles (fs w)) 0) as [i |] eqn:Hfind;
    [by left |].
  apply find_included_None in Hfind.
  destruct (m_includeLoader (fs w)) as [loader |]; [| by left].
  case_decide; [by left |].
  destruct (FAILED _); [by left |].
  destruct (load_blob _) as [fileBlob |]; [| by left].
  destruct (DxcGetBlobAsUtf8 X fileBlob) as [enc |]; [| by left].
  destruct (CreateReadOnlyBlobStream X enc (streams w)) as [[s |] st]; simpl;
    [| by left].
  destruct (m_bDisplayIncludeProcess (fs w)); simpl.
  - destruct (UTF16ToUTF8StringOrThrow X p) as [fileName |]; simpl;
      [| right; split; [done | by eexists]].
    destruct (m_pStdErrStream (fs w)) as [e |]; simpl; [| done].
    destruct (Stream_Write X e _ st) as [[n |] st']; simpl;
      right; (split; [done | by eexists]).
  - right. split; [done | by eexists].
Qed.

Lemma resolve_keeps_names p :
  IsAbsoluteOrCurDirRelativeW p = true →
  keeps names_rooted_and_distinct (TryFindOrOpen X p).
Proof.
  intros Hp w [Hnd Hrooted]. pose proof (TryFindOrOpen_registry p w) as H.
  assert (∀ w', m_includedFiles (fs w') = m_includedFiles (fs w)
                ∨ ((p ∉ Name <$> m_includedFiles (fs w))
                   ∧ ∃ e, m_includedFiles (fs w')
                          = m_includedFiles (fs w) ++ [e] ∧ Name e = p) →
                names_rooted_and_distinct w') as Hkeep.
  { intros w' [Hsame | (Hnew & e & Hadd & He)]; unfold names_rooted_and_distinct.
    - by rewrite Hsame.
    - rewrite Hadd, fmap_app. simpl. rewrite He. split.
      + apply list_relations.list.NoDup_app.
        split; [done |]. split; [| apply NoDup_singleton].
        intros n Hn ->%list_elem_of_singleton. done.
      + intros n [Hn | ->%list_elem_of_singleton]%elem_of_app; auto. }
  destruct (TryFindOrOpen X p w); [by apply Hkeep | by apply Hkeep | done].
Qed.

(** X10 -- In every state an adapter reaches after its construction, the
    names in the registry are pairwise distinct and each is rooted, so not
    empty: a path has at most one entry, the one a resolve answers with. *)
Theorem X10_registry_names_rooted_and_distinct (pSource : blob)
  (pSourceName : wstring) (pHandler : option IDxcIncludeHandler)
  (st : Store X) (w0 w : World X) :
  new_DxcArgsFileSystemImpl X pSource pSourceName pHandler st = Some w0 →
  steps w0 w →
  NoDup (Name <$> m_includedFiles (fs w))
  ∧ (∀ e, e ∈ m_includedFiles (fs w) →
          IsAbsoluteOrCurDirRelativeW (Name e) = true ∧ Name e ≠ [])
  ∧ (∀ (i j : nat) e e',
       m_includedFiles (fs w) !! i = Some e →
       m_includedFiles (fs w) !! j = Some e' →
       Name e = Name e' → i = j)
  ∧ (∀ (i : nat) e, m_includedFiles (fs w) !! i = Some e →
       TryFindOrOpen X (Name e) w = Returned (ERROR_SUCCESS, Some i) w).
Proof.
  intros Hnew Hsteps.
  assert (names_rooted_and_distinct w) as [Hnd Hrooted].
  { apply (steps_keep X names_rooted_and_distinct) with (w := w0); try done.
    - intros w1 w2 Hf. unfold names_rooted_and_distinct. by rewrite Hf.
    - apply resolve_keeps_names.
    - unfold new_DxcArgsFileSystemImpl in Hnew.
      destruct (CreateReadOnlyBlobStream X pSource st) as [[s |] st'];
        [| done].
      injection Hnew as <-. split; simpl.
      + apply NoDup_singleton.
      + intros n ->%list_elem_of_singleton.
        apply MakeAbsoluteOrCurDirRelativeW_rooted. }
  assert (∀ (i j : nat) e e',
            m_includedFiles (fs w) !! i = Some e →
            m_includedFiles (fs w) !! j = Some e' →
            Name e = Name e' → i = j) as Hunique.
  { intros i j e e' Hi Hj Heq.
    apply (NoDup_lookup _ i j (Name e) Hnd); rewrite list_lookup_fmap.
    - by rewrite Hi.
    - by rewrite Hj, Heq. }
  split; [done |]. split; [| split; [done |]].
  - intros e He.
    assert (IsAbsoluteOrCurDirRelativeW (Name e) = true) as Hr
      by by apply Hrooted, list_elem_of_fmap_2.
    split; [done |]. intros Hnil. by rewrite Hnil in Hr.
  - intros i e Hi. apply TryFindOrOpen_hit.
    destruct (find_included_registered X (Name e) (m_includedFiles (fs w)) 0)
      as (k & Hk & _).
    { apply list_elem_of_fmap_2. by eapply list_elem_of_lookup_2. }
    destruct (find_included_Some X _ _ _ _ Hk) as (j & e' & -> & Hj & He' & _).
    rewrite Hk. f_equal. simpl. by apply (Hunique j i e' e).
Qed.

End RegistryNames.

Lemma X10_witness :
  ∃ w0 w, main_world (Some (handler_any [x42])) = Some w0
    ∧ steps w0 w
    ∧ (Name <$> m_includedFiles (fs w)) = [L "./main.hlsl"; L "./inc/foo.h"]
    ∧ NoDup (Name <$> m_includedFiles (fs w)).
Proof.
  exists (default blank_world (main_world (Some (handler_any [x42])))),
    (default blank_world inc_world).
  assert (steps (default blank_world (main_world (Some (handler_any [x42]))))
                (default blank_world inc_world)) as Hsteps.
  { eapply steps_step
      with (o := op_CreateFileW plain_externals 0 (L "./inc/foo.h") 0 0 0 0);
      [apply steps_refl | reflexivity]. }
  split; [reflexivity |]. split; [exact Hsteps |]. split; [reflexivity |].
  exact (proj1 (X10_registry_names_rooted_and_distinct plain_externals [x41]
                  (L "./main.hlsl") (Some (handler_any [x42])) 0%nat _ _
                  eq_refl Hsteps)).
Defined.

(** ** Open and query *)

Section OpenAndQuery.
Context (X : Externals).

Implicit Types (w : World X) (p n : wstring).

(** [CreateFileW] step by step. *)
Lemma CreateFileW_unfold (upper : Z) n (a b c d : Z) w :
  CreateFileW X upper n a b c d w
  = let p := MakeAbsoluteOrCurDirRelativeW n in
    if match m_pOutputStreamName (fs w) with
       | Some out => bool_decide (0 = wcscmp p out)
       | None => false
       end
    then Returned OutputHandle w
    else
      match TryFindDirHandle X upper (fs w) p with
      | None => Crashed
      | Some dirHandle =>
          if decide (dirHandle ≠ INVALID_HANDLE_VALUE) then Returned dirHandle w
          else
            match TryFindOrOpen X p w with
            | Returned (findError, includedIndex) w' =>
                if decide (findError = ERROR_SUCCESS) then
                  match includedIndex with
                  | Some i => Returned (IncludedFileIndexToHandle upper i) w'
                  | None => Crashed
                  end
                else Returned INVALID_HANDLE_VALUE (set_LastError findError w')
            | _ => Crashed
            end
      end.
Proof.
  unfold CreateFileW, nothrow, bind, get, defined, ret, crash, SetLastError,
    modify. simpl.
  destruct (match m_pOutputStreamName (fs w) with
            | Some out => _ | None => false end); [done |].
  destruct (TryFindDirHandle X upper (fs w) _) as [dirHandle |]; [| done]. simpl.
  case_decide; [done |].
  destruct (TryFindOrOpen X _ w) as [[findError [i |]] w' | |]; try done;
    simpl; by case_decide.
Qed.



Lemma directory_handle_attributes (upper : Z) (f : DxcArgsFileSystemImpl X) (D : wstring)
  (h : HANDLE) :
  TryFindDirHandle X upper f D = Some h → h ≠ INVALID_HANDLE_VALUE →
  attributes_of_handle h = FILE_ATTRIBUTE_DIRECTORY ∧ IsFileKind h = false.
Proof.
  intros Hh Hvalid. unfold attributes_of_handle, IsDirHandle, IsFileKind.
  rewrite decide_False by done.
  destruct (TryFindDirHandle_cases X upper f D h Hh)
    as [-> | [(i & l & -> & _) | (i & l & -> & _)]]; [done | |];
    by rewrite handle_kind_of.
Qed.


(** Whether a directory is found does not depend on what the storage of
    the handle held. *)
Lemma TryFindDirHandle_upper (u1 u2 : Z) (f : DxcArgsFileSystemImpl X)
  (D : wstring) :
  match TryFindDirHandle X u1 f D, TryFindDirHandle X u2 f D with
  | Some h1, Some h2 => h1 = INVALID_HANDLE_VALUE ↔ h2 = INVALID_HANDLE_VALUE
  | None, None => True
  | _, _ => False
  end.
Proof.
  unfold TryFindDirHandle.
  destruct (first_match _ (Name <$> _) 0) as [[i |] |]; [| | done].
  { split; intros H; by apply handle_not_invalid in H. }
  destruct (first_match _ (m_searchEntries f) 0) as [[i |] |]; [| done | done].
  split; intros H; by apply handle_not_invalid in H.
Qed.




End OpenAndQuery.

(** The defect behind C1 end to end: with 257 files in the registry, the
    open of the last one is answered with the handle of the primary source,
    and the file behind that handle is the primary source, whatever the
    upper half of the handle holds. *)
Lemma file_at_index_256_opens_as_primary_source :
  ∃ w, world_with_257_files = Some w
       ∧ length (m_includedFiles (fs w)) = 257%nat
       ∧ find_included (numbered_path 256) (m_includedFiles (fs w)) 0
         = Some 256%nat
       ∧ (∀ upper,
            returned
              (CreateFileW plain_externals upper (numbered_path 256) 0 0 0 0 w)
            = Some (IncludedFileIndexToHandle upper 256))
       ∧ (∀ upper,
            IncludedFileIndexToHandle upper 256
            = IncludedFileIndexToHandle upper 0)
       ∧ (∀ upper,
            Name <$> HandleToIncludedFile plain_externals (fs w)
                       (IncludedFileIndexToHandle upper 256)
            = Some (L "./main.hlsl")).
Proof.
  assert (match world_with_257_files with
          | Some w =>
              length (m_includedFiles (fs w)) = 257%nat
              ∧ find_included (numbered_path 256) (m_includedFiles (fs w)) 0
                = Some 256%nat
              ∧ TryFindDirHandle plain_externals 0 (fs w) (numbered_path 256)
                = Some INVALID_HANDLE_VALUE
              ∧ m_pOutputStreamName (fs w) = None
              ∧ (Name <$> m_includedFiles (fs w) !! 0%nat)
                = Some (L "./main.hlsl")
          | None => False
          end) as H by (vm_compute; repeat split).
  destruct world_with_257_files as [w |]; [| done].
  destruct H as (Hlen & Hfind & Hdir & Hout & Hzero).
  assert (∀ upper, decode (IncludedFileIndexToHandle upper 256)
                   = (HandleKind_val File, 0, 0)) as Hdec
    by (intros upper; apply (decode_handle upper File 256 0)).
  exists w. split; [done |]. split; [done |]. split; [done |].
  split; [| split].
  - intros upper. rewrite CreateFileW_unfold.
    change (MakeAbsoluteOrCurDirRelativeW (numbered_path 256))
      with (numbered_path 256).
    cbv zeta. rewrite Hout.
    pose proof (TryFindDirHandle_upper plain_externals 0 upper (fs w)
                  (numbered_path 256)) as Hsame.
    rewrite Hdir in Hsame.
    destruct (TryFindDirHandle plain_externals upper (fs w) (numbered_path 256))
      as [h |]; [| done].
    assert (h = INVALID_HANDLE_VALUE) as -> by by apply Hsame.
    rewrite decide_False by (intros Hne; by apply Hne).
    by rewrite (TryFindOrOpen_hit plain_externals _ w 256 Hfind).
  - intros upper. apply (handle_fields upper File 256 0).
  - intros upper. specialize (Hdec upper).
    pose proof (f_equal (λ x, x.1.1) Hdec) as Hk.
    pose proof (f_equal (λ x, x.1.2) Hdec) as Ho.
    cbv beta in Hk, Ho. unfold decode in Hk, Ho. cbn [fst snd] in Hk, Ho.
    unfold HandleToIncludedFile, GetFileIndex, IsFileKind.
    rewrite Hk, Ho. rewrite bool_decide_eq_true_2 by done.
    rewrite decide_True by (rewrite Hlen; lia). exact Hzero.
Qed.


Section OutputAndFiles.
Context (X : Externals).

Implicit Types (w : World X) (p n : wstring).


Lemma HandleToIncludedFile_index (upper : Z) (f : DxcArgsFileSystemImpl X) (i : nat)
  (e : IncludedFile X) :
  (i < 256)%nat → m_includedFiles f !! i = Some e →
  HandleToIncludedFile X f (IncludedFileIndexToHandle upper i) = Some e
  ∧ IsFileKind (IncludedFileIndexToHandle upper i) = true.
Proof.
  intros Hi He. unfold HandleToIncludedFile, GetFileIndex, IsFileKind,
    IncludedFileIndexToHandle, DxcArgsHandle_index.
  change (Handle_of upper (init_Bits (Z.of_nat i) 0 (HandleKind_val File)))
    with (DxcArgsHandle_kind upper File (Z.of_nat i) 0).
  assert (decode (DxcArgsHandle_kind upper File (Z.of_nat i) 0)
          = (HandleKind_val File, Z.of_nat i, 0)) as Hd
    by (apply decode_handle_in_width; lia).
  pose proof (f_equal (λ x, x.1.1) Hd) as Hk.
  pose proof (f_equal (λ x, x.1.2) Hd) as Ho.
  cbv beta in Hk, Ho. unfold decode in Hk, Ho. cbn [fst snd] in Hk, Ho.
  rewrite Hk, Ho. rewrite bool_decide_eq_true_2 by done.
  apply lookup_lt_Some in He as Hlt.
  rewrite decide_True by lia. by rewrite Nat2Z.id.
Qed.

Lemma GetStreamForHandle_file (upper : Z) (i : nat) (e : IncludedFile X) w :
  (i < 256)%nat → m_includedFiles (fs w) !! i = Some e →
  GetStreamForHandle X (IncludedFileIndexToHandle upper i) w
  = Returned (Some (BlobStream e)) w.
Proof.
  intros Hi He.
  destruct (HandleToIncludedFile_index upper (fs w) i e Hi He)
    as [Hfile Hkind].
  unfold GetStreamForHandle, bind, get, defined, ret. simpl.
  assert (GetKind (IncludedFileIndexToHandle upper i) = HandleKind_val File) as Hk
    by by apply bool_decide_eq_true in Hkind.
  assert (∀ V, IncludedFileIndexToHandle upper i ≠ DxcArgsHandle_special V) as Hne.
  { intros V Heq. rewrite Heq in Hk. by destruct V. }
  unfold OutputHandle, StdOutHandle, StdErrHandle.
  rewrite !decide_False by apply Hne. rewrite decide_True by done.
  by rewrite Hfile.
Qed.

(** A handle of file kind that [CreateFileW] returns is built from the index
    of the entry that carries the normalised path. *)
Lemma CreateFileW_file_handle (upper : Z) n (a b c d : Z) w (h : HANDLE) w' :
  CreateFileW X upper n a b c d w = Returned h w' →
  IsFileKind h = true →
  ∃ (i : nat) e,
    h = IncludedFileIndexToHandle upper i
    ∧ m_includedFiles (fs w') !! i = Some e
    ∧ Name e = MakeAbsoluteOrCurDirRelativeW n.
Proof.
  rewrite CreateFileW_unfold. simpl.
  destruct (match m_pOutputStreamName (fs w) with
            | Some out => _ | None => false end).
  { intros [= <- <-] Hk. done. }
  destruct (TryFindDirHandle X upper (fs w) _) as [dirHandle |] eqn:Hdir; [| done].
  case_decide as Hvalid.
  { intros [= <- <-] Hk.
    destruct (directory_handle_attributes X _ _ _ _ Hdir Hvalid) as [_ Hnot].
    congruence. }
  pose proof (TryFindOrOpen_spec X (MakeAbsoluteOrCurDirRelativeW n) w) as Hspec.
  destruct (TryFindOrOpen X _ w) as [[findError idx] w1 | |]; [| done | done].
  destruct Hspec as [_ Hok]. simpl in Hok.
  case_decide as Herr; [| intros [= <- <-] Hk; done].
  destruct (Hok Herr) as (i & -> & Hi). intros [= <- <-] _.
  destruct (find_included_Some X _ _ _ _ Hi) as (j & e & -> & Hj & He & _).
  simpl in *. by exists j, e.
Qed.

(** X13 -- With at most 256 entries in the registry, a handle of file kind
    that [CreateFileW] returns is the handle of the entry that carries the
    normalised path: that entry is the file behind the handle, its stream is
    the stream of the handle, and the size queried through the handle is the
    size of its blob. *)
Theorem X13_file_handle_names_its_entry (upper : Z) n (a b c d : Z) w (h : HANDLE) w' :
  CreateFileW X upper n a b c d w = Returned h w' →
  IsFileKind h = true →
  (length (m_includedFiles (fs w')) ≤ 256)%nat →
  ∃ (i : nat) e,
    h = IncludedFileIndexToHandle upper i
    ∧ m_includedFiles (fs w') !! i = Some e
    ∧ Name e = MakeAbsoluteOrCurDirRelativeW n
    ∧ HandleToIncludedFile X (fs w') h = Some e
    ∧ GetStreamForHandle X h w' = Returned (Some (BlobStream e)) w'
    ∧ GetFileInformationByHandle X h w'
      = Returned (TRUE, mkInfo FILE_ATTRIBUTE_NORMAL
                          (to_DWORD (GetBufferSize (Blob e))) 0
                          (to_DWORD (to_uintptr h))) w'.
Proof.
  intros Hret Hk Hlen.
  destruct (CreateFileW_file_handle upper n a b c d w h w' Hret Hk)
    as (j & e & -> & Hj & He).
  apply lookup_lt_Some in Hj as Hlt.
  assert (j < 256)%nat as Hsmall by lia.
  destruct (HandleToIncludedFile_index upper (fs w') j e Hsmall Hj)
    as [Hfile Hkind].
  exists j, e. split; [done |]. split; [done |]. split; [done |].
  split; [done |]. split; [by apply GetStreamForHandle_file |].
  unfold GetFileInformationByHandle, nothrow, bind, get, defined, ret. simpl.
  by rewrite Hkind, Hfile.
Qed.

End OutputAndFiles.


Lemma X13_witness :
  ∃ w w' e, main_world (Some (handler_any [x42])) = Some w
    ∧ CreateFileW plain_externals 0 (L "inc/foo.h") 0 0 0 0 w
      = Returned (IncludedFileIndexToHandle 0 1) w'
    ∧ HandleToIncludedFile plain_externals (fs w') (IncludedFileIndexToHandle 0 1)
      = Some e
    ∧ Name e = L "./inc/foo.h".
Proof.
  exists (default blank_world (main_world (Some (handler_any [x42])))),
    (default blank_world inc_world).
  assert (CreateFileW plain_externals 0 (L "inc/foo.h") 0 0 0 0
            (default blank_world (main_world (Some (handler_any [x42]))))
          = Returned (IncludedFileIndexToHandle 0 1)
              (default blank_world inc_world)) as Hrun by reflexivity.
  assert (IsFileKind (IncludedFileIndexToHandle 0 1) = true) as Hkind
    by reflexivity.
  assert (length (m_includedFiles (fs (default blank_world inc_world))) ≤ 256)%nat
    as Hlen by (simpl; lia).
  destruct (X13_file_handle_names_its_entry plain_externals 0 _ 0 0 0 0 _ _ _
              Hrun Hkind Hlen) as (i & e & _ & _ & Hname & Hfile & _).
  exists e. split; [reflexivity |]. split; [exact Hrun |].
  split; [exact Hfile | exact Hname].
Defined.

Section HandlesInUse.
Context (X : Externals).

Implicit Types (w : World X) (n : wstring) (h : HANDLE).

(** A file or directory handle is no sentinel: it is not the unknown handle
    and not a standard handle. *)
Lemma built_handle_no_sentinel (upper : Z) (HK : HandleKind) (i l : Z) :
  HK ≠ Special →
  IsStdHandle (DxcArgsHandle_kind upper HK i l) = false
  ∧ IsSpecialUnknown (DxcArgsHandle_kind upper HK i l) = false
  ∧ DxcArgsHandle_kind upper HK i l ≠ OutputHandle
  ∧ DxcArgsHandle_kind upper HK i l ≠ StdOutHandle
  ∧ DxcArgsHandle_kind upper HK i l ≠ StdErrHandle.
Proof.
  intros HHK.
  assert (∀ V, DxcArgsHandle_kind upper HK i l ≠ DxcArgsHandle_special V) as Hne.
  { intros V Heq. pose proof (handle_kind_of upper HK i l) as Hk.
    rewrite Heq in Hk.
    destruct HK; try done; destruct V; vm_compute in Hk; done. }
  split; [| split; [| split; [| split]]]; try apply Hne.
  - unfold IsStdHandle. rewrite handle_kind_of. by destruct HK.
  - unfold IsSpecialUnknown. apply bool_decide_eq_false. apply (Hne Unknown).
Qed.

(** The values [CreateFileW] returns, by the predicates of the codec. *)
Lemma issued_cases h w :
  issued h w →
  h = INVALID_HANDLE_VALUE ∨ h = OutputHandle
  ∨ (∃ upper HK i l, HK ≠ Special ∧ h = DxcArgsHandle_kind upper HK i l).
Proof.
  intros [-> | [-> | [(upper & i & l & -> & _)
                      | [(upper & i & l & -> & _) | (upper & i & -> & _)]]]];
    [by left | right; by left | right; right ..].
  - by exists upper, FileDir, (Z.of_nat i), l.
  - by exists upper, SearchDir, (Z.of_nat i), l.
  - by exists upper, File, (Z.of_nat i), 0.
Qed.

(** The stream behind a file or directory handle does not depend on the
    upper half of the handle. *)
Lemma GetStreamForHandle_lower_half (upper : Z) (HK : HandleKind) (i l : Z) w :
  HK ≠ Special →
  GetStreamForHandle X (DxcArgsHandle_kind upper HK i l) w
  = GetStreamForHandle X (DxcArgsHandle_kind 0 HK i l) w.
Proof.
  intros HHK.
  destruct (built_handle_no_sentinel upper HK i l HHK) as (_ & _ & Ho & H1 & H2).
  destruct (built_handle_no_sentinel 0 HK i l HHK) as (_ & _ & Ho' & H1' & H2').
  unfold GetStreamForHandle, bind, get. simpl.
  rewrite (decide_False (P := DxcArgsHandle_kind upper HK i l = OutputHandle)),
    (decide_False (P := DxcArgsHandle_kind upper HK i l = StdOutHandle)),
    (decide_False (P := DxcArgsHandle_kind upper HK i l = StdErrHandle)),
    (decide_False (P := DxcArgsHandle_kind 0 HK i l = OutputHandle)),
    (decide_False (P := DxcArgsHandle_kind 0 HK i l = StdOutHandle)),
    (decide_False (P := DxcArgsHandle_kind 0 HK i l = StdErrHandle)) by done.
  unfold HandleToIncludedFile, GetFileIndex, IsFileKind.
  pose proof (decode_handle upper HK i l) as Hd.
  pose proof (decode_handle 0 HK i l) as Hd0.
  rewrite <- Hd0 in Hd. unfold decode in Hd.
  pose proof (f_equal (λ x, x.1.1) Hd) as Hk.
  pose proof (f_equal (λ x, x.1.2) Hd) as Hoff.
  cbv beta in Hk, Hoff. cbn [fst snd] in Hk, Hoff.
  by rewrite Hk, Hoff.
Qed.

(** The descriptor made from a value [CreateFileW] returns leads to the
    stream of that value. *)
Lemma issued_descriptor h w (w2 : World X) (flags : Z) :
  issued h w →
  GetStreamForFD X (open_osfhandle (to_intptr h) flags) w2
  = GetStreamForHandle X h w2.
Proof.
  intros Hh. unfold GetStreamForFD.
  destruct (issued_cases h w Hh)
    as [-> | [-> | (upper & HK & i & l & HHK & ->)]];
    [reflexivity | reflexivity |].
  destruct (handle_lower_half upper HK i l) as [Hlow _].
  rewrite HandleFromFD_open_osfhandle;
    [| apply handle_range | rewrite Hlow; apply lower_half_range].
  rewrite Hlow. symmetry. by apply GetStreamForHandle_lower_half.
Qed.

(** X14 -- Every value [CreateFileW] returns, the failure value included,
    is of type disk for [GetFileType], which then changes nothing; the two
    standard handles are of type character; the unknown handle is of
    unknown type, with the last error set to not-found. *)
Theorem X14_returned_handles_are_disk (upper : Z) n (a b c d : Z) w h w'
  (w2 : World X) :
  (CreateFileW X upper n a b c d w = Returned h w' →
   GetFileType X h w2 = Returned FILE_TYPE_DISK w2)
  ∧ GetFileType X StdOutHandle w2 = Returned FILE_TYPE_CHAR w2
  ∧ GetFileType X StdErrHandle w2 = Returned FILE_TYPE_CHAR w2
  ∧ GetFileType X UnknownHandle w2
    = Returned FILE_TYPE_UNKNOWN (set_LastError ERROR_NOT_FOUND w2).
Proof.
  split; [| by repeat split].
  intros Hret. apply CreateFileW_returns in Hret as [_ Hissued].
  destruct (issued_cases h w' Hissued)
    as [-> | [-> | (u & HK & i & l & HHK & ->)]];
    [reflexivity | reflexivity |].
  destruct (built_handle_no_sentinel u HK i l HHK) as (Hstd & Hunk & _).
  unfold GetFileType. by rewrite Hstd, Hunk.
Qed.

(** X15 -- Of the values [CreateFileW] returns, those that are neither a
    file handle nor the output sentinel are reported by
    [GetFileInformationByHandle] as follows: a directory handle is a
    directory of size 0 with high index 1 and, as low index, the handle
    converted to [DWORD], which is its lower half and carries its kind,
    index and length; nothing changes.  The failure value is refused with
    the last error set to invalid-handle, all fields zero but the low
    index. *)
Theorem X15_information_of_directories (upper : Z) n (a b c d : Z) w h w'
  (w2 : World X) :
  CreateFileW X upper n a b c d w = Returned h w' →
  IsFileKind h = false → h ≠ OutputHandle →
  GetFileInformationByHandle X h w2
  = (if decide (h = INVALID_HANDLE_VALUE)
     then Returned (FALSE, mkInfo 0 0 0 (2 ^ 32 - 1))
                   (set_LastError ERROR_INVALID_HANDLE w2)
     else Returned (TRUE, mkInfo FILE_ATTRIBUTE_DIRECTORY 0 1
                            (to_DWORD (to_uintptr h))) w2)
  ∧ to_DWORD (to_uintptr h) = h mod 2 ^ 32
  ∧ (h ≠ INVALID_HANDLE_VALUE → decode (to_DWORD (to_uintptr h)) = decode h).
Proof.
  intros Hret Hfile Hout. apply CreateFileW_returns in Hret as [_ Hissued].
  destruct (issued_cases h w' Hissued)
    as [-> | [-> | (u & HK & i & l & HHK & ->)]];
    [by repeat split | done |].
  assert (to_DWORD (to_uintptr (DxcArgsHandle_kind u HK i l))
          = DxcArgsHandle_kind u HK i l mod 2 ^ 32) as Hlow.
  { pose proof (handle_range u HK i l) as Hr. unfold to_DWORD, to_uintptr, ptr_bits.
    change (2 ^ 64) with 18446744073709551616 in *.
    change (2 ^ 32) with 4294967296. Z.div_mod_to_equations. lia. }
  split; [| split; [done |]].
  - rewrite decide_False by apply handle_not_invalid.
    unfold GetFileInformationByHandle, nothrow, bind, get, ret. simpl.
    rewrite Hfile. rewrite decide_False by done.
    assert (IsDirHandle (DxcArgsHandle_kind u HK i l) = true) as ->; [| done].
    unfold IsFileKind in Hfile. unfold IsDirHandle.
    rewrite handle_kind_of in *. by destruct HK.
  - intros _. rewrite Hlow.
    destruct (handle_lower_half u HK i l) as [-> _].
    by rewrite !decode_handle.
Qed.

(** X16 -- With at most 256 entries in the registry, the descriptor made
    from a file handle that [CreateFileW] returns reads from and writes to
    the stream of the entry that carries the normalised path: [Read] and
    [Write] pass the request to that stream, keep the stream store it leaves,
    and answer -1 with [errno] set to [EIO] when the stream fails. *)
Theorem X16_descriptor_of_a_file_handle (upper : Z) n (a b c d : Z) w h w'
  (flags count : Z) (buffer : list byte) :
  CreateFileW X upper n a b c d w = Returned h w' →
  IsFileKind h = true →
  (length (m_includedFiles (fs w')) ≤ 256)%nat →
  ∃ e, e ∈ m_includedFiles (fs w')
    ∧ Name e = MakeAbsoluteOrCurDirRelativeW n
    ∧ GetStreamForFD X (open_osfhandle (to_intptr h) flags) w'
      = Returned (Some (BlobStream e)) w'
    ∧ Read X (open_osfhandle (to_intptr h) flags) count w'
      = (let '(data, st) := Stream_Read X (BlobStream e) count (streams w') in
         match data with
         | Some bytes =>
             Returned (to_int (Z.of_nat (length bytes)), bytes)
                      (set_streams X st w')
         | None => Returned (-1, []) (set_errno X EIO (set_streams X st w'))
         end)
    ∧ Write X (open_osfhandle (to_intptr h) flags) buffer w'
      = (let '(written, st) := Stream_Write X (BlobStream e) buffer (streams w') in
         match written with
         | Some k => Returned (to_int k) (set_streams X st w')
         | None => Returned (-1) (set_errno X EIO (set_streams X st w'))
         end).
Proof.
  intros Hret Hkind Hlen.
  destruct (CreateFileW_file_handle X upper n a b c d w h w' Hret Hkind)
    as (i & e & -> & Hi & Hname).
  apply CreateFileW_returns in Hret as [_ Hissued].
  apply lookup_lt_Some in Hi as Hlt.
  assert (i < 256)%nat as Hsmall by lia.
  pose proof (GetStreamForHandle_file X upper i e w' Hsmall Hi) as Hstream.
  assert (GetStreamForFD X
            (open_osfhandle (to_intptr (IncludedFileIndexToHandle upper i)) flags)
            w'
          = Returned (Some (BlobStream e)) w') as Hfd.
  { by rewrite (issued_descriptor _ w'). }
  exists e. split; [by eapply list_elem_of_lookup_2 |]. split; [done |].
  split; [done |]. split.
  - unfold Read, nothrow, bind. rewrite Hfd. unfold get. simpl.
    destruct (Stream_Read X (BlobStream e) count (streams w')) as [[bytes |] st];
      reflexivity.
  - unfold Write, nothrow, bind. rewrite Hfd. unfold get. simpl.
    destruct (Stream_Write X (BlobStream e) buffer (streams w')) as [[k |] st];
      reflexivity.
Qed.

(** X17 -- The descriptor made from a directory handle or from the failure
    value that [CreateFileW] returns has no stream: [Read], [Write] and
    [lseek] on it answer -1 and set [errno] to [EBADF], and change nothing
    else. *)
Theorem X17_no_stream_behind_a_directory (upper : Z) n (a b c d : Z) w h w'
  (w2 : World X) (flags count offset origin : Z) (buffer : list byte) :
  CreateFileW X upper n a b c d w = Returned h w' →
  IsFileKind h = false → h ≠ OutputHandle →
  GetStreamForFD X (open_osfhandle (to_intptr h) flags) w2 = Returned None w2
  ∧ Read X (open_osfhandle (to_intptr h) flags) count w2
    = Returned (-1, []) (set_errno X EBADF w2)
  ∧ Write X (open_osfhandle (to_intptr h) flags) buffer w2
    = Returned (-1) (set_errno X EBADF w2)
  ∧ lseek X (open_osfhandle (to_intptr h) flags) offset origin w2
    = Returned (-1) (set_errno X EBADF w2).
Proof.
  intros Hret Hfile Hout. apply CreateFileW_returns in Hret as [_ Hissued].
  assert (GetStreamForFD X (open_osfhandle (to_intptr h) flags) w2
          = Returned None w2) as Hfd.
  { rewrite (issued_descriptor _ w') by done.
    unfold GetStreamForHandle, bind, get, ret. simpl.
    apply bool_decide_eq_false in Hfile.
    rewrite (decide_False (P := h = OutputHandle)) by done.
    destruct (issued_cases h w' Hissued)
      as [-> | [-> | (u & HK & i & l & HHK & ->)]]; [reflexivity | done |].
    destruct (built_handle_no_sentinel u HK i l HHK) as (_ & _ & _ & H1 & H2).
    by rewrite !decide_False. }
  split; [done |].
  unfold Read, Write, lseek, nothrow, bind. by rewrite Hfd.
Qed.

End HandlesInUse.

Lemma X14_witness :
  ∃ w, inc_world = Some w
    ∧ CreateFileW plain_externals 3 (L "inc") 0 0 0 0 w
      = Returned (DxcArgsHandle_kind 3 FileDir 1 5) w
    ∧ GetFileType plain_externals (DxcArgsHandle_kind 3 FileDir 1 5) w
      = Returned FILE_TYPE_DISK w.
Proof.
  exists (default blank_world inc_world).
  assert (CreateFileW plain_externals 3 (L "inc") 0 0 0 0
            (default blank_world inc_world)
          = Returned (DxcArgsHandle_kind 3 FileDir 1 5)
              (default blank_world inc_world)) as Hrun by reflexivity.
  split; [reflexivity |]. split; [exact Hrun |].
  exact (proj1 (X14_returned_handles_are_disk plain_externals 3 (L "inc")
                  0 0 0 0 _ _ _ _) Hrun).
Defined.

Lemma X15_witness :
  ∃ w, inc_world = Some w
    ∧ CreateFileW plain_externals 3 (L "inc") 0 0 0 0 w
      = Returned (DxcArgsHandle_kind 3 FileDir 1 5) w
    ∧ GetFileInformationByHandle plain_externals
        (DxcArgsHandle_kind 3 FileDir 1 5) w
      = Returned (TRUE, mkInfo FILE_ATTRIBUTE_DIRECTORY 0 1
                          (DxcArgsHandle_kind 0 FileDir 1 5)) w.
Proof.
  exists (default blank_world inc_world).
  assert (CreateFileW plain_externals 3 (L "inc") 0 0 0 0
            (default blank_world inc_world)
          = Returned (DxcArgsHandle_kind 3 FileDir 1 5)
              (default blank_world inc_world)) as Hrun by reflexivity.
  assert (IsFileKind (DxcArgsHandle_kind 3 FileDir 1 5) = false) as Hkind
    by reflexivity.
  assert (DxcArgsHandle_kind 3 FileDir 1 5 ≠ OutputHandle) as Hout
    by discriminate.
  split; [reflexivity |]. split; [exact Hrun |].
  exact (proj1 (X15_information_of_directories plain_externals 3 (L "inc")
                  0 0 0 0 _ _ _ (default blank_world inc_world)
                  Hrun Hkind Hout)).
Defined.

Lemma X16_witness :
  ∃ w w' e, main_world (Some (handler_any [x42])) = Some w
    ∧ CreateFileW plain_externals 3 (L "inc/foo.h") 0 0 0 0 w
      = Returned (IncludedFileIndexToHandle 3 1) w'
    ∧ Name e = L "./inc/foo.h"
    ∧ GetStreamForFD plain_externals
        (open_osfhandle (to_intptr (IncludedFileIndexToHandle 3 1)) 0) w'
      = Returned (Some (BlobStream e)) w'.
Proof.
  exists (default blank_world (main_world (Some (handler_any [x42])))),
    (default blank_world inc_world).
  assert (CreateFileW plain_externals 3 (L "inc/foo.h") 0 0 0 0
            (default blank_world (main_world (Some (handler_any [x42]))))
          = Returned (IncludedFileIndexToHandle 3 1)
              (default blank_world inc_world)) as Hrun by reflexivity.
  assert (IsFileKind (IncludedFileIndexToHandle 3 1) = true) as Hkind
    by reflexivity.
  assert (length (m_includedFiles (fs (default blank_world inc_world))) ≤ 256)%nat
    as Hlen by (simpl; lia).
  destruct (X16_descriptor_of_a_file_handle plain_externals 3 _ 0 0 0 0 _ _ _
              0 0 [] Hrun Hkind Hlen) as (e & _ & Hname & Hfd & _).
  exists e. split; [reflexivity |]. split; [exact Hrun |].
  split; [exact Hname | exact Hfd].
Defined.

Lemma X17_witness :
  ∃ w, inc_world = Some w
    ∧ CreateFileW plain_externals 3 (L "inc") 0 0 0 0 w
      = Returned (DxcArgsHandle_kind 3 FileDir 1 5) w
    ∧ Read plain_externals
        (open_osfhandle (to_intptr (DxcArgsHandle_kind 3 FileDir 1 5)) 0) 16 w
      = Returned (-1, []) (set_errno plain_externals EBADF w).
Proof.
  exists (default blank_world inc_world).
  assert (CreateFileW plain_externals 3 (L "inc") 0 0 0 0
            (default blank_world inc_world)
          = Returned (DxcArgsHandle_kind 3 FileDir 1 5)
              (default blank_world inc_world)) as Hrun by reflexivity.
  assert (IsFileKind (DxcArgsHandle_kind 3 FileDir 1 5) = false) as Hkind
    by reflexivity.
  assert (DxcArgsHandle_kind 3 FileDir 1 5 ≠ OutputHandle) as Hout
    by discriminate.
  destruct (X17_no_stream_behind_a_directory plain_externals 3 (L "inc")
              0 0 0 0 _ _ _ (default blank_world inc_world) 0 16 0 0 []
              Hrun Hkind Hout) as (_ & Hread & _).
  split; [reflexivity |]. split; [exact Hrun | exact Hread].
Defined.

Section StandardStreams.
Context (X : Externals).

Implicit Types (w : World X).

(** X18 -- When [CreateStdStreams] returns, the result is success exactly
    when both streams exist, and out-of-memory otherwise; descriptors 1 and 2
    then lead to the streams stored for standard output and standard error;
    the registry and the search entries are as before.  Before the call a
    write to descriptor 1 answers -1 with [errno] set to [EBADF]; once the
    stream of standard output exists the write is passed to it, and -- also
    when the second stream could not be created -- a further call stops the
    program. *)
Theorem X18_standard_streams w (hr : Z) w1 (buffer : list byte) :
  CreateStdStreams X w = Returned hr w1 →
  (hr = S_OK ∨ hr = E_OUTOFMEMORY)
  ∧ (hr = S_OK ↔ is_Some (m_pStdOutStream (fs w1))
                 ∧ is_Some (m_pStdErrStream (fs w1)))
  ∧ GetStreamForFD X STDOUT_FILENO w1 = Returned (m_pStdOutStream (fs w1)) w1
  ∧ GetStreamForFD X STDERR_FILENO w1 = Returned (m_pStdErrStream (fs w1)) w1
  ∧ m_includedFiles (fs w1) = m_includedFiles (fs w)
  ∧ m_searchEntries (fs w1) = m_searchEntries (fs w)
  ∧ Write X STDOUT_FILENO buffer w = Returned (-1) (set_errno X EBADF w)
  ∧ (∀ o, m_pStdOutStream (fs w1) = Some o →
          Write X STDOUT_FILENO buffer w1
          = (let '(written, st) := Stream_Write X o buffer (streams w1) in
             match written with
             | Some k => Returned (to_int k) (set_streams X st w1)
             | None => Returned (-1) (set_errno X EIO (set_streams X st w1))
             end)
          ∧ CreateStdStreams X w1 = Crashed).
Proof.
  unfold CreateStdStreams, bind, get. simpl.
  case_decide as Hnone; [| done].
  destruct (CreateMemoryStream X (streams w)) as [o st1].
  destruct (CreateMemoryStream X st1) as [e st2].
  unfold modify, ret.
  assert (∀ w', GetStreamForFD X STDOUT_FILENO w'
                = Returned (m_pStdOutStream (fs w')) w') as Hout by done.
  assert (∀ w', GetStreamForFD X STDERR_FILENO w'
                = Returned (m_pStdErrStream (fs w')) w') as Herr by done.
  assert (∀ w' o', m_pStdOutStream (fs w') = Some o' →
            Write X STDOUT_FILENO buffer w'
            = (let '(written, st) := Stream_Write X o' buffer (streams w') in
               match written with
               | Some k => Returned (to_int k) (set_streams X st w')
               | None => Returned (-1) (set_errno X EIO (set_streams X st w'))
               end)) as Hwrite.
  { intros w' o' Ho. unfold Write, nothrow, bind. rewrite Hout, Ho.
    unfold get. simpl.
    by destruct (Stream_Write X o' buffer (streams w')) as [[k |] st]. }
  assert (Write X STDOUT_FILENO buffer w = Returned (-1) (set_errno X EBADF w))
    as Hbefore.
  { unfold Write, nothrow, bind. by rewrite Hout, Hnone. }
  assert (∀ w' o', m_pStdOutStream (fs w') = Some o' →
                   CreateStdStreams X w' = Crashed) as Hagain.
  { intros w' o' Ho. unfold CreateStdStreams, bind, get. simpl.
    rewrite Ho. by case_decide. }
  destruct o as [o |], e as [e |]; simpl; intros [= <- <-]; simpl.
  all: split; [by (left + right) |].
  all: split; [split; [try done; by intros _; split | try done;
                        intros [[? ?] [? ?]]; done] |].
  all: rewrite Hout, Herr; simpl.
  all: split; [done |]; split; [done |]; split; [done |]; split; [done |].
  all: split; [done |].
  all: intros o' Ho; split; [by apply Hwrite | first [done | by eapply Hagain]].
Qed.

End StandardStreams.

Lemma X18_witness :
  ∃ w w1, main_world None = Some w
    ∧ CreateStdStreams plain_externals w = Returned S_OK w1
    ∧ GetStreamForFD plain_externals STDOUT_FILENO w1 = Returned (Some 1%nat) w1
    ∧ CreateStdStreams plain_externals w1 = Crashed.
Proof.
  exists (default blank_world (main_world None)).
  exists (set_streams plain_externals 3%nat
            (set_fs plain_externals
               (set_StdStreams plain_externals (Some 1%nat) (Some 2%nat)
                  (fs (default blank_world (main_world None))))
               (default blank_world (main_world None)))).
  assert (CreateStdStreams plain_externals
            (default blank_world (main_world None))
          = Returned S_OK
              (set_streams plain_externals 3%nat
                 (set_fs plain_externals
                    (set_StdStreams plain_externals (Some 1%nat) (Some 2%nat)
                       (fs (default blank_world (main_world None))))
                    (default blank_world (main_world None))))) as Hrun
    by reflexivity.
  destruct (X18_standard_streams plain_externals _ _ _ [] Hrun)
    as (_ & _ & Hout & _ & _ & _ & _ & Hafter).
  split; [reflexivity |]. split; [exact Hrun |]. split; [exact Hout |].
  exact (proj2 (Hafter 1%nat eq_refl)).
Defined.

Section SettingUp.
Context (X : Externals).

Implicit Types (w : World X) (entries : list string).

Lemma push_searchEntries_fields (l : list wstring) w :
  m_searchEntries (fs (push_searchEntries l w)) = m_searchEntries (fs w) ++ l
  ∧ m_includedFiles (fs (push_searchEntries l w)) = m_includedFiles (fs w)
  ∧ m_pSourceName (fs (push_searchEntries l w)) = m_pSourceName (fs w)
  ∧ m_pOutputStreamName (fs (push_searchEntries l w))
    = m_pOutputStreamName (fs w)
  ∧ m_includeLoader (fs (push_searchEntries l w)) = m_includeLoader (fs w)
  ∧ streams (push_searchEntries l w) = streams w
  ∧ LastError (push_searchEntries l w) = LastError w
  ∧ LoadSource_calls (push_searchEntries l w) = LoadSource_calls w.
Proof.
  revert w. induction l as [| e l IH]; intros w.
  - by rewrite app_nil_r.
  - unfold push_searchEntries. simpl.
    match goal with
    | |- context [foldl _ ?w1 l] =>
        change (foldl _ w1 l) with (push_searchEntries l w1);
        destruct (IH w1) as (-> & -> & -> & -> & -> & -> & -> & ->)
    end.
    simpl. by rewrite <- app_assoc.
Qed.

(** The loop stores the converted entries one after the other and goes on
    with the rest. *)
Lemma add_searchEntries_app (pre rest : list string) (ws : list wstring) w :
  Forall2 (λ E s, UTF8ToUTF16StringOrThrow X E = Some s) pre ws →
  add_searchEntries X (pre ++ rest) w
  = add_searchEntries X rest
      (push_searchEntries (zip_with (stored_searchEntry X) pre ws) w).
Proof.
  intros Hconv. revert w.
  induction Hconv as [| E s pre ws HE _ IH]; intros w; [done |].
  simpl. rewrite HE. unfold bind, modify at 1. by rewrite IH.
Qed.

(** X19 -- [SetupForCompilerInstance] stops the program when search entries
    are already stored.  Otherwise, with more than 1000 entries it raises
    and changes nothing; with at most 1000 entries that all convert, it
    returns having stored, in order, each converted entry as it is when the
    entry is rooted and behind [./] when it is not, and nothing else of the
    adapter changes. *)
Theorem X19_search_entries_are_stored_in_order entries (ws : list wstring) w :
  (m_searchEntries (fs w) ≠ [] → SetupForCompilerInstance X entries w = Crashed)
  ∧ (m_searchEntries (fs w) = [] →
     ((MaxIncludedFiles < length entries)%nat →
      SetupForCompilerInstance X entries w = Thrown w)
     ∧ ((length entries ≤ MaxIncludedFiles)%nat →
        Forall2 (λ E s, UTF8ToUTF16StringOrThrow X E = Some s) entries ws →
        ∃ w1, SetupForCompilerInstance X entries w = Returned () w1
          ∧ m_searchEntries (fs w1)
            = zip_with (stored_searchEntry X) entries ws
          ∧ length (m_searchEntries (fs w1)) = length entries
          ∧ m_includedFiles (fs w1) = m_includedFiles (fs w)
          ∧ m_pSourceName (fs w1) = m_pSourceName (fs w)
          ∧ m_pOutputStreamName (fs w1) = m_pOutputStreamName (fs w)
          ∧ LoadSource_calls w1 = LoadSource_calls w)).
Proof.
  unfold SetupForCompilerInstance, bind, get. simpl. split.
  - intros Hstored. rewrite decide_False; [done |].
    by destruct (m_searchEntries (fs w)).
  - intros Hempty. rewrite decide_True by by rewrite Hempty.
    split; [intros Hmany; by rewrite decide_True |].
    intros Hfew Hconv. rewrite decide_False by lia.
    exists (push_searchEntries (zip_with (stored_searchEntry X) entries ws) w).
    pose proof (add_searchEntries_app entries [] ws w Hconv) as Happ.
    rewrite app_nil_r in Happ. rewrite Happ. simpl.
    destruct (push_searchEntries_fields
                (zip_with (stored_searchEntry X) entries ws) w)
      as (Hs & Hf & Hn & Ho & _ & _ & _ & Hc).
    rewrite Hempty in Hs. simpl in Hs.
    split; [done |]. split; [done |]. split; [| done].
    rewrite Hs, length_zip_with. apply Forall2_length in Hconv. lia.
Qed.

(** X20 -- When an entry does not convert, [SetupForCompilerInstance] raises
    with the entries before it already stored; if there is at least one, a
    further call stops the program instead of setting the entries up. *)
Theorem X20_failed_set_up_keeps_a_partial_list (pre post : list string)
  (E : string) (ws : list wstring) w :
  m_searchEntries (fs w) = [] →
  (length (pre ++ E :: post) ≤ MaxIncludedFiles)%nat →
  Forall2 (λ E s, UTF8ToUTF16StringOrThrow X E = Some s) pre ws →
  UTF8ToUTF16StringOrThrow X E = None →
  ∃ w1, SetupForCompilerInstance X (pre ++ E :: post) w = Thrown w1
    ∧ m_searchEntries (fs w1) = zip_with (stored_searchEntry X) pre ws
    ∧ m_includedFiles (fs w1) = m_includedFiles (fs w)
    ∧ (pre ≠ [] → ∀ entries, SetupForCompilerInstance X entries w1 = Crashed).
Proof.
  intros Hempty Hfew Hconv HE.
  exists (push_searchEntries (zip_with (stored_searchEntry X) pre ws) w).
  destruct (push_searchEntries_fields
              (zip_with (stored_searchEntry X) pre ws) w)
    as (Hs & Hf & _).
  rewrite Hempty in Hs. simpl in Hs.
  split; [| split; [done | split; [done |]]].
  - unfold SetupForCompilerInstance, bind, get. simpl.
    rewrite decide_True by by rewrite Hempty.
    rewrite decide_False by lia.
    rewrite (add_searchEntries_app pre (E :: post) ws w Hconv). simpl.
    by rewrite HE.
  - intros Hpre entries. unfold SetupForCompilerInstance, bind, get. simpl.
    rewrite Hs. rewrite decide_False; [done |].
    rewrite length_zip_with. apply Forall2_length in Hconv.
    destruct pre; [done |]. destruct ws; simpl in *; lia.
Qed.

End SettingUp.

Section StreamCalls.
Context (X : Externals).

Lemma GetStreamForHandle_state (handle : HANDLE) (w : World X) :
  match GetStreamForHandle X handle w with
  | Returned _ w' => w' = w
  | Thrown _ => False
  | Crashed => True
  end.
Proof.
  unfold GetStreamForHandle, bind, get, defined, ret. simpl.
  repeat case_decide; try done.
  by destruct (HandleToIncludedFile X (fs w) handle).
Qed.

(** X21 -- [Read], [Write], [lseek], [close] and [setmode] never raise, and
    when they return the adapter, the last error and the calls the include
    handler has received are as before: they change at most the stream store
    and [errno]. *)
Theorem X21_stream_calls_leave_the_adapter (fd count offset origin mode : Z)
  (buffer : list byte) :
  only_streams_and_errno (Read X fd count)
  ∧ only_streams_and_errno (Write X fd buffer)
  ∧ only_streams_and_errno (lseek X fd offset origin)
  ∧ only_streams_and_errno (close X fd)
  ∧ only_streams_and_errno (setmode X fd mode).
Proof.
  split; [| split; [| split; [| split]]]; intros w; try done.
  - unfold Read, nothrow, bind, GetStreamForFD.
    pose proof (GetStreamForHandle_state (HandleFromFD fd) w) as Hs.
    destruct (GetStreamForHandle X (HandleFromFD fd) w) as [[s |] w' | |];
      try done; subst w'; [| done].
    unfold get. simpl.
    by destruct (Stream_Read X s count (streams w)) as [[bytes |] st].
  - unfold Write, nothrow, bind, GetStreamForFD.
    pose proof (GetStreamForHandle_state (HandleFromFD fd) w) as Hs.
    destruct (GetStreamForHandle X (HandleFromFD fd) w) as [[s |] w' | |];
      try done; subst w'; [| done].
    unfold get. simpl.
    by destruct (Stream_Write X s buffer (streams w)) as [[k |] st].
  - unfold lseek, nothrow, bind, GetStreamForFD.
    pose proof (GetStreamForHandle_state (HandleFromFD fd) w) as Hs.
    destruct (GetStreamForHandle X (HandleFromFD fd) w) as [[s |] w' | |];
      try done; subst w'; [| done].
    unfold get. simpl.
    by destruct (Stream_Seek X s (to_DWORD offset) origin (streams w))
      as [[k |] st].
Qed.

End StreamCalls.

Lemma X19_witness :
  ∃ w w1, main_world None = Some w
    ∧ SetupForCompilerInstance plain_externals ["inc"; "./lib"]%string w
      = Returned () w1
    ∧ m_searchEntries (fs w1) = [L "./inc"; L "./lib"].
Proof.
  exists (default blank_world (main_world None)).
  assert (m_searchEntries (fs (default blank_world (main_world None))) = [])
    as Hempty by reflexivity.
  assert (length ["inc"; "./lib"]%string ≤ MaxIncludedFiles)%nat as Hfew
    by (unfold MaxIncludedFiles; simpl; lia).
  assert (Forall2 (λ E s, UTF8ToUTF16StringOrThrow plain_externals E = Some s)
            ["inc"; "./lib"]%string [L "inc"; L "./lib"]) as Hconv
    by (repeat constructor).
  destruct (proj2 (proj2 (X19_search_entries_are_stored_in_order
                            plain_externals _ _ _) Hempty) Hfew Hconv)
    as (w1 & Hrun & Hstored & _).
  exists w1. split; [reflexivity |]. split; [exact Hrun | exact Hstored].
Defined.

Lemma X20_witness :
  ∃ w1, SetupForCompilerInstance strict_externals ["inc"; ""; "lib"]%string
          strict_world = Thrown w1
    ∧ m_searchEntries (fs w1) = [L "./inc"]
    ∧ SetupForCompilerInstance strict_externals ["inc"]%string w1 = Crashed.
Proof.
  assert (m_searchEntries (fs strict_world) = []) as Hempty by reflexivity.
  assert (length (["inc"%string] ++ ""%string :: ["lib"%string])
          ≤ MaxIncludedFiles)%nat
    as Hfew by (unfold MaxIncludedFiles; simpl; lia).
  assert (Forall2 (λ E s, UTF8ToUTF16StringOrThrow strict_externals E = Some s)
            ["inc"%string] [L "inc"]) as Hconv by (repeat constructor).
  assert (UTF8ToUTF16StringOrThrow strict_externals "" = None) as HE
    by reflexivity.
  destruct (X20_failed_set_up_keeps_a_partial_list strict_externals
              ["inc"%string] ["lib"%string] ""%string [L "inc"] strict_world
              Hempty Hfew Hconv HE) as (w1 & Hrun & Hstored & _ & Hagain).
  exists w1. split; [exact Hrun |]. split; [exact Hstored |].
  apply Hagain. discriminate.
Defined.

Section NotSupported.
Context (X : Externals).

(** X22 -- Enumeration, the directory and path queries and [ReadFile] are
    not supported: each sets the last error to [ERROR_NOT_CAPABLE], answers
    zero and changes nothing else, [ReadFile] for every handle.  The answer
    of [FindFirstFileW] is therefore not the failure value of handles but the
    unknown handle, which [CloseHandle] refuses with the last error set to
    invalid-handle and [GetFileType] reports as of unknown type. *)
Theorem X22_enumeration_is_not_supported (w : World X) :
  let failed := set_LastError ERROR_NOT_CAPABLE w in
  (∀ n, FindFirstFileW X n w = Returned UnknownHandle failed)
  ∧ (∀ h, FindNextFileW X h w = Returned FALSE failed)
  ∧ (∀ n, RemoveDirectoryW X n w = Returned FALSE failed)
  ∧ (∀ k, GetCurrentDirectoryW X k w = Returned 0 failed)
  ∧ (∀ k, GetMainModuleFileNameW X k w = Returned 0 failed)
  ∧ (∀ k, GetTempPathW X k w = Returned 0 failed)
  ∧ (∀ h k, ReadFile X h k w = Returned FALSE failed)
  ∧ fs failed = fs w ∧ streams failed = streams w ∧ errno failed = errno w
  ∧ UnknownHandle ≠ INVALID_HANDLE_VALUE
  ∧ (∀ n, bind X (FindFirstFileW X n) (CloseHandle X) w
          = Returned FALSE (set_LastError ERROR_INVALID_HANDLE w))
  ∧ (∀ n, bind X (FindFirstFileW X n) (GetFileType X) w
          = Returned FILE_TYPE_UNKNOWN (set_LastError ERROR_NOT_FOUND w)).
Proof. repeat split; done. Qed.

End NotSupported.
